(** * Acquisition-and-normalisation pipeline of the three report scripts

    A shallow embedding of the data-acquisition code of

      - [fatalityanalysisapi/crash.py]      (ArcGIS feature service, FARS 2022),
      - [freeenergyapi/electric.py]         (EIA Open Data API v2 dashboard),
      - [nasasatellitewildfire/wildfire_report.py] (NASA FIRMS CSV download),

    followed by the properties of the specification that concern it.

    Conventions of the embedding.
      - Python [str] and JavaScript strings are [string]; the model covers
        ASCII text, on which [str.lower], [str.upper] and the regular
        expression class [[a-z0-9]] act as defined in module [Py].
      - Python [int] is [Z]; a [float] is the dyadic number it stands
        for, and [int / int] rounds once, as Python does; a parsed JSON
        document is a [json] value; a Python [dict] is an association
        list in insertion order.
      - The network is an explicit world: a [server] function answers the
        n-th HTTP attempt, and a [world] record logs what the code did
        (logical requests, HTTP attempts, sleeps).
      - An exception is the [Raise] outcome of a [result]; [Unmodelled]
        marks the two corners of Python's builtins the model does not
        describe ([int] of a string, [dict] of a non-empty array). *)

From Stdlib Require Import ZArith QArith List String Ascii Bool Lia.
From Stdlib Require Import DecimalString DecimalZ.
From Stdlib Require Import Sorting.Sorted Sorting.Permutation Sorting.Mergesort.
From Stdlib Require Import Structures.Orders.
Import ListNotations.

#[local] Set Warnings "-register-all".
#[local] Close Scope Q_scope.
#[local] Open Scope string_scope.
#[local] Open Scope list_scope.
#[local] Open Scope Z_scope.

(* ===================================================================== *)
(** * Python values and builtins                                          *)
(* ===================================================================== *)

Module Py.

(** A parsed JSON document ([requests.Response.json()]). *)
Inductive json : Type :=
| JNull
| JBool (b : bool)
| JInt (n : Z)
| JFloat (q : Q)
| JStr (s : string)
| JArr (items : list json)
| JObj (fields : list (string * json)).

Definition dict := list (string * json).

(** Exceptions the modelled code raises or lets through. *)
Inductive exn : Type :=
| Timeout                                   (* requests.Timeout *)
| ConnectionError                           (* requests.ConnectionError *)
| HTTPError (status : Z)                    (* Response.raise_for_status *)
| JSONDecodeError                           (* Response.json on a bad body *)
| ArcGISError (payload : json)              (* RuntimeError("ArcGIS error: ...") *)
| RequestFailed (retries : Z) (last_err : option exn)
                                            (* RuntimeError(...) from last_err *)
| NonCSVResponse                            (* RuntimeError, FIRMS guard *)
| CSVParseError                             (* RuntimeError, read_csv failed *)
| NoDetections                              (* RuntimeError, empty frame *)
| TypeError
| ValueError
| AttributeError
| ZeroDivisionError
| OverflowError                             (* int / int beyond the floats *)
| UnicodeDecodeError                        (* Path.read_text on bad bytes *)
| OSError.                                  (* Path.read_text, file unreadable *)

Inductive result (A : Type) : Type :=
| Ok (a : A)
| Raise (e : exn)
| Unmodelled.
Arguments Ok {A} a.
Arguments Raise {A} e.
Arguments Unmodelled {A}.

Definition is_ok {A} (r : result A) : bool :=
  match r with Ok _ => true | _ => false end.

(** Sequencing of computations that may raise. *)
Definition rbind {A B} (r : result A) (k : A -> result B) : result B :=
  match r with
  | Ok a => k a
  | Raise e => Raise e
  | Unmodelled => Unmodelled
  end.

(** Run [f] over a list left to right, stopping at the first exception. *)
Fixpoint mapM {A B} (f : A -> result B) (l : list A) : result (list B) :=
  match l with
  | [] => Ok []
  | x :: rest =>
      rbind (f x) (fun y => rbind (mapM f rest) (fun ys => Ok (y :: ys)))
  end.

(** [range(n)] *)
Definition range (n : Z) : list Z := map Z.of_nat (seq 0 (Z.to_nat n)).

(** [str(n)] for an int. *)
Definition str (n : Z) : string := NilZero.string_of_int (Z.to_int n).

(** [d.get(k)]: the value bound to [k], or [None]. *)
Fixpoint dict_get (k : string) (d : dict) : option json :=
  match d with
  | [] => None
  | (k', v) :: rest => if String.eqb k k' then Some v else dict_get k rest
  end.

(** [d[k] = v]: overwrite in place, or append a new key. *)
Fixpoint dict_set (k : string) (v : json) (d : dict) : dict :=
  match d with
  | [] => [(k, v)]
  | (k', v') :: rest =>
      if String.eqb k k' then (k', v) :: rest else (k', v') :: dict_set k v rest
  end.

(** Truth value of a JSON-born Python object. *)
Definition truthy (v : json) : bool :=
  match v with
  | JNull => false
  | JBool b => b
  | JInt n => negb (n =? 0)
  | JFloat q => negb (Qnum q =? 0)
  | JStr s => negb (String.eqb s "")
  | JArr l => match l with [] => false | _ => true end
  | JObj d => match d with [] => false | _ => true end
  end.

(** [d.get(k) or dflt] *)
Definition get_or (k : string) (d : dict) (dflt : json) : json :=
  match dict_get k d with
  | Some v => if truthy v then v else dflt
  | None => dflt
  end.

(** [int(v)] *)
Definition py_int (v : json) : result Z :=
  match v with
  | JInt n => Ok n
  | JBool b => Ok (if b then 1 else 0)
  | JFloat q => Ok (Z.quot (Qnum q) (Z.pos (Qden q)))
  | JStr _ => Unmodelled
  | JNull | JArr _ | JObj _ => Raise TypeError
  end.

(** A finite [float], an IEEE 754 binary64 number, as the dyadic number
    [mant * 2 ^ expo] it stands for. *)
Record float : Type := { mant : Z; expo : Z }.

(** The integer nearest to [n / d], for [0 < d]; a tie goes to the even
    one. *)
Definition round_half_even (n d : Z) : Z :=
  let q := n / d in
  let r := n mod d in
  if 2 * r <? d then q
  else if d <? 2 * r then q + 1
  else if Z.even q then q else q + 1.

(** [floor (log2 (n / d))] for [0 < n] and [0 < d]. *)
Definition ilog2_ratio (n d : Z) : Z :=
  let k := Z.log2 n - Z.log2 d in
  if (if 0 <=? k then d * 2 ^ k <=? n else d <=? n * 2 ^ (- k))
  then k else k - 1.

(** [a / b] on ints: the quotient rounded once, to the nearest float.  A
    float has 53 significant bits and an exponent of at least -1074; a
    result of 2^1024 or more is an [OverflowError]. *)
Definition true_div (a b : Z) : result float :=
  if b =? 0 then Raise ZeroDivisionError
  else if a =? 0 then Ok {| mant := 0; expo := 0 |}
  else
    let n := Z.abs a in
    let d := Z.abs b in
    let e := Z.max (ilog2_ratio n d - 52) (- 1074) in
    let m := if 0 <=? e then round_half_even n (d * 2 ^ e)
             else round_half_even (n * 2 ^ (- e)) d in
    if (0 <=? e) && (2 ^ 1024 <=? m * 2 ^ e) then Raise OverflowError
    else Ok {| mant := Z.sgn a * Z.sgn b * m; expo := e |}.

(** [math.ceil(x)] *)
Definition math_ceil (x : float) : Z :=
  if 0 <=? expo x then mant x * 2 ^ expo x
  else - ((- mant x) / 2 ^ (- expo x)).

(** Characters. *)
Definition is_upper (c : ascii) : bool :=
  let n := nat_of_ascii c in (65 <=? n)%nat && (n <=? 90)%nat.
Definition is_lower (c : ascii) : bool :=
  let n := nat_of_ascii c in (97 <=? n)%nat && (n <=? 122)%nat.
Definition is_digit (c : ascii) : bool :=
  let n := nat_of_ascii c in (48 <=? n)%nat && (n <=? 57)%nat.
(** Whitespace removed by [str.strip()]: TAB, LF, VT, FF, CR, FS..US, space. *)
Definition is_space (c : ascii) : bool :=
  let n := nat_of_ascii c in
  ((9 <=? n)%nat && (n <=? 13)%nat) || ((28 <=? n)%nat && (n <=? 32)%nat).

Definition lower_char (c : ascii) : ascii :=
  if is_upper c then ascii_of_nat (nat_of_ascii c + 32) else c.
Definition upper_char (c : ascii) : ascii :=
  if is_lower c then ascii_of_nat (nat_of_ascii c - 32) else c.

Fixpoint map_string (f : ascii -> ascii) (s : string) : string :=
  match s with
  | EmptyString => EmptyString
  | String c rest => String (f c) (map_string f rest)
  end.

Fixpoint filter_string (p : ascii -> bool) (s : string) : string :=
  match s with
  | EmptyString => EmptyString
  | String c rest =>
      if p c then String c (filter_string p rest) else filter_string p rest
  end.

(** [s.lower()], [s.upper()] on ASCII text.  Outside ASCII Python maps
    case by the Unicode tables, which the model does not have: what is
    proved with the case of a text assumes [ascii_text] of it. *)
Definition lower (s : string) : string := map_string lower_char s.
Definition upper (s : string) : string := map_string upper_char s.

Definition is_ascii (c : ascii) : bool := (nat_of_ascii c <? 128)%nat.
Definition ascii_text (s : string) : Prop :=
  Forall (fun c => is_ascii c = true) (list_ascii_of_string s).

(** [s.lstrip()] *)
Fixpoint lstrip (s : string) : string :=
  match s with
  | EmptyString => EmptyString
  | String c rest => if is_space c then lstrip rest else s
  end.

(** [s.rstrip()], [s.strip()] *)
Fixpoint rstrip (s : string) : string :=
  match s with
  | EmptyString => EmptyString
  | String c rest =>
      let r := rstrip rest in
      if is_space c && String.eqb r "" then EmptyString else String c r
  end.
Definition strip (s : string) : string := rstrip (lstrip s).

(** [s.startswith(c)] for a one-character prefix. *)
Definition starts_with_char (c : ascii) (s : string) : bool :=
  match s with
  | EmptyString => false
  | String c' _ => Ascii.eqb c c'
  end.

(** [needle in hay] on strings. *)
Fixpoint contains (needle hay : string) : bool :=
  String.prefix needle hay ||
  match hay with
  | EmptyString => false
  | String _ rest => contains needle rest
  end.

(** [x in xs] on a list of strings. *)
Definition mem_string (x : string) (xs : list string) : bool :=
  existsb (String.eqb x) xs.

(** [" ".join(parts)] *)
Definition join_space (parts : list string) : string := String.concat " " parts.

End Py.

(* ===================================================================== *)
(** * pandas frames                                                       *)
(* ===================================================================== *)

Module Pandas.
Import Py.

(** A cell of a [DataFrame]: a value taken from a record, a missing value,
    or the result of [pd.to_datetime]. *)
Inductive cell : Type :=
| Val (v : json)
| NaN
| Timestamp (year month day : Z)
| NaT.

(** Column labels in order, and the rows, each aligned with [columns]. *)
Record frame : Type := { columns : list string; rows : list (list cell) }.

(** Column labels of [pd.DataFrame(records)]: the keys of the records in
    order of first appearance. *)
Definition add_key (acc : list string) (k : string) : list string :=
  if mem_string k acc then acc else acc ++ [k].
Definition union_keys (records : list dict) : list string :=
  fold_left (fun acc d => fold_left add_key (map fst d) acc) records [].

Definition cell_of (d : dict) (c : string) : cell :=
  match dict_get c d with Some v => Val v | None => NaN end.

(** [pd.DataFrame(records)] for a list of dicts. *)
Definition DataFrame (records : list dict) : frame :=
  let cols := union_keys records in
  {| columns := cols; rows := map (fun d => map (cell_of d) cols) records |}.

Fixpoint col_index (c : string) (cols : list string) : option nat :=
  match cols with
  | [] => None
  | c' :: rest =>
      if String.eqb c c' then Some O else option_map S (col_index c rest)
  end.

(** [df[c]] as the list of its cells ([None]: no such column). *)
Definition column (df : frame) (c : string) : option (list cell) :=
  match col_index c (columns df) with
  | Some i => Some (map (fun r => nth i r NaN) (rows df))
  | None => None
  end.

Fixpoint set_nth (i : nat) (x : cell) (r : list cell) : list cell :=
  match r, i with
  | [], _ => []
  | _ :: rest, O => x :: rest
  | y :: rest, S j => y :: set_nth j x rest
  end.

(** [df[c] = values]: overwrite column [c], or append it as the last one.
    [values] has one cell per row. *)
Definition set_column (df : frame) (c : string) (values : list cell) : frame :=
  match col_index c (columns df) with
  | Some i =>
      {| columns := columns df;
         rows := map (fun rv => set_nth i (snd rv) (fst rv))
                     (combine (rows df) values) |}
  | None =>
      {| columns := columns df ++ [c];
         rows := map (fun rv => fst rv ++ [snd rv]) (combine (rows df) values) |}
  end.

(** [df[c].iloc[i]] ([None]: no such column or row). *)
Definition cell_at (df : frame) (i : nat) (c : string) : option cell :=
  match column df c with
  | Some col => nth_error col i
  | None => None
  end.

(** [df.empty]: some axis has length zero. *)
Definition empty (df : frame) : bool :=
  match columns df, rows df with
  | [], _ | _, [] => true
  | _, _ => false
  end.

(** ** [pd.to_datetime] on year, month and day columns

    pandas is not part of the repository.  Given a mapping of [year],
    [month] and [day] columns, [pd.to_datetime] makes the columns
    numeric, combines them as [year * 10000 + month * 100 + day] and
    parses the combined number with the format [%Y%m%d]
    ([_assemble_from_unit_mappings]).  The model follows it where the
    three columns are int64 and every combined number has a year that a
    [Timestamp] can hold. *)

(** The Gregorian calendar. *)
Definition leap_year (y : Z) : bool :=
  (y mod 4 =? 0) && (negb (y mod 100 =? 0) || (y mod 400 =? 0)).
Definition days_in_month (y m : Z) : Z :=
  if (m =? 2) then (if leap_year y then 29 else 28)
  else if (m =? 4) || (m =? 6) || (m =? 9) || (m =? 11) then 30
  else 31.
Definition valid_date (y m d : Z) : bool :=
  (1 <=? m) && (m <=? 12) && (1 <=? d) && (d <=? days_in_month y m).

(** int64 arithmetic: results wrap around. *)
Definition in_int64 (z : Z) : bool := (- 2 ^ 63 <=? z) && (z <? 2 ^ 63).
Definition wrap64 (z : Z) : Z := (z + 2 ^ 63) mod 2 ^ 64 - 2 ^ 63.

(** A cell of an int64 column: a Python int that fits. *)
Definition int64_cell (c : cell) : option Z :=
  match c with
  | Val (JInt n) => if in_int64 n then Some n else None
  | _ => None
  end.

(** [year * 10000 + month * 100 + day] on int64 columns. *)
Definition ymd_value (y m d : Z) : Z :=
  wrap64 (wrap64 (wrap64 (y * 10000) + wrap64 (m * 100)) + d).

(** The combined numbers whose first four digits are a year that is
    within the bounds of [Timestamp] whatever the month and the day. *)
Definition in_timestamp_years (v : Z) : bool :=
  (16780000 <=? v) && (v <=? 22619999).

(** [%Y%m%d] on such a number, with [errors="coerce"]: four digits of
    year, two of month, two of day; [NaT] when they are no date. *)
Definition parse_ymd (v : Z) : cell :=
  let y := v / 10000 in
  let m := (v / 100) mod 100 in
  let d := v mod 100 in
  if valid_date y m d then Timestamp y m d else NaT.

(** The combined numbers of three columns of one length: [None] unless
    the columns are int64 and every number is [in_timestamp_years]. *)
Fixpoint ymd_values (ys ms ds : list cell) : option (list Z) :=
  match ys, ms, ds with
  | [], [], [] => Some []
  | y :: ys', m :: ms', d :: ds' =>
      match int64_cell y, int64_cell m, int64_cell d, ymd_values ys' ms' ds' with
      | Some y', Some m', Some d', Some vs =>
          let v := ymd_value y' m' d' in
          if in_timestamp_years v then Some (v :: vs) else None
      | _, _, _, _ => None
      end
  | _, _, _ => None
  end.

End Pandas.

(* ===================================================================== *)
(** * crash.py                                                            *)
(* ===================================================================== *)

Module Crash.
Import Py Pandas.

Definition MAX_RECORD_COUNT : Z := 2000.

(** Query-string parameters of one request. *)
Definition params := list (string * string).

(** What one HTTP attempt meets: [session.get] raises, or a response comes
    back with a status code and a body that parses as JSON or does not. *)
Inductive http_outcome : Type :=
| GetRaises (e : exn)
| Response (status : Z) (body : option json).

(** The service: its answer to the [n]-th HTTP attempt of the run. *)
Definition server := nat -> params -> http_outcome.

(** What the run has done so far.  [calls]: the logical requests handed to
    [_request_json]; [wire]: every HTTP attempt; [slept]: every
    [time.sleep] duration, in seconds.  All oldest first. *)
Record world : Type :=
  { calls : list params; wire : list params; slept : list Z }.

Definition fresh : world := {| calls := []; wire := []; slept := [] |}.

Definition log_call (p : params) (w : world) : world :=
  {| calls := calls w ++ [p]; wire := wire w; slept := slept w |}.
Definition log_wire (p : params) (w : world) : world :=
  {| calls := calls w; wire := wire w ++ [p]; slept := slept w |}.
Definition sleep (s : Z) (w : world) : world :=
  {| calls := calls w; wire := wire w; slept := slept w ++ [s] |}.

(** Computations that may raise and that act on the world. *)
Definition M (A : Type) : Type := world -> result A * world.

Definition ret {A} (a : A) : M A := fun w => (Ok a, w).
Definition lift {A} (r : result A) : M A := fun w => (r, w).
Definition bind {A B} (m : M A) (k : A -> M B) : M B :=
  fun w =>
    match m w with
    | (Ok a, w') => k a w'
    | (Raise e, w') => (Raise e, w')
    | (Unmodelled, w') => (Unmodelled, w')
    end.

Notation "x <- m ;; k" := (bind m (fun x => k))
  (at level 61, m at next level, right associativity).

(** [data.get(k, dflt)] on a parsed document: only a dict has [get]. *)
Definition get_field (k : string) (dflt : json) (data : json) : result json :=
  match data with
  | JObj d => Ok (match dict_get k d with Some v => v | None => dflt end)
  | _ => Raise AttributeError
  end.

(** [data["error"]] when [isinstance(data, dict) and "error" in data]. *)
Definition error_payload (data : json) : option json :=
  match data with
  | JObj d => dict_get "error" d
  | _ => None
  end.

(** [raise_for_status] raises on a 4xx or 5xx status. *)
Definition bad_status (status : Z) : bool := (400 <=? status) && (status <? 600).

(** What the [try] block of [_request_json] makes of one HTTP outcome:
    [session.get], [raise_for_status], [r.json()], the ArcGIS error test. *)
Definition verdict (o : http_outcome) : result json :=
  match o with
  | GetRaises e => Raise e
  | Response status body =>
      if bad_status status then Raise (HTTPError status)
      else
        match body with
        | None => Raise JSONDecodeError
        | Some data =>
            match error_payload data with
            | Some payload => Raise (ArcGISError payload)
            | None => Ok data
            end
        end
  end.

(** One attempt: the request goes on the wire and is answered. *)
Definition attempt_once (srv : server) (p : params) : M json :=
  fun w => (verdict (srv (List.length (wire w)) p), log_wire p w).

(** The [for attempt in range(retries)] loop; [attempts] is what is left of
    the range, [last_err] the variable of that name. *)
Fixpoint retry_loop (srv : server) (p : params) (retries : Z)
    (attempts : list Z) (last_err : option exn) : M json :=
  fun w =>
    match attempts with
    | [] => (Raise (RequestFailed retries last_err), w)
    | attempt :: rest =>
        match attempt_once srv p w with
        | (Ok data, w1) => (Ok data, w1)
        | (Raise e, w1) =>
            retry_loop srv p retries rest (Some e)
              (sleep (Z.min (2 ^ attempt) 20) w1)
        | (Unmodelled, w1) => (Unmodelled, w1)
        end
    end.

Definition _request_json (srv : server) (p : params) (retries : Z) : M json :=
  fun w => retry_loop srv p retries (range retries) None (log_call p w).

Definition DEFAULT_RETRIES : Z := 5.

Definition count_params (where_ : string) : params :=
  [("f", "json"); ("where", where_); ("returnCountOnly", "true")].

Definition get_count (srv : server) (where_ : string) : M Z :=
  data <- _request_json srv (count_params where_) DEFAULT_RETRIES ;;
  count <- lift (get_field "count" (JInt 0) data) ;;
  lift (py_int count).

Definition page_params (where_ out_fields : string) (offset : Z) : params :=
  [("f", "json"); ("where", where_); ("outFields", out_fields);
   ("returnGeometry", "true"); ("outSR", "4326");
   ("resultRecordCount", str MAX_RECORD_COUNT);
   ("resultOffset", str offset); ("orderByFields", "OBJECTID")].

(** What [features.extend(v)] appends: the items of a list, the keys of a
    dict, the characters of a string; other values are not iterable. *)
Definition iter_items (v : json) : result (list json) :=
  match v with
  | JArr l => Ok l
  | JObj d => Ok (map (fun kv => JStr (fst kv)) d)
  | JStr s => Ok (map (fun c => JStr (String c EmptyString)) (list_ascii_of_string s))
  | JNull | JBool _ | JInt _ | JFloat _ => Raise TypeError
  end.

(** The [for page_idx in range(pages)] loop.  The progress line printed
    after each page is not part of the model. *)
Fixpoint page_loop (srv : server) (where_ out_fields : string)
    (idxs : list Z) (features : list json) : M (list json) :=
  match idxs with
  | [] => ret features
  | page_idx :: rest =>
      let offset := page_idx * MAX_RECORD_COUNT in
      data <- _request_json srv (page_params where_ out_fields offset)
                DEFAULT_RETRIES ;;
      page_features <- lift (get_field "features" (JArr []) data) ;;
      items <- lift (iter_items page_features) ;;
      page_loop srv where_ out_fields rest (features ++ items)
  end.

Definition fetch_all_features (srv : server) (where_ out_fields : string)
  : M (list json) :=
  total <- get_count srv where_ ;;
  if total =? 0 then ret []
  else
    quotient <- lift (true_div total MAX_RECORD_COUNT) ;;
    let pages := math_ceil quotient in
    page_loop srv where_ out_fields (range pages) [].

(** [dict(v)], applied to [f.get("attributes") or {}]. *)
Definition py_dict (v : json) : result dict :=
  match v with
  | JObj d => Ok d
  | JArr [] => Ok []
  | JArr (_ :: _) => Unmodelled
  | JStr s => if String.eqb s "" then Ok [] else Raise ValueError
  | JNull | JBool _ | JInt _ | JFloat _ => Raise TypeError
  end.

Definition is_str (k : string) (v : json) : bool :=
  match v with JStr s => String.eqb s k | _ => false end.

(** The geometry test and the two assignments of [features_to_df]:
      if "x" in geom and "y" in geom:
          attrs["lon"] = geom["x"]; attrs["lat"] = geom["y"]
    [geom] is [f.get("geometry") or {}].  On a string or a list the
    membership test is defined and the subscript raises; other values do
    not support [in]. *)
Definition project_geometry (geom : json) (attrs : dict) : result dict :=
  match geom with
  | JObj g =>
      match dict_get "x" g, dict_get "y" g with
      | Some x, Some y => Ok (dict_set "lat" y (dict_set "lon" x attrs))
      | _, _ => Ok attrs
      end
  | JStr s =>
      if contains "x" s && contains "y" s then Raise TypeError else Ok attrs
  | JArr l =>
      if existsb (is_str "x") l && existsb (is_str "y") l
      then Raise TypeError else Ok attrs
  | JNull | JBool _ | JInt _ | JFloat _ => Raise TypeError
  end.

(** Body of the [for f in features] loop: the row appended for [f]. *)
Definition feature_row (f : json) : result dict :=
  match f with
  | JObj d =>
      rbind (py_dict (get_or "attributes" d (JObj []))) (fun attrs =>
      project_geometry (get_or "geometry" d (JObj [])) attrs)
  | _ => Raise AttributeError
  end.

Section FeaturesToDf.

(** [pd.to_datetime(dict(year=.., month=.., day=..), errors="coerce")]
    outside the case that [ymd_values] covers: the cell it yields for a
    row from the row's three component cells.  pandas is outside the
    repository and is taken as given there. *)
Variable to_datetime_coerce : cell -> cell -> cell -> cell.

Fixpoint assemble_dates (ys ms ds : list cell) : list cell :=
  match ys, ms, ds with
  | y :: ys', m :: ms', d :: ds' =>
      to_datetime_coerce y m d :: assemble_dates ys' ms' ds'
  | _, _, _ => []
  end.

(** [pd.to_datetime(dict(year=ys, month=ms, day=ds), errors="coerce")] *)
Definition to_datetime (ys ms ds : list cell) : list cell :=
  match ymd_values ys ms ds with
  | Some values => map parse_ymd values
  | None => assemble_dates ys ms ds
  end.

(** The [for col in ("YEAR", "MONTH", "DAY") ... else] statement. *)
Definition add_crash_date (df : frame) : frame :=
  match column df "YEAR", column df "MONTH", column df "DAY" with
  | Some ys, Some ms, Some ds =>
      set_column df "crash_date" (to_datetime ys ms ds)
  | _, _, _ => df
  end.

Definition features_to_df (features : list json) : result frame :=
  rbind (mapM feature_row features) (fun rows =>
  Ok (add_crash_date (DataFrame rows))).

End FeaturesToDf.

End Crash.

(* ===================================================================== *)
(** * electric.py                                                         *)
(* ===================================================================== *)

Module Electric.
Import Py.

(** [re.sub(r"[^a-z0-9]+", "", s.lower())]; [s.lower()] is [Py.lower],
    that of ASCII text. *)
Definition is_key_char (c : ascii) : bool := is_lower c || is_digit c.
Definition normalize_key (s : string) : string :=
  filter_string is_key_char (lower s).

(** [for k, nk in norm_map.items(): if test(nk): return k] *)
Fixpoint first_key (test : string -> bool) (norm_map : list (string * string))
  : option string :=
  match norm_map with
  | [] => None
  | (k, nk) :: rest => if test nk then Some k else first_key test rest
  end.

(** [for pn in pref_norm: for k, nk in norm_map.items(): if test(pn, nk): return k] *)
Fixpoint first_pref (test : string -> string -> bool) (pref_norm : list string)
    (norm_map : list (string * string)) : option string :=
  match pref_norm with
  | [] => None
  | pn :: rest =>
      match first_key (test pn) norm_map with
      | Some k => Some k
      | None => first_pref test rest norm_map
      end
  end.

(** [pn and pn in nk] *)
Definition nonempty_infix (pn nk : string) : bool :=
  negb (String.eqb pn "") && contains pn nk.

(** The selection of [pick_generation_data_column] for a preference list. *)
Definition pick_column (preferred keys : list string) (fallback : string)
  : string :=
  let norm_map := map (fun k => (k, normalize_key k)) keys in
  let pref_norm := map normalize_key preferred in
  match first_pref (fun pn nk => String.eqb nk pn) pref_norm norm_map with
  | Some k => k
  | None =>
      match first_pref nonempty_infix pref_norm norm_map with
      | Some k => k
      | None =>
          match first_key (contains "gen") norm_map with
          | Some k => k
          | None => fallback
          end
      end
  end.

Definition preferred : list string :=
  ["net-generation"; "net_generation"; "netgeneration"; "generation"; "gen";
   "value"].

(** [data_obj] is [meta.get("response", {}).get("data", {}) or {}] of the
    metadata document fetched by [eia_metadata]. *)
Definition pick_generation_data_column (data_obj : dict) : string :=
  match map fst data_obj with
  | [] => "value"
  | (k0 :: _) as keys => pick_column preferred keys k0
  end.

(** One entry of a facet listing.  The EIA facet endpoint gives [id],
    [name] and [alias] as strings; [None] is a key that is missing or null. *)
Record facet : Type :=
  { f_id : option string; f_name : option string; f_alias : option string }.

(** [str(v or "")] *)
Definition or_empty (v : option string) : string :=
  match v with Some s => s | None => "" end.

Definition exact_hit (prefer_ids_u : list string) (f : facet) : bool :=
  mem_string (upper (or_empty (f_id f))) prefer_ids_u.

Definition blob (f : facet) : string :=
  lower (join_space [or_empty (f_id f); or_empty (f_name f); or_empty (f_alias f)]).

Definition needle_hit (needles : list string) (f : facet) : bool :=
  existsb (fun n => contains n (blob f)) needles.

Definition choose_facet_id (facet_values : list facet)
    (prefer_ids prefer_name_contains : list string) : option string :=
  match facet_values with
  | [] => None
  | _ =>
      let prefer_ids_u := map upper prefer_ids in
      match find (exact_hit prefer_ids_u) facet_values with
      | Some f => f_id f
      | None =>
          let needles := map lower prefer_name_contains in
          match find (needle_hit needles) facet_values with
          | Some f => f_id f
          | None => None
          end
      end
  end.

End Electric.

(* ===================================================================== *)
(** * electric.py, the script embedded by [build_dashboard]               *)
(* ===================================================================== *)

(** Strings ordered as [Array.prototype.sort] orders them without a
    comparator: by code units, a proper prefix first. *)
Module PeriodOrder <: TotalLeBool.
Definition t := string.
Definition leb (a b : string) : bool := String.leb a b.
Definition leb_total : forall a1 a2, leb a1 a2 = true \/ leb a2 a1 = true :=
  String.leb_total.
End PeriodOrder.

Module PeriodSort := Sort PeriodOrder.

Module Dashboard.
Import Py.

(** A property read off a row of [data.json]: [None] is [undefined]. *)
Definition prop := option json.

(** [v ?? null] *)
Definition nullish (v : prop) : json :=
  match v with
  | None | Some JNull => JNull
  | Some x => x
  end.

(** Rows of [retail.rows] and [gen.rows], reduced to the properties the
    script reads.  [period] is a string in both. *)
Record retail_row : Type :=
  { r_period : string; r_sales : prop; r_revenue : prop; r_price : prop }.
Record gen_row : Type := { g_period : string; g_generation : prop }.

(** The object literal stored in [byPeriod]. *)
Record merged_row : Type :=
  { period : string; sales : json; revenue : json; price : json;
    generation : json }.

(** A [Map] keyed by period: its entries in insertion order. *)
Definition period_map := list (string * merged_row).

(** [m.get(k)] *)
Fixpoint map_get (k : string) (m : period_map) : option merged_row :=
  match m with
  | [] => None
  | (k', v) :: rest => if String.eqb k k' then Some v else map_get k rest
  end.

(** [m.set(k, v)]: an existing key keeps its place. *)
Fixpoint map_set (k : string) (v : merged_row) (m : period_map) : period_map :=
  match m with
  | [] => [(k, v)]
  | (k', v') :: rest =>
      if String.eqb k k' then (k', v) :: rest else (k', v') :: map_set k v rest
  end.

(** [Array.from(m.keys())] *)
Definition map_keys (m : period_map) : list string := map fst m.

(** Body of [for (const r of retail.rows)]. *)
Definition add_retail (m : period_map) (r : retail_row) : period_map :=
  map_set (r_period r)
    {| period := r_period r;
       sales := nullish (r_sales r);
       revenue := nullish (r_revenue r);
       price := nullish (r_price r);
       generation := JNull |} m.

Definition blank (p : string) : merged_row :=
  {| period := p; sales := JNull; revenue := JNull; price := JNull;
     generation := JNull |}.

Definition set_generation (cur : merged_row) (v : json) : merged_row :=
  {| period := period cur; sales := sales cur; revenue := revenue cur;
     price := price cur; generation := v |}.

(** Body of [for (const g of gen.rows)]. *)
Definition add_gen (m : period_map) (g : gen_row) : period_map :=
  let p := g_period g in
  let cur := match map_get p m with Some c => c | None => blank p end in
  map_set p (set_generation cur (nullish (g_generation g))) m.

Definition byPeriod (retail : list retail_row) (gen : list gen_row)
  : period_map :=
  fold_left add_gen gen (fold_left add_retail retail []).

(** [Array.from(byPeriod.keys()).sort()] *)
Definition periods (retail : list retail_row) (gen : list gen_row)
  : list string :=
  PeriodSort.sort (map_keys (byPeriod retail gen)).

(** [periods.map(p => byPeriod.get(p))]; [None] is [undefined]. *)
Definition merged (retail : list retail_row) (gen : list gen_row)
  : list (option merged_row) :=
  map (fun p => map_get p (byPeriod retail gen)) (periods retail gen).

End Dashboard.

(* ===================================================================== *)
(** * wildfire_report.py                                                  *)
(* ===================================================================== *)

Module Wildfire.
Import Py Pandas.

Definition FIRMS_AREA_API : string :=
  "https://firms.modaps.eosdis.nasa.gov/api/area/csv".

(** [a if a else b] on an optional string: [None] and [""] are false. *)
Definition nonempty (o : option string) : option string :=
  match o with
  | Some s => if String.eqb s "" then None else Some s
  | None => None
  end.

Definition build_url (mapkey source area : string) (days : Z)
    (date : option string) : string :=
  let base :=
    (FIRMS_AREA_API ++ "/" ++ mapkey ++ "/" ++ source ++ "/" ++ area ++ "/"
       ++ str days)%string in
  match nonempty date with
  | Some d => (base ++ "/" ++ d)%string
  | None => base
  end.

(** What [requests.get] meets: it raises, or a response comes back. *)
Inductive get_outcome : Type :=
| GetRaises (e : exn)
| Response (status : Z) (text : string).

(** The service, by URL. *)
Definition server := string -> get_outcome.

(** The URLs requested so far, oldest first. *)
Definition world := list string.

Section FetchFires.

(** [pd.read_csv(io.StringIO(text))]: the frame, or [None] when it raises.
    pandas is outside the repository and is taken as given. *)
Variable read_csv : string -> option frame.

Definition fetch_fires (srv : server) (mapkey source : string)
    (bbox : option string) (days : Z) (date : option string)
    (w : world) : result frame * world :=
  if (days <? 1) || (days >? 10) then (Raise ValueError, w)
  else
    let area := match nonempty bbox with Some b => b | None => "world" end in
    let url := build_url mapkey source area days date in
    let w' := w ++ [url] in
    match srv url with
    | GetRaises e => (Raise e, w')
    | Response status text =>
        if (400 <=? status) && (status <? 600) then (Raise (HTTPError status), w')
        else if starts_with_char "<" (lstrip text)
                || starts_with_char "{" (strip text)
        then (Raise NonCSVResponse, w')
        else
          match read_csv text with
          | None => (Raise CSVParseError, w')
          | Some df =>
              if empty df then (Raise NoDetections, w') else (Ok df, w')
          end
    end.

End FetchFires.

End Wildfire.

(* ===================================================================== *)
(** * Vocabulary of the specification                                     *)
(* ===================================================================== *)

Module Props.
Import Py Pandas.

(** The three ways an HTTP attempt of crash.py can end. *)

(** A transport failure with exception [e]: the connection failed or timed
    out, the status is one [raise_for_status] rejects, or the body is not
    JSON. *)
Definition transport_failure (o : Crash.http_outcome) (e : exn) : Prop :=
  match o with
  | Crash.GetRaises e' => e = e'
  | Crash.Response status body =>
      (Crash.bad_status status = true /\ e = HTTPError status) \/
      (Crash.bad_status status = false /\ body = None /\ e = JSONDecodeError)
  end.

(** A well-formed JSON response that carries a service-reported error. *)
Definition service_error (o : Crash.http_outcome) (payload : json) : Prop :=
  exists status data,
    o = Crash.Response status (Some data) /\
    Crash.bad_status status = false /\
    Crash.error_payload data = Some payload.

(** A well-formed JSON response free of an error payload. *)
Definition success (o : Crash.http_outcome) (data : json) : Prop :=
  exists status,
    o = Crash.Response status (Some data) /\
    Crash.bad_status status = false /\
    Crash.error_payload data = None.

(** Seconds slept after failed attempt number [attempt]. *)
Definition backoff (attempt : Z) : Z := Z.min (2 ^ attempt) 20.

(** The world after [n] more attempts at [p], the failed ones among them
    being [failed] (attempt numbers). *)
Definition after_attempts (p : Crash.params) (n : nat) (failed : list Z)
    (w : Crash.world) : Crash.world :=
  {| Crash.calls := Crash.calls w;
     Crash.wire := Crash.wire w ++ repeat p n;
     Crash.slept := Crash.slept w ++ map backoff failed |}.

(** The HTTP attempts of a run of requests: [snd pn] attempts at
    [fst pn], for each [pn] in order. *)
Definition attempts_of (pns : list (Crash.params * nat)) : list Crash.params :=
  List.concat (map (fun pn => repeat (fst pn) (snd pn)) pns).

(** Every call of [_request_json] on [p] is answered with a document
    whose [features] can be appended, whatever happened before. *)
Definition answers (srv : Crash.server) (p : Crash.params) : Prop :=
  forall w, exists data w' page_features items,
    Crash._request_json srv p Crash.DEFAULT_RETRIES w = (Ok data, w') /\
    Crash.get_field "features" (JArr []) data = Ok page_features /\
    Crash.iter_items page_features = Ok items.

(** The merge by period.  What a stored row holds for key [k], given the
    retail rows [rs] and the generation rows [gs] processed so far: the
    fields of a series come from one of its rows with that key, and are
    null when it has none. *)
Definition row_ok (rs : list Dashboard.retail_row) (gs : list Dashboard.gen_row)
    (k : string) (v : Dashboard.merged_row) : Prop :=
  Dashboard.period v = k /\
  ((exists r, In r rs /\ Dashboard.r_period r = k /\
              Dashboard.sales v = Dashboard.nullish (Dashboard.r_sales r) /\
              Dashboard.revenue v = Dashboard.nullish (Dashboard.r_revenue r) /\
              Dashboard.price v = Dashboard.nullish (Dashboard.r_price r))
   \/ ((forall r, In r rs -> Dashboard.r_period r <> k) /\
       Dashboard.sales v = JNull /\ Dashboard.revenue v = JNull /\
       Dashboard.price v = JNull)) /\
  ((exists g, In g gs /\ Dashboard.g_period g = k /\
              Dashboard.generation v = Dashboard.nullish (Dashboard.g_generation g))
   \/ ((forall g, In g gs -> Dashboard.g_period g <> k) /\
       Dashboard.generation v = JNull)).

(** The invariant of the two loops over [byPeriod]: every processed
    retail row has its key in the map, and every stored row is [row_ok]. *)
Definition Inv (rs : list Dashboard.retail_row) (gs : list Dashboard.gen_row)
    (m : Dashboard.period_map) : Prop :=
  (forall r, In r rs -> In (Dashboard.r_period r) (Dashboard.map_keys m)) /\
  (forall k v, Dashboard.map_get k m = Some v -> row_ok rs gs k v).

(** A feature as the ArcGIS query answers it: an object whose
    [attributes] and [geometry] are objects, null or absent. *)
Definition object_or_null (v : option json) : bool :=
  match v with
  | None | Some JNull | Some (JObj _) => true
  | Some _ => false
  end.
Definition arcgis_feature (f : json) : bool :=
  match f with
  | JObj d => object_or_null (dict_get "attributes" d)
              && object_or_null (dict_get "geometry" d)
  | _ => false
  end.

(** [ceil(a / b)] of the exact quotient, for [0 < b]. *)
Definition ceil_div (a b : Z) : Z := - ((- a) / b).

(** The counts for which the float quotient of [fetch_all_features]
    rounds to the ceiling of the exact one. *)
Definition COUNT_BOUND : Z := Crash.MAX_RECORD_COUNT * 2 ^ 43.



(** Every row of a frame has one cell per column. *)
Definition aligned (df : frame) : Prop :=
  Forall (fun r => List.length r = List.length (columns df)) (rows df).

(** The facet resolver in the words of the specification. *)

(** Identifier, display name and alias in one lowercased text. *)
Definition haystack (f : Electric.facet) : string :=
  lower (Electric.or_empty (Electric.f_id f) ++ " "
         ++ Electric.or_empty (Electric.f_name f) ++ " "
         ++ Electric.or_empty (Electric.f_alias f))%string.

(** Rule 1: the identifier equals an exact preference, case aside. *)
Definition exact_match (prefer_ids : list string) (f : Electric.facet) : Prop :=
  exists p, In p prefer_ids /\
            upper (Electric.or_empty (Electric.f_id f)) = upper p.

(** Rule 2: a needle occurs in the text, case aside. *)
Definition substring_match (needles : list string) (f : Electric.facet) : Prop :=
  exists n pre post,
    In n needles /\ haystack f = (pre ++ lower n ++ post)%string.

(** [f] is the first element of [l] with property [P]. *)
Definition first_such {A} (P : A -> Prop) (l : list A) (f : A) : Prop :=
  exists pre post, l = pre ++ f :: post /\ P f /\ forall g, In g pre -> ~ P g.

(** Follows the specification: preferences are tried in preference-list
    order, and for each preference the first matching candidate wins. *)
Fixpoint first_by_preference (test : string -> Electric.facet -> bool)
    (prefs : list string) (candidates : list Electric.facet)
  : option Electric.facet :=
  match prefs with
  | [] => None
  | pref :: rest =>
      match find (test pref) candidates with
      | Some f => Some f
      | None => first_by_preference test rest candidates
      end
  end.

(** Follows the specification, section 4.4: rule 1 over the exact
    preferences, then rule 2 over the needles, then none. *)
Definition resolve_spec (candidates : list Electric.facet)
    (exactPreferences substringPreferences : list string) : option string :=
  match first_by_preference
          (fun pref f => String.eqb (upper (Electric.or_empty (Electric.f_id f)))
                                    (upper pref))
          exactPreferences candidates with
  | Some f => Electric.f_id f
  | None =>
      match first_by_preference
              (fun needle f => contains (lower needle) (haystack f))
              substringPreferences candidates with
      | Some f => Electric.f_id f
      | None => None
      end
  end.

(** Follows the specification, section 4.4: comparison after
    normalisation of both sides. *)
Definition normalized_equal (a b : string) : Prop :=
  Electric.normalize_key a = Electric.normalize_key b.

(** A character that is neither a letter nor a digit. *)
Definition non_alnum (c : ascii) : Prop :=
  is_upper c || is_lower c || is_digit c = false.

End Props.

(** Services used as concrete inputs. *)
Module Examples.
Import Py Pandas.

Definition count_doc (n : Z) : json := JObj [("count", JInt n)].
Definition busy : json := JObj [("code", JInt 503); ("message", JStr "busy")].
Definition error_doc : json := JObj [("error", busy)].

(** Times out, then answers 503, then reports a count of 7. *)
Definition flaky : Crash.server := fun n _ =>
  match n with
  | O => Crash.GetRaises Timeout
  | S O => Crash.Response 503 None
  | _ => Crash.Response 200 (Some (count_doc 7))
  end.

(** Never reachable. *)
Definition down : Crash.server := fun _ _ => Crash.GetRaises ConnectionError.

(** Reports an error payload once, then a count of 7. *)
Definition busy_once : Crash.server := fun n _ =>
  match n with
  | O => Crash.Response 200 (Some error_doc)
  | _ => Crash.Response 200 (Some (count_doc 7))
  end.

(** Reports an error payload on every attempt. *)
Definition always_busy : Crash.server := fun _ _ =>
  Crash.Response 200 (Some error_doc).

(** Answers every query with an empty JSON object. *)
Definition no_count : Crash.server := fun _ _ => Crash.Response 200 (Some (JObj [])).

(** Reports a count of zero. *)
Definition zero_count : Crash.server := fun _ _ =>
  Crash.Response 200 (Some (count_doc 0)).

(** Reports 4001 matching records and serves every page. *)
Definition paged : Crash.server := fun _ p =>
  match dict_get "returnCountOnly" (map (fun kv => (fst kv, JStr (snd kv))) p) with
  | Some _ => Crash.Response 200 (Some (count_doc 4001))
  | None => Crash.Response 200 (Some (JObj [("features", JArr [JObj []])]))
  end.

Definition az_2022 : string := "STATE = 4 AND YEAR = 2022".

(** pandas on a CSV text that has a header line and no data line: an
    empty frame with the header's columns. *)
Definition header_only : string := "latitude,longitude,acq_date".
Definition read_header_only (text : string) : option frame :=
  if String.eqb text header_only
  then Some {| columns := ["latitude"; "longitude"; "acq_date"]; rows := [] |}
  else None.

(** FIRMS answering every URL with that text. *)
Definition quiet_firms : Wildfire.server := fun _ => Wildfire.Response 200 header_only.

Definition only_id (i : string) : Electric.facet :=
  {| Electric.f_id := Some i; Electric.f_name := None; Electric.f_alias := None |}.
Definition named (i n : string) : Electric.facet :=
  {| Electric.f_id := Some i; Electric.f_name := Some n; Electric.f_alias := None |}.

(** The two series of the specification's merge example. *)
Definition retail_2021_01 : list Dashboard.retail_row :=
  [{| Dashboard.r_period := "2021-01"; Dashboard.r_sales := Some (JInt 100);
      Dashboard.r_revenue := None; Dashboard.r_price := None |}].
Definition gen_2021_02 : list Dashboard.gen_row :=
  [{| Dashboard.g_period := "2021-02";
      Dashboard.g_generation := Some (JInt 50) |}].

(** A [to_datetime] that checks the calendar. *)
Definition to_datetime_calendar (y m d : cell) : cell :=
  match y, m, d with
  | Val (JInt y'), Val (JInt m'), Val (JInt d') =>
      if valid_date y' m' d' then Timestamp y' m' d' else NaT
  | _, _, _ => NaT
  end.

(** Two crash records: one located, dated 30 February; one with neither
    geometry nor day. *)
Definition crash_records : list json :=
  [JObj [("attributes", JObj [("YEAR", JInt 2022); ("MONTH", JInt 2);
                              ("DAY", JInt 30); ("CITYNAME", JStr "PHOENIX")]);
         ("geometry", JObj [("x", JFloat (-1120740 # 10000));
                            ("y", JFloat (334484 # 10000))])];
   JObj [("attributes", JObj [("YEAR", JInt 2022); ("MONTH", JInt 7)]);
         ("geometry", JNull)]].

End Examples.

(* ===================================================================== *)
(** * electric.py: the HTTP helpers and the facet fallback of [main]      *)
(* ===================================================================== *)

(** Outcomes of code whose failures are not among [Py.exn]. *)
Module Run.

Inductive outcome (E A : Type) : Type :=
| Done (a : A)
| Fails (e : E).
Arguments Done {E A} a.
Arguments Fails {E A} e.

End Run.

Module Eia.
Import Py Run.

Definition EIA_BASE : string := "https://api.eia.gov/v2".

(** What the helpers raise or let through. *)
Inductive failure : Type :=
| RequestsError (e : exn)    (* [requests.get] raised *)
| HttpError (status : Z)     (* RuntimeError("HTTP <status> for ...") *)
| JsonError                  (* [r.json()] raised *)
| NoGet                      (* AttributeError: [.get] or [.keys] on a value
                                that is no dict *)
| LocationUnresolved         (* RuntimeError("Could not resolve a 'location' ...") *)
| FacetsUnresolved.          (* RuntimeError("Could not resolve sectorid/...") *)

(** One GET: the URL and the query parameters. *)
Record request : Type := { url : string; query : dict }.

(** The service: its answer to the [n]-th request of the run. *)
Definition server := nat -> request -> Crash.http_outcome.

(** The requests sent so far, oldest first. *)
Definition world := list request.

Definition M (A : Type) : Type := world -> outcome failure A * world.

Definition ret {A} (a : A) : M A := fun w => (Done a, w).
Definition lift {A} (r : outcome failure A) : M A := fun w => (r, w).
Definition bind {A B} (m : M A) (k : A -> M B) : M B :=
  fun w =>
    match m w with
    | (Done a, w') => k a w'
    | (Fails e, w') => (Fails e, w')
    end.

Notation "x <- m ;; k" := (bind m (fun x => k))
  (at level 61, m at next level, right associativity).

(** [v.get(k, dflt)]: only a dict has [get]. *)
Definition dget (k : string) (dflt : json) (v : json) : outcome failure json :=
  match v with
  | JObj d => Done (match dict_get k d with Some x => x | None => dflt end)
  | _ => Fails NoGet
  end.

(** [v or dflt] *)
Definition or_else (v dflt : json) : json := if truthy v then v else dflt.

Definition http_get_json (srv : server) (url_ : string) (params : dict) : M json :=
  fun w =>
    let rq := {| url := url_; query := params |} in
    let w' := w ++ [rq] in
    match srv (List.length w) rq with
    | Crash.GetRaises e => (Fails (RequestsError e), w')
    | Crash.Response status body =>
        if Crash.bad_status status then (Fails (HttpError status), w')
        else
          match body with
          | None => (Fails JsonError, w')
          | Some data => (Done data, w')
          end
    end.

Definition eia_metadata (srv : server) (route api_key : string) : M json :=
  http_get_json srv (EIA_BASE ++ "/" ++ route ++ "/")%string
    [("api_key", JStr api_key)].

Record EIAResult : Type := { route : string; rows : json; meta : json }.

(** [{"api_key": api_key, **params}] *)
Definition with_key (api_key : string) (params : dict) : dict :=
  fold_left (fun acc kv => dict_set (fst kv) (snd kv) acc) params
    [("api_key", JStr api_key)].

Definition eia_data (srv : server) (route_ api_key : string) (params : dict)
  : M EIAResult :=
  payload <- http_get_json srv (EIA_BASE ++ "/" ++ route_ ++ "/data/")%string
               (with_key api_key params) ;;
  resp <- lift (dget "response" (JObj []) payload) ;;
  data <- lift (dget "data" (JArr []) resp) ;;
  ret {| route := route_; rows := or_else data (JArr []); meta := resp |}.

Definition eia_facet (srv : server) (route_ facet_id api_key : string)
    (length offset : Z) : M json :=
  http_get_json srv
    (EIA_BASE ++ "/" ++ route_ ++ "/facet/" ++ facet_id ++ "/")%string
    [("api_key", JStr api_key); ("length", JInt length); ("offset", JInt offset)].

(** Body of the [for f in fields] loop of [infer_units]:
    [(meta.get("data", {}).get(f, {}) or {}).get("units", "")] *)
Definition units_of (meta_ : json) (f : string) : outcome failure json :=
  match dget "data" (JObj []) meta_ with
  | Done d1 =>
      match dget f (JObj []) d1 with
      | Done d2 => dget "units" (JStr "") (or_else d2 (JObj []))
      | Fails e => Fails e
      end
  | Fails e => Fails e
  end.

Fixpoint units_loop (meta_ : json) (fields : list string) (out : dict)
  : outcome failure dict :=
  match fields with
  | [] => Done out
  | f :: rest =>
      match units_of meta_ f with
      | Done u => units_loop meta_ rest (dict_set f u out)
      | Fails e => Fails e
      end
  end.

Definition infer_units (srv : server) (route_ api_key : string)
    (fields : list string) : M dict :=
  doc <- eia_metadata srv route_ api_key ;;
  resp <- lift (dget "response" (JObj []) doc) ;;
  lift (units_loop (or_else resp (JObj [])) fields []).

(** [pick_generation_data_column(route, api_key)], the metadata fetch
    included; the selection itself is [Electric.pick_generation_data_column]. *)
Definition pick_generation_data_column (srv : server) (route_ api_key : string)
  : M string :=
  meta_ <- eia_metadata srv route_ api_key ;;
  resp <- lift (dget "response" (JObj []) meta_) ;;
  data <- lift (dget "data" (JObj []) resp) ;;
  match or_else data (JObj []) with
  | JObj data_obj => ret (Electric.pick_generation_data_column data_obj)
  | _ => lift (Fails NoGet)
  end.

(** [not v] for an optional string: [None] and [""] are false. *)
Definition falsy (v : option string) : bool :=
  match v with
  | Some s => String.eqb s ""
  | None => true
  end.

(** [str(v)] for an optional string. *)
Definition str_of (v : option string) : string :=
  match v with Some s => s | None => "None" end.

(** [str(vals[0].get("id")) if vals else None] *)
Definition first_id (vals : list Electric.facet) : option string :=
  match vals with
  | f :: _ => Some (str_of (Electric.f_id f))
  | [] => None
  end.

(** The facet resolution of [main]: the three [choose_facet_id] calls and
    the checks that follow them, on the facet listings already fetched.
    Its result is the triple sent as [facets[location][]],
    [facets[sectorid][]] and [facets[fueltypeid][]]. *)
Definition resolve_facets (loc_vals sec_vals fuel_vals : list Electric.facet)
  : outcome failure (string * string * string) :=
  let location_id :=
    Electric.choose_facet_id loc_vals ["AZ"; "US-AZ"; "ARIZONA"]
      ["arizona"; "(az)"; " az "] in
  let sector_id :=
    Electric.choose_facet_id sec_vals ["ALL"; "TOTAL"; "TOT"] ["all"; "total"] in
  let fuel_id :=
    Electric.choose_facet_id fuel_vals ["ALL"; "TOTAL"; "TOT"] ["all"; "total"] in
  if falsy location_id then Fails LocationUnresolved
  else
    let sector_id := if falsy sector_id then first_id sec_vals else sector_id in
    let fuel_id := if falsy fuel_id then first_id fuel_vals else fuel_id in
    if falsy sector_id || falsy fuel_id then Fails FacetsUnresolved
    else Done (str_of location_id, str_of sector_id, str_of fuel_id).

End Eia.

(* ===================================================================== *)
(** * wildfire_report.py: the key loader, the intensity column, [main]    *)
(* ===================================================================== *)

Module Firms.
Import Py Pandas Run.

Inductive failure : Type :=
| MapKeyNotFound        (* RuntimeError("MAP_KEY not found. ...") *)
| NoNumericColumns      (* RuntimeError("No numeric columns found ...") *)
| ReadError (e : exn).  (* raised by [Path.read_text], passed on *)

(** What a path holds: no regular file ([Path.is_file()] is false), a
    file whose text [read_text(encoding="utf-8")] returns, or a file on
    which [read_text] raises ([UnicodeDecodeError] on bytes that are not
    UTF-8, [OSError] when it cannot be read). *)
Inductive file : Type :=
| NoFile
| Text (s : string)
| Unreadable (e : exn).

(** [s.strip()] when [s and s.strip()] holds, for an optional string. *)
Definition stripped (o : option string) : option string :=
  match o with
  | Some s => if String.eqb (strip s) "" then None else Some (strip s)
  | None => None
  end.

(** [a or b] on optional strings. *)
Definition or_str (a b : option string) : option string :=
  match Wildfire.nonempty a with
  | Some s => Some s
  | None => b
  end.

(** [getenv]: the process environment, [os.getenv].  [files]: what each
    path holds. *)
Definition load_map_key (getenv : string -> option string)
    (files : string -> file) (cli_key key_file : option string)
  : outcome failure string :=
  match stripped cli_key with
  | Some k => Done k
  | None =>
      let env := or_str (getenv "FIRMS_MAP_KEY") (getenv "MAP_KEY") in
      match stripped env with
      | Some k => Done k
      | None =>
          let path :=
            match Wildfire.nonempty key_file with
            | Some f => f
            | None => "MAP_KEY"
            end in
          match files path with
          | NoFile => Fails MapKeyNotFound
          | Unreadable e => Fails (ReadError e)
          | Text s =>
              match stripped (Some s) with
              | Some k => Done k
              | None => Fails MapKeyNotFound
              end
          end
      end
  end.

(** A frame as [choose_intensity_column] sees it: the column labels in
    order, each with whether its dtype is numeric
    ([select_dtypes(include=[np.number])]). *)
Definition schema := list (string * bool).

Definition has_column (c : string) (df : schema) : bool :=
  mem_string c (map fst df).

Definition choose_intensity_column (df : schema) : outcome failure string :=
  match find (fun col => has_column col df)
             ["frp"; "brightness"; "bright_ti4"; "bright_ti5"] with
  | Some col => Done col
  | None =>
      if has_column "confidence" df then Done "confidence"
      else
        match map fst (filter snd df) with
        | [] => Fails NoNumericColumns
        | c :: _ => Done c
        end
  end.

(** The first two steps of [main]: the key is loaded, then the fires are
    fetched with it.  [Fails]: the key loader raised and nothing was
    fetched. *)
Definition acquire (getenv : string -> option string)
    (files : string -> file) (read_csv : string -> option frame)
    (srv : Wildfire.server) (mapkey mapkey_file : option string)
    (source : string) (bbox : option string) (days : Z) (date : option string)
    (w : Wildfire.world)
  : outcome failure (result frame) * Wildfire.world :=
  match load_map_key getenv files mapkey mapkey_file with
  | Fails e => (Fails e, w)
  | Done key =>
      let (r, w') := Wildfire.fetch_fires read_csv srv key source bbox days date w in
      (Done r, w')
  end.

End Firms.

(* ===================================================================== *)
(** * Further vocabulary                                                  *)
(* ===================================================================== *)

Module More.
Import Py Pandas.

(** The world after the requests [ps], each answered at its first
    attempt. *)
Definition sent (ps : list Crash.params) (w : Crash.world) : Crash.world :=
  {| Crash.calls := Crash.calls w ++ ps;
     Crash.wire := Crash.wire w ++ ps;
     Crash.slept := Crash.slept w |}.

(** A service that answers every attempt: the count query with [total],
    the page at index [i] with the features [page_items i]. *)
Definition serves (srv : Crash.server) (where_ out_fields : string)
    (total : Z) (page_items : Z -> list json) : Prop :=
  (forall n, exists d,
      Crash.verdict (srv n (Crash.count_params where_)) = Ok (JObj d) /\
      dict_get "count" d = Some (JInt total))
  /\
  (forall n i, exists d,
      Crash.verdict
        (srv n (Crash.page_params where_ out_fields (i * Crash.MAX_RECORD_COUNT)))
      = Ok (JObj d) /\
      dict_get "features" d = Some (JArr (page_items i))).

(** The attribute [k] of a raw feature, if it has one. *)
Definition attribute (f : json) (k : string) : option json :=
  match f with
  | JObj d =>
      match dict_get "attributes" d with
      | Some (JObj a) => dict_get k a
      | _ => None
      end
  | _ => None
  end.

(** The [x] and [y] of a raw feature's geometry, if it has both. *)
Definition geometry_xy (f : json) : option (json * json) :=
  match f with
  | JObj d =>
      match dict_get "geometry" d with
      | Some (JObj g) =>
          match dict_get "x" g, dict_get "y" g with
          | Some x, Some y => Some (x, y)
          | _, _ => None
          end
      | _ => None
      end
  | _ => None
  end.

End More.

(** More services and inputs. *)
Module Cases.
Import Py Pandas.

(** Answers the count query with 4001 and page [i] with one feature
    carrying its offset. *)
Definition three_pages : Crash.server := fun _ p =>
  match dict_get "returnCountOnly" (map (fun kv => (fst kv, JStr (snd kv))) p),
        dict_get "resultOffset" (map (fun kv => (fst kv, JStr (snd kv))) p) with
  | Some _, _ => Crash.Response 200 (Some (JObj [("count", JInt 4001)]))
  | None, Some off => Crash.Response 200 (Some (JObj [("features", JArr [off])]))
  | None, None => Crash.Response 200 (Some (JObj []))
  end.

(** Reports 4001 records and times out on every page request. *)
Definition pages_down : Crash.server := fun _ p =>
  match dict_get "returnCountOnly" (map (fun kv => (fst kv, JStr (snd kv))) p) with
  | Some _ => Crash.Response 200 (Some (JObj [("count", JInt 4001)]))
  | None => Crash.GetRaises Timeout
  end.


(** Reports a null count. *)
Definition null_count : Crash.server := fun _ _ =>
  Crash.Response 200 (Some (JObj [("count", JNull)])).

End Cases.

Module Records.
Import Py Pandas.

(** A feature that is no JSON object. *)
Definition not_an_object (f : json) : bool :=
  match f with JObj _ => false | _ => true end.


(** A located crash, a crash without geometry, and a value that is no
    feature at all. *)
Definition located : json :=
  JObj [("attributes", JObj [("CITYNAME", JStr "MESA"); ("YEAR", JInt 2022)]);
        ("geometry", JObj [("x", JInt (-111)); ("y", JInt 33)])].
Definition unlocated : json :=
  JObj [("attributes", JObj [("CITYNAME", JStr "YUMA"); ("YEAR", JInt 2022)])].
Definition stray : json := JStr "feature".

End Records.

Module Series.
Import Py.

(** Two retail rows for January, the later one corrected, and a generation
    row for the same month. *)
Definition retail_twice : list Dashboard.retail_row :=
  [{| Dashboard.r_period := "2021-01"; Dashboard.r_sales := Some (JInt 90);
      Dashboard.r_revenue := Some (JInt 9); Dashboard.r_price := None |};
   {| Dashboard.r_period := "2021-02"; Dashboard.r_sales := Some (JInt 80);
      Dashboard.r_revenue := None; Dashboard.r_price := None |};
   {| Dashboard.r_period := "2021-01"; Dashboard.r_sales := Some (JInt 100);
      Dashboard.r_revenue := None; Dashboard.r_price := Some (JInt 12) |}].
Definition gen_january : list Dashboard.gen_row :=
  [{| Dashboard.g_period := "2021-01";
      Dashboard.g_generation := Some (JInt 50) |}].

End Series.

Module Metadata.
Import Py.

(** The value stored for field [f] when the metadata's data section is
    [data]: the field's units, or the empty string. *)
Definition units_in (data : dict) (f : string) : json :=
  match dict_get f data with
  | Some (JObj fd) =>
      match dict_get "units" fd with Some u => u | None => JStr "" end
  | _ => JStr ""
  end.

(** A metadata document of the retail-sales route, and the service
    answering with it. *)
Definition retail_meta : json :=
  JObj [("response",
         JObj [("id", JStr "retail-sales");
               ("data",
                JObj [("sales", JObj [("units", JStr "million kilowatt hours")]);
                      ("price", JObj [("alias", JStr "Average price")])])])].
Definition retail_service : Eia.server := fun _ _ =>
  Crash.Response 200 (Some retail_meta).

(** A service whose answer has a null response. *)
Definition null_response : Eia.server := fun _ _ =>
  Crash.Response 200 (Some (JObj [("response", JNull)])).

(** A service whose answer has no response at all. *)
Definition no_response : Eia.server := fun _ _ =>
  Crash.Response 200 (Some (JObj [("request", JNull)])).

Definition sectors : list Electric.facet :=
  [{| Electric.f_id := None; Electric.f_name := Some "Electric utility";
      Electric.f_alias := None |};
   Examples.named "98" "Electric power"].
Definition fuels : list Electric.facet :=
  [Examples.named "COW" "Coal"; Examples.named "ALL" "All fuels"].
Definition locations : list Electric.facet :=
  [Examples.named "CA" "California"; Examples.named "AZ" "Arizona"].

End Metadata.

Module Keys.
Import Py Pandas.

(** An optional string that holds no key: absent, empty or blank. *)
Definition blank (o : option string) : Prop :=
  forall s, o = Some s -> strip s = "".

(** An environment with [FIRMS_MAP_KEY] set to blanks and [MAP_KEY] to a
    key; a directory whose [MAP_KEY] file holds a key and a newline. *)
Definition masked_env (name : string) : option string :=
  if String.eqb name "FIRMS_MAP_KEY" then Some "  "
  else if String.eqb name "MAP_KEY" then Some "env-key"
  else None.
Definition empty_env (name : string) : option string := None.
Definition key_file (path : string) : Firms.file :=
  if String.eqb path "MAP_KEY"
  then Firms.Text (String "f" (String "k" (String (ascii_of_nat 10) EmptyString)))
  else Firms.NoFile.
Definition no_files (path : string) : Firms.file := Firms.NoFile.

(** A directory whose [MAP_KEY] file is not UTF-8 text. *)
Definition utf16_key_file (path : string) : Firms.file :=
  if String.eqb path "MAP_KEY" then Firms.Unreadable UnicodeDecodeError
  else Firms.NoFile.

(** Frames as [choose_intensity_column] sees them. *)
Definition viirs : Firms.schema :=
  [("latitude", true); ("longitude", true); ("bright_ti4", true);
   ("acq_date", false); ("confidence", false); ("frp", true)].
Definition positions_only : Firms.schema :=
  [("acq_date", false); ("latitude", true); ("longitude", true)].
Definition text_only : Firms.schema := [("acq_date", false); ("satellite", false)].

(** FIRMS answering with one detection, and pandas reading it. *)
Definition one_fire : string :=
  ("latitude,longitude" ++ String (ascii_of_nat 10) "33.4,-112.0")%string.
Definition read_one_fire (text : string) : option frame :=
  if String.eqb text one_fire
  then Some {| columns := ["latitude"; "longitude"];
               rows := [[Val (JFloat (334 # 10)); Val (JFloat (-1120 # 10))]] |}
  else None.
Definition burning : Wildfire.server := fun _ => Wildfire.Response 200 one_fire.

End Keys.

(* ===================================================================== *)
(** * Properties: the retrying request executor (crash.py)                *)
(* ===================================================================== *)

Import Py Pandas Props.

Section RetryLoop.
Import Crash.

Variable srv : server.
Variable p : params.
Variable retries : Z.

Lemma transport_failure_verdict o e :
  transport_failure o e -> verdict o = Raise e.
Proof.
  destruct o as [e'|status body]; simpl.
  - now intros ->.
  - intros [[Hs ->]|[Hs [-> ->]]]; now rewrite Hs.
Qed.

Lemma service_error_verdict o payload :
  service_error o payload -> verdict o = Raise (ArcGISError payload).
Proof.
  intros (status & data & -> & Hs & He). simpl. now rewrite Hs, He.
Qed.

Lemma success_verdict o data : success o data -> verdict o = Ok data.
Proof.
  intros (status & -> & Hs & He). simpl. now rewrite Hs, He.
Qed.

Lemma after_attempts_step n failed a w :
  after_attempts p n failed (sleep (Z.min (2 ^ a) 20) (log_wire p w))
  = after_attempts p (S n) (a :: failed) w.
Proof.
  unfold after_attempts, sleep, log_wire; simpl.
  now rewrite <- !app_assoc.
Qed.

(** Every remaining attempt fails: the loop runs to its end and raises,
    with [last_err] the exception of the final attempt. *)
Lemma retry_loop_exhausted :
  forall (attempts : list Z) (errs : nat -> exn) (last_err : option exn) (w : world),
    (forall i, (i < List.length attempts)%nat ->
               verdict (srv (List.length (wire w) + i)%nat p) = Raise (errs i)) ->
    retry_loop srv p retries attempts last_err w
    = (Raise (RequestFailed retries
                (match List.length attempts with
                 | O => last_err
                 | S n => Some (errs n)
                 end)),
       after_attempts p (List.length attempts) attempts w).
Proof.
  induction attempts as [|a rest IH]; intros errs last_err w H.
  - simpl. unfold after_attempts; simpl. rewrite !app_nil_r. now destruct w.
  - cbn [retry_loop]. unfold attempt_once.
    pose proof (H O ltac:(simpl; lia)) as H0. rewrite Nat.add_0_r in H0.
    rewrite H0.
    rewrite (IH (fun i => errs (S i))).
    + rewrite after_attempts_step. cbn [List.length].
      destruct rest; reflexivity.
    + intros i Hi. simpl. rewrite length_app. simpl.
      replace (List.length (wire w) + 1 + i)%nat
        with (List.length (wire w) + S i)%nat by lia.
      apply H. simpl. lia.
Qed.

(** Some attempts fail, then one is answered: the loop returns that
    answer, having slept once per failure. *)
Lemma retry_loop_recovers :
  forall (failed : list Z) (a : Z) (rest : list Z) (errs : nat -> exn)
         (last_err : option exn) (w : world) (data : json),
    (forall i, (i < List.length failed)%nat ->
               verdict (srv (List.length (wire w) + i)%nat p) = Raise (errs i)) ->
    verdict (srv (List.length (wire w) + List.length failed)%nat p) = Ok data ->
    retry_loop srv p retries (failed ++ a :: rest) last_err w
    = (Ok data, after_attempts p (S (List.length failed)) failed w).
Proof.
  induction failed as [|b failed IH]; intros a rest errs last_err w data H Hok.
  - cbn [app retry_loop]. unfold attempt_once.
    simpl in Hok. rewrite Nat.add_0_r in Hok. rewrite Hok.
    unfold after_attempts, log_wire; simpl. now rewrite app_nil_r.
  - cbn [app retry_loop]. unfold attempt_once.
    pose proof (H O ltac:(simpl; lia)) as H0. rewrite Nat.add_0_r in H0.
    rewrite H0.
    rewrite (IH a rest (fun i => errs (S i)) _ _ data).
    + now rewrite after_attempts_step.
    + intros i Hi. simpl. rewrite length_app. simpl.
      replace (List.length (wire w) + 1 + i)%nat
        with (List.length (wire w) + S i)%nat by lia.
      apply H. simpl. lia.
    + simpl. rewrite length_app. simpl.
      replace (List.length (wire w) + 1 + List.length failed)%nat
        with (List.length (wire w) + S (List.length failed))%nat by lia.
      exact Hok.
Qed.

End RetryLoop.

Lemma range_length n : List.length (range n) = Z.to_nat n.
Proof. unfold range. now rewrite length_map, length_seq. Qed.

Lemma range_split (n : nat) (m : Z) :
  (Z.of_nat n < m) ->
  exists rest, range m = range (Z.of_nat n) ++ Z.of_nat n :: rest.
Proof.
  intros H. unfold range.
  replace (Z.to_nat m) with (n + S (Z.to_nat m - S n))%nat by lia.
  rewrite Nat2Z.id, seq_app, map_app. simpl.
  eexists. reflexivity.
Qed.

Section RequestJson.
Import Crash.

Variable srv : server.
Variable p : params.
Variable retries : Z.
Variable w : world.

Let at_ (i : nat) : http_outcome := srv (List.length (wire w) + i)%nat p.

Lemma request_json_recovers (n : nat) (errs : nat -> exn) (data : json) :
  Z.of_nat n < retries ->
  (forall i, (i < n)%nat -> verdict (at_ i) = Raise (errs i)) ->
  verdict (at_ n) = Ok data ->
  _request_json srv p retries w
  = (Ok data, after_attempts p (S n) (range (Z.of_nat n)) (log_call p w)).
Proof.
  intros Hn Hfail Hok. unfold _request_json.
  destruct (range_split n retries Hn) as [rest ->].
  rewrite (retry_loop_recovers srv p retries _ _ _ errs _ _ data).
  - now rewrite range_length, Nat2Z.id.
  - rewrite range_length, Nat2Z.id. exact Hfail.
  - rewrite range_length, Nat2Z.id. exact Hok.
Qed.

Lemma request_json_exhausted (errs : nat -> exn) :
  0 < retries ->
  (forall i, (i < Z.to_nat retries)%nat -> verdict (at_ i) = Raise (errs i)) ->
  _request_json srv p retries w
  = (Raise (RequestFailed retries (Some (errs (Z.to_nat retries - 1)%nat))),
     after_attempts p (Z.to_nat retries) (range retries) (log_call p w)).
Proof.
  intros Hpos Hfail. unfold _request_json.
  rewrite (retry_loop_exhausted srv p retries _ errs).
  - rewrite range_length.
    destruct (Z.to_nat retries) as [|k] eqn:E; [lia|].
    now rewrite Nat.sub_succ, Nat.sub_0_r.
  - rewrite range_length. exact Hfail.
Qed.

End RequestJson.

(** ** C6 *)

(** C6. A request that meets [n] consecutive transport failures, [n] below
    the attempt ceiling [retries], and then one good answer returns that
    answer and raises nothing; it has then made [n + 1] attempts and slept
    after each failure.  A request all of whose [retries] attempts meet a
    transport failure raises the final [RuntimeError], whose cause is the
    exception of the last attempt. *)
Theorem request_json_transport_failures :
  forall (srv : Crash.server) (p : Crash.params) (retries : Z) (w : Crash.world),
    (forall (n : nat) (errs : nat -> exn) (data : json),
        Z.of_nat n < retries ->
        (forall i, (i < n)%nat ->
           transport_failure (srv (List.length (Crash.wire w) + i)%nat p) (errs i)) ->
        success (srv (List.length (Crash.wire w) + n)%nat p) data ->
        Crash._request_json srv p retries w
        = (Ok data,
           after_attempts p (S n) (range (Z.of_nat n)) (Crash.log_call p w)))
    /\
    (forall (errs : nat -> exn),
        0 < retries ->
        (forall i, (i < Z.to_nat retries)%nat ->
           transport_failure (srv (List.length (Crash.wire w) + i)%nat p) (errs i)) ->
        Crash._request_json srv p retries w
        = (Raise (RequestFailed retries (Some (errs (Z.to_nat retries - 1)%nat))),
           after_attempts p (Z.to_nat retries) (range retries) (Crash.log_call p w))).
Proof.
  intros srv p retries w. split.
  - intros n errs data Hn Hfail Hok.
    apply request_json_recovers with (errs := errs); auto.
    + intros i Hi. apply transport_failure_verdict. now apply Hfail.
    + now apply success_verdict.
  - intros errs Hpos Hfail.
    apply request_json_exhausted; auto.
    intros i Hi. apply transport_failure_verdict. now apply Hfail.
Qed.

Lemma request_json_transport_failures_witness :
  Crash._request_json Examples.flaky [] 5 Crash.fresh
  = (Ok (Examples.count_doc 7),
     {| Crash.calls := [[]]; Crash.wire := [[]; []; []]; Crash.slept := [1; 2] |})
  /\
  Crash._request_json Examples.down [] 5 Crash.fresh
  = (Raise (RequestFailed 5 (Some ConnectionError)),
     {| Crash.calls := [[]]; Crash.wire := [[]; []; []; []; []];
        Crash.slept := [1; 2; 4; 8; 16] |}).
Proof.
  destruct (request_json_transport_failures Examples.flaky [] 5 Crash.fresh)
    as [Hrec _].
  destruct (request_json_transport_failures Examples.down [] 5 Crash.fresh)
    as [_ Hexh].
  split.
  - apply (Hrec 2%nat (fun i => match i with O => Timeout | _ => HTTPError 503 end)).
    + lia.
    + intros [|[|i]] Hi; simpl; auto; lia.
    + exists 200. simpl. auto.
  - apply (Hexh (fun _ => ConnectionError)).
    + lia.
    + intros i _. reflexivity.
Defined.

(** ** C1 *)

(** C1, as the code has it.  A well-formed response that carries an error
    payload is handled like any failed attempt: the executor sleeps and
    tries again.  If a later attempt within the ceiling is answered, that
    answer is returned; if all [retries] attempts carry an error payload,
    the final [RuntimeError] is raised after [retries] attempts, its cause
    the ArcGIS error of the last one. *)
Theorem request_json_service_errors_retried :
  forall (srv : Crash.server) (p : Crash.params) (retries : Z) (w : Crash.world),
    (forall (n : nat) (payloads : nat -> json) (data : json),
        Z.of_nat n < retries ->
        (forall i, (i < n)%nat ->
           service_error (srv (List.length (Crash.wire w) + i)%nat p) (payloads i)) ->
        success (srv (List.length (Crash.wire w) + n)%nat p) data ->
        Crash._request_json srv p retries w
        = (Ok data,
           after_attempts p (S n) (range (Z.of_nat n)) (Crash.log_call p w)))
    /\
    (forall (payloads : nat -> json),
        0 < retries ->
        (forall i, (i < Z.to_nat retries)%nat ->
           service_error (srv (List.length (Crash.wire w) + i)%nat p) (payloads i)) ->
        Crash._request_json srv p retries w
        = (Raise (RequestFailed retries
                    (Some (ArcGISError (payloads (Z.to_nat retries - 1)%nat)))),
           after_attempts p (Z.to_nat retries) (range retries) (Crash.log_call p w))).
Proof.
  intros srv p retries w. split.
  - intros n payloads data Hn Hfail Hok.
    apply request_json_recovers with (errs := fun i => ArcGISError (payloads i)); auto.
    + intros i Hi. apply service_error_verdict. now apply Hfail.
    + now apply success_verdict.
  - intros payloads Hpos Hfail.
    apply (request_json_exhausted srv p retries w (fun i => ArcGISError (payloads i))); auto.
    intros i Hi. apply service_error_verdict. now apply Hfail.
Qed.

Lemma request_json_service_errors_retried_witness :
  Crash._request_json Examples.busy_once [] 5 Crash.fresh
  = (Ok (Examples.count_doc 7),
     {| Crash.calls := [[]]; Crash.wire := [[]; []]; Crash.slept := [1] |})
  /\
  Crash._request_json Examples.always_busy [] 5 Crash.fresh
  = (Raise (RequestFailed 5 (Some (ArcGISError Examples.busy))),
     {| Crash.calls := [[]]; Crash.wire := [[]; []; []; []; []];
        Crash.slept := [1; 2; 4; 8; 16] |}).
Proof.
  destruct (request_json_service_errors_retried Examples.busy_once [] 5 Crash.fresh)
    as [Hrec _].
  destruct (request_json_service_errors_retried Examples.always_busy [] 5 Crash.fresh)
    as [_ Hexh].
  split.
  - apply (Hrec 1%nat (fun _ => Examples.busy)).
    + lia.
    + intros [|i] Hi; [|lia]. exists 200, Examples.error_doc. simpl. auto.
    + exists 200. simpl. auto.
  - apply (Hexh (fun _ => Examples.busy)).
    + lia.
    + intros i _. exists 200, Examples.error_doc. simpl. auto.
Defined.

(** C1 fails as stated: the first answer is well formed and carries an
    error payload, yet the executor does not raise that error; it sleeps one
    second, sends the request again and returns the second answer. *)
Lemma service_error_not_immediate :
  service_error (Examples.busy_once O []) Examples.busy /\
  fst (Crash._request_json Examples.busy_once [] 5 Crash.fresh)
    <> Raise (ArcGISError Examples.busy) /\
  fst (Crash._request_json Examples.busy_once [] 5 Crash.fresh)
    = Ok (Examples.count_doc 7) /\
  Crash.wire (snd (Crash._request_json Examples.busy_once [] 5 Crash.fresh))
    = [[]; []] /\
  Crash.slept (snd (Crash._request_json Examples.busy_once [] 5 Crash.fresh))
    = [1].
Proof.
  split; [exists 200, Examples.error_doc; simpl; auto|].
  split; [discriminate|]. repeat split.
Qed.

(* ===================================================================== *)
(** * Properties: count and enumeration (crash.py)                        *)
(* ===================================================================== *)

Section Enumeration.
Import Crash.

Variable srv : server.

Lemma retry_loop_calls p retries attempts last_err w :
  calls (snd (retry_loop srv p retries attempts last_err w)) = calls w.
Proof.
  revert last_err w.
  induction attempts as [|a rest IH]; intros last_err w; [reflexivity|].
  cbn [retry_loop]. unfold attempt_once.
  destruct (verdict _); [reflexivity| |reflexivity].
  now rewrite IH.
Qed.

Lemma request_json_calls p retries w :
  calls (snd (_request_json srv p retries w)) = calls w ++ [p].
Proof. unfold _request_json. now rewrite retry_loop_calls. Qed.

Lemma get_count_calls where_ w :
  calls (snd (get_count srv where_ w)) = calls w ++ [count_params where_].
Proof.
  unfold get_count, bind, lift.
  pose proof (request_json_calls (count_params where_) DEFAULT_RETRIES w) as H.
  destruct (_request_json _ _ _ w) as [[data| |] w1]; simpl in *; auto.
  destruct (get_field _ _ data); simpl; auto.
Qed.

Variables where_ out_fields : string.

Let page (i : Z) : params := page_params where_ out_fields (i * MAX_RECORD_COUNT).

(** The loop stops at the page it is at, one request issued. *)
Ltac stops_after_one Hc :=
  exists 1%nat; cbn; repeat split; [lia | exact Hc | discriminate].

(** The page requests issued by the loop are those of a prefix of the
    page indices, in order; of all of them when the loop returns. *)
Lemma page_loop_calls :
  forall (idxs : list Z) (features : list json) (w : world),
  exists k : nat,
    (k <= List.length idxs)%nat /\
    calls (snd (page_loop srv where_ out_fields idxs features w))
    = calls w ++ map page (firstn k idxs) /\
    (is_ok (fst (page_loop srv where_ out_fields idxs features w)) = true ->
     k = List.length idxs).
Proof.
  induction idxs as [|i rest IH]; intros features w.
  - exists O. simpl. rewrite app_nil_r. auto.
  - cbn [page_loop]. unfold bind, lift.
    pose proof (request_json_calls (page i) DEFAULT_RETRIES w) as Hc.
    fold (page i).
    destruct (_request_json srv (page i) DEFAULT_RETRIES w) as [[data| |] w1];
      simpl in Hc; try stops_after_one Hc.
    destruct (get_field "features" (JArr []) data) as [pf| |];
      try stops_after_one Hc.
    destruct (iter_items pf) as [items| |]; try stops_after_one Hc.
    destruct (IH (features ++ items) w1) as (k & Hk & Hcalls & Hfull).
    exists (S k). cbn [List.length firstn map]. repeat split.
    + lia.
    + rewrite Hcalls, Hc, <- app_assoc. reflexivity.
    + intros H. f_equal. now apply Hfull.
Qed.

(** When every page is answered the loop returns. *)
Lemma page_loop_returns :
  forall (idxs : list Z),
    (forall i, In i idxs -> answers srv (page i)) ->
    forall (features : list json) (w : world),
      is_ok (fst (page_loop srv where_ out_fields idxs features w)) = true.
Proof.
  induction idxs as [|i rest IH]; intros Hans features w; [reflexivity|].
  cbn [page_loop]. unfold bind, lift. fold (page i).
  destruct (Hans i (or_introl eq_refl) w) as (data & w' & pf & items & H1 & H2 & H3).
  rewrite H1, H2, H3.
  apply IH. intros j Hj. apply Hans. now right.
Qed.

End Enumeration.

Lemma firstn_seq_le (k : nat) :
  forall (start n : nat), (k <= n)%nat -> firstn k (seq start n) = seq start k.
Proof.
  induction k as [|k IH]; intros start n H; [reflexivity|].
  destruct n as [|n]; [lia|].
  simpl. f_equal. apply IH. lia.
Qed.

Lemma firstn_range (k : nat) (n : Z) :
  (k <= Z.to_nat n)%nat -> firstn k (range n) = range (Z.of_nat k).
Proof.
  intros H. unfold range.
  now rewrite firstn_map, firstn_seq_le, Nat2Z.id.
Qed.

(** ** The page count

    [math.ceil(total / MAX_RECORD_COUNT)] goes through a float.  Up to
    [COUNT_BOUND] the rounded quotient has the ceiling of the exact
    one. *)

Lemma round_half_even_error (n d : Z) :
  0 < d ->
  2 * round_half_even n d * d - d <= 2 * n <= 2 * round_half_even n d * d + d.
Proof.
  intros Hd. unfold round_half_even. cbv zeta.
  pose proof (Z.div_mod n d ltac:(lia)) as Hdm.
  pose proof (Z.mod_pos_bound n d Hd) as Hm.
  destruct (2 * (n mod d) <? d) eqn:E1; [apply Z.ltb_lt in E1; nia|].
  apply Z.ltb_ge in E1.
  destruct (d <? 2 * (n mod d)) eqn:E2; [apply Z.ltb_lt in E2; nia|].
  apply Z.ltb_ge in E2. destruct (Z.even (n / d)); nia.
Qed.

Lemma round_half_even_nonneg (n d : Z) :
  0 <= n -> 0 < d -> 0 <= round_half_even n d.
Proof.
  intros Hn Hd. unfold round_half_even. cbv zeta.
  pose proof (Z.div_pos n d Hn Hd) as Hq.
  destruct (_ <? _); [exact Hq|].
  destruct (_ <? _); [lia|]. destruct (Z.even _); lia.
Qed.

Lemma ilog2_ratio_small (n : Z) :
  0 < n < COUNT_BOUND -> ilog2_ratio n Crash.MAX_RECORD_COUNT <= 42.
Proof.
  intros [Hn Hb]. unfold ilog2_ratio, Crash.MAX_RECORD_COUNT.
  change (Z.log2 2000) with 10. cbv zeta.
  assert (Hlog : Z.log2 n < 54).
  { apply Z.log2_lt_pow2; [exact Hn|].
    unfold COUNT_BOUND, Crash.MAX_RECORD_COUNT in Hb.
    change (2000 * 2 ^ 43) with 17592186044416000 in Hb.
    change (2 ^ 54) with 18014398509481984. lia. }
  destruct (Z.leb_spec 0 (Z.log2 n - 10)).
  - destruct (2000 * 2 ^ (Z.log2 n - 10) <=? n) eqn:T; [|lia].
    apply Z.leb_le in T.
    destruct (Z.eq_dec (Z.log2 n) 53) as [E|E]; [|lia].
    rewrite E in T. exfalso. revert T Hb. unfold COUNT_BOUND, Crash.MAX_RECORD_COUNT.
    change (53 - 10) with 43. lia.
  - destruct (_ <=? _); lia.
Qed.

Lemma math_ceil_scaled (r s c : Z) :
  0 < s -> (c - 1) * 2 ^ s < r <= c * 2 ^ s ->
  math_ceil {| mant := r; expo := - s |} = c.
Proof.
  intros Hs Hr. unfold math_ceil. cbn [mant expo].
  destruct (Z.leb_spec 0 (- s)); [lia|].
  rewrite Z.opp_involutive.
  assert (HP : 0 < 2 ^ s) by (apply Z.pow_pos_nonneg; lia).
  pose proof (Z.div_mod (- r) (2 ^ s) ltac:(lia)) as Hdm.
  pose proof (Z.mod_pos_bound (- r) (2 ^ s) HP) as Hm.
  nia.
Qed.

Lemma true_div_pages (total : Z) :
  0 < total <= COUNT_BOUND ->
  exists x, true_div total Crash.MAX_RECORD_COUNT = Ok x /\
            math_ceil x = ceil_div total Crash.MAX_RECORD_COUNT.
Proof.
  intros [Hpos Hb].
  destruct (Z.eq_dec total COUNT_BOUND) as [->|Hne].
  { eexists. split; vm_compute; reflexivity. }
  assert (HL : ilog2_ratio total Crash.MAX_RECORD_COUNT <= 42)
    by (apply ilog2_ratio_small; lia).
  unfold true_div. change (Crash.MAX_RECORD_COUNT =? 0) with false. cbv iota.
  destruct (Z.eqb_spec total 0) as [|_]; [lia|].
  rewrite (Z.abs_eq total) by lia.
  change (Z.abs Crash.MAX_RECORD_COUNT) with Crash.MAX_RECORD_COUNT.
  cbv zeta.
  set (e := Z.max (ilog2_ratio total Crash.MAX_RECORD_COUNT - 52) (- 1074)).
  assert (He : - 1074 <= e <= - 10) by (unfold e; lia).
  destruct (Z.leb_spec 0 e) as [|_]; [lia|].
  cbn [andb].
  set (s := - e). assert (Hs : 10 <= s) by (unfold s; lia).
  set (r := round_half_even (total * 2 ^ s) Crash.MAX_RECORD_COUNT).
  eexists. split; [reflexivity|].
  rewrite (Z.sgn_pos total) by lia. change (Z.sgn Crash.MAX_RECORD_COUNT) with 1.
  replace (1 * 1 * r) with r by lia.
  replace e with (- s) by (unfold s; lia).
  apply math_ceil_scaled; [lia|].
  pose proof (round_half_even_error (total * 2 ^ s) Crash.MAX_RECORD_COUNT eq_refl) as Hr.
  fold r in Hr.
  assert (HP : 1024 <= 2 ^ s).
  { change 1024 with (2 ^ 10). apply Z.pow_le_mono_r; lia. }
  unfold ceil_div.
  pose proof (Z.div_mod (- total) Crash.MAX_RECORD_COUNT ltac:(discriminate)) as Hdm.
  pose proof (Z.mod_pos_bound (- total) Crash.MAX_RECORD_COUNT eq_refl) as Hm.
  unfold Crash.MAX_RECORD_COUNT in *.
  nia.
Qed.

Lemma true_div_negative (total : Z) :
  total < 0 ->
  match true_div total Crash.MAX_RECORD_COUNT with
  | Ok x => math_ceil x <= 0
  | Raise e => e = OverflowError
  | Unmodelled => False
  end.
Proof.
  intros Hneg. unfold true_div.
  change (Crash.MAX_RECORD_COUNT =? 0) with false. cbv iota.
  destruct (Z.eqb_spec total 0) as [|_]; [lia|]. cbv zeta.
  set (e := Z.max _ _).
  set (m := if 0 <=? e then _ else _).
  assert (Hm : 0 <= m).
  { unfold m. destruct (Z.leb_spec 0 e).
    - apply round_half_even_nonneg; [lia|].
      apply Z.mul_pos_pos; [reflexivity|]. apply Z.pow_pos_nonneg; lia.
    - apply round_half_even_nonneg; [|reflexivity].
      apply Z.mul_nonneg_nonneg; [lia|]. apply Z.pow_nonneg. lia. }
  destruct ((0 <=? e) && (2 ^ 1024 <=? m * 2 ^ e)); [reflexivity|].
  unfold math_ceil. cbn [mant expo].
  rewrite (Z.sgn_neg total) by lia. change (Z.sgn Crash.MAX_RECORD_COUNT) with 1.
  destruct (Z.leb_spec 0 e).
  - assert (0 <= 2 ^ e) by (apply Z.pow_nonneg; lia). nia.
  - assert (HP : 0 < 2 ^ (- e)) by (apply Z.pow_pos_nonneg; lia).
    replace (- (-1 * 1 * m)) with m by lia.
    pose proof (Z.div_pos m (2 ^ (- e)) Hm HP). lia.
Qed.

Lemma true_div_negative_bounded (total : Z) :
  - COUNT_BOUND <= total < 0 ->
  exists x, true_div total Crash.MAX_RECORD_COUNT = Ok x /\ math_ceil x <= 0.
Proof.
  intros [Hb Hneg].
  destruct (Z.eq_dec total (- COUNT_BOUND)) as [->|Hne].
  { eexists. split; [vm_compute; reflexivity|]. vm_compute. discriminate. }
  pose proof (true_div_negative total Hneg) as H.
  assert (HL : ilog2_ratio (Z.abs total) Crash.MAX_RECORD_COUNT <= 42)
    by (apply ilog2_ratio_small; lia).
  revert H. unfold true_div.
  change (Crash.MAX_RECORD_COUNT =? 0) with false. cbv iota.
  destruct (Z.eqb_spec total 0) as [|_]; [lia|]. cbv zeta.
  change (Z.abs Crash.MAX_RECORD_COUNT) with Crash.MAX_RECORD_COUNT.
  destruct (Z.leb_spec 0 (Z.max (ilog2_ratio (Z.abs total) Crash.MAX_RECORD_COUNT - 52)
                                (- 1074))) as [|_]; [lia|].
  cbn [andb]. intros H. eexists. split; [reflexivity|exact H].
Qed.

Lemma range_nonpositive (n : Z) : n <= 0 -> range n = [].
Proof. intros H. unfold range. now replace (Z.to_nat n) with 0%nat by lia. Qed.

Lemma ceil_div_spec (a b : Z) :
  0 < b -> (ceil_div a b - 1) * b < a <= ceil_div a b * b.
Proof.
  intros Hb. unfold ceil_div.
  pose proof (Z.div_mod (- a) b ltac:(lia)) as Hdm.
  pose proof (Z.mod_pos_bound (- a) b Hb) as Hm.
  nia.
Qed.

(** Within the bound the enumeration is the page loop over the exact
    number of pages. *)
Lemma fetch_all_features_pages (srv : Crash.server) (where_ out_fields : string)
    (w w1 : Crash.world) (total : Z) :
  Crash.get_count srv where_ w = (Ok total, w1) ->
  - COUNT_BOUND <= total <= COUNT_BOUND ->
  Crash.fetch_all_features srv where_ out_fields w
  = Crash.page_loop srv where_ out_fields
      (range (ceil_div total Crash.MAX_RECORD_COUNT)) [] w1.
Proof.
  intros Hcount Hb.
  unfold Crash.fetch_all_features, Crash.bind, Crash.lift. rewrite Hcount.
  destruct (Z.eqb_spec total 0) as [->|Hne]; [reflexivity|].
  destruct (Z.lt_ge_cases total 0) as [Hneg|Hpos].
  - destruct (true_div_negative_bounded total ltac:(lia)) as (x & -> & Hx).
    pose proof (ceil_div_spec total Crash.MAX_RECORD_COUNT eq_refl) as Hs.
    rewrite (range_nonpositive (math_ceil x)) by exact Hx.
    rewrite range_nonpositive; [reflexivity|].
    unfold Crash.MAX_RECORD_COUNT in *. lia.
  - destruct (true_div_pages total ltac:(lia)) as (x & -> & ->). reflexivity.
Qed.

Lemma str_inj (a b : Z) : str a = str b -> a = b.
Proof.
  unfold str. intros H.
  apply DecimalZ.to_int_inj.
  assert (Hnn : forall z, Z.to_int z <> Decimal.Pos Decimal.Nil /\
                          Z.to_int z <> Decimal.Neg Decimal.Nil).
  { intros [|q|q]; simpl; split; try discriminate;
      intros E; injection E; apply DecimalPos.Unsigned.to_uint_nonnil. }
  pose proof (NilZero.isi (Z.to_int a) (proj1 (Hnn a)) (proj2 (Hnn a))) as Ha.
  pose proof (NilZero.isi (Z.to_int b) (proj1 (Hnn b)) (proj2 (Hnn b))) as Hb.
  rewrite H in Ha. rewrite Ha in Hb. now injection Hb.
Qed.

Lemma page_params_inj where_ out_fields (a b : Z) :
  Crash.page_params where_ out_fields a = Crash.page_params where_ out_fields b ->
  a = b.
Proof.
  unfold Crash.page_params. intros H.
  apply str_inj. congruence.
Qed.

Lemma range_NoDup (n : Z) : NoDup (range n).
Proof.
  unfold range. apply Finite.Injective_map_NoDup.
  - intros a b. apply Nat2Z.inj.
  - apply seq_NoDup.
Qed.

(** ** C9 *)

(** C9. When the count query is answered with a document whose count is 0
    (an empty match set) or that has no [count] field at all, [get_count]
    returns 0 and raises nothing. *)
Theorem get_count_zero :
  forall (srv : Crash.server) (where_ : string) (w w' : Crash.world) (d : dict),
    Crash._request_json srv (Crash.count_params where_) Crash.DEFAULT_RETRIES w
    = (Ok (JObj d), w') ->
    dict_get "count" d = Some (JInt 0) \/ dict_get "count" d = None ->
    Crash.get_count srv where_ w = (Ok 0, w').
Proof.
  intros srv where_ w w' d Hreq Hcount.
  unfold Crash.get_count, Crash.bind, Crash.lift. rewrite Hreq.
  unfold Crash.get_field.
  destruct Hcount as [-> | ->]; reflexivity.
Qed.

Lemma get_count_zero_witness :
  Crash.get_count Examples.zero_count Examples.az_2022 Crash.fresh
  = (Ok 0, after_attempts (Crash.count_params Examples.az_2022) 1 []
             (Crash.log_call (Crash.count_params Examples.az_2022) Crash.fresh))
  /\
  Crash.get_count Examples.no_count Examples.az_2022 Crash.fresh
  = (Ok 0, after_attempts (Crash.count_params Examples.az_2022) 1 []
             (Crash.log_call (Crash.count_params Examples.az_2022) Crash.fresh)).
Proof.
  split.
  - apply (get_count_zero _ _ _ _ [("count", JInt 0)]).
    + reflexivity.
    + left. reflexivity.
  - apply (get_count_zero _ _ _ _ []).
    + reflexivity.
    + right. reflexivity.
Defined.

(* ===================================================================== *)
(** * Properties: empty results and the day range                          *)
(* ===================================================================== *)

(** ** C5 *)

(** C5, as the code has it.  When the count query reports zero,
    [fetch_all_features] returns the empty list, raises nothing, and has
    issued the count query only.  The wildfire fetch is different: a CSV
    answer that parses to an empty frame raises [RuntimeError]. *)
Theorem zero_count_and_empty_frame :
  (forall (srv : Crash.server) (where_ out_fields : string) (w w1 : Crash.world),
      Crash.get_count srv where_ w = (Ok 0, w1) ->
      Crash.fetch_all_features srv where_ out_fields w = (Ok [], w1) /\
      Crash.calls w1 = Crash.calls w ++ [Crash.count_params where_])
  /\
  (forall (read_csv : string -> option frame) (srv : Wildfire.server)
          (mapkey source : string) (bbox : option string) (days : Z)
          (date : option string) (w : Wildfire.world)
          (status : Z) (text : string) (df : frame),
      let area := match Wildfire.nonempty bbox with Some b => b | None => "world" end in
      let url := Wildfire.build_url mapkey source area days date in
      1 <= days <= 10 ->
      srv url = Wildfire.Response status text ->
      (400 <=? status) && (status <? 600) = false ->
      starts_with_char "<" (lstrip text) || starts_with_char "{" (strip text) = false ->
      read_csv text = Some df ->
      empty df = true ->
      Wildfire.fetch_fires read_csv srv mapkey source bbox days date w
      = (Raise NoDetections, w ++ [url])).
Proof.
  split.
  - intros srv where_ out_fields w w1 Hcount. split.
    + unfold Crash.fetch_all_features, Crash.bind. now rewrite Hcount.
    + pose proof (get_count_calls srv where_ w) as H. now rewrite Hcount in H.
  - intros read_csv srv mapkey source bbox days date w status text df area url
           Hdays Hsrv Hstatus Hguard Hcsv Hempty.
    unfold Wildfire.fetch_fires. fold area. fold url.
    replace ((days <? 1) || (days >? 10)) with false
      by (symmetry; apply orb_false_intro; lia).
    now rewrite Hsrv, Hstatus, Hguard, Hcsv, Hempty.
Qed.

Lemma zero_count_and_empty_frame_witness :
  Crash.fetch_all_features Examples.zero_count Examples.az_2022 "*" Crash.fresh
  = (Ok [], after_attempts (Crash.count_params Examples.az_2022) 1 []
              (Crash.log_call (Crash.count_params Examples.az_2022) Crash.fresh))
  /\
  Wildfire.fetch_fires Examples.read_header_only Examples.quiet_firms
    "KEY" "VIIRS_SNPP_NRT" None 3 None []
  = (Raise NoDetections,
     [Wildfire.build_url "KEY" "VIIRS_SNPP_NRT" "world" 3 None]).
Proof.
  destruct zero_count_and_empty_frame as [Hcrash Hfire].
  split.
  - apply (Hcrash Examples.zero_count Examples.az_2022 "*" Crash.fresh).
    reflexivity.
  - apply (Hfire Examples.read_header_only Examples.quiet_firms
             "KEY" "VIIRS_SNPP_NRT" None 3 None [] 200 Examples.header_only
             {| columns := ["latitude"; "longitude"; "acq_date"]; rows := [] |});
      try reflexivity.
    lia.
Defined.

(** C5 fails as stated: FIRMS answers with a well-formed CSV text that has
    no data line, and the fetch raises instead of returning the empty
    result. *)
Lemma empty_frame_is_an_error :
  Wildfire.fetch_fires Examples.read_header_only Examples.quiet_firms
    "KEY" "VIIRS_SNPP_NRT" None 3 None []
  = (Raise NoDetections,
     ["https://firms.modaps.eosdis.nasa.gov/api/area/csv/KEY/VIIRS_SNPP_NRT/world/3"]).
Proof. reflexivity. Qed.

(** ** C10 *)

(** C10. A day range below 1 or above 10 makes [fetch_fires] raise
    [ValueError] with no request issued; a request is issued only for a day
    range in [1, 10], and then exactly one. *)
Theorem fetch_fires_day_range :
  forall (read_csv : string -> option frame) (srv : Wildfire.server)
         (mapkey source : string) (bbox : option string) (days : Z)
         (date : option string) (w : Wildfire.world),
    let run := Wildfire.fetch_fires read_csv srv mapkey source bbox days date w in
    (days < 1 \/ 10 < days -> run = (Raise ValueError, w))
    /\
    (snd run <> w -> 1 <= days <= 10)
    /\
    (1 <= days <= 10 ->
     exists url, snd run = w ++ [url] /\
       url = Wildfire.build_url mapkey source
               (match Wildfire.nonempty bbox with Some b => b | None => "world" end)
               days date).
Proof.
  intros read_csv srv mapkey source bbox days date w run.
  assert (Hout : days < 1 \/ 10 < days -> run = (Raise ValueError, w)).
  { intros H. unfold run, Wildfire.fetch_fires.
    replace ((days <? 1) || (days >? 10)) with true; [reflexivity|].
    symmetry. apply orb_true_iff. lia. }
  split; [exact Hout|]. split.
  - intros Hsnd.
    destruct (Z_lt_dec days 1) as [Hlt|Hge];
      [exfalso; apply Hsnd; now rewrite Hout by (now left)|].
    destruct (Z_lt_dec 10 days) as [Hgt|Hle];
      [exfalso; apply Hsnd; now rewrite Hout by (now right)|].
    lia.
  - intros Hin. eexists. split; [|reflexivity].
    unfold run, Wildfire.fetch_fires.
    replace ((days <? 1) || (days >? 10)) with false
      by (symmetry; apply orb_false_intro; lia).
    destruct (srv _) as [e|status text]; [reflexivity|].
    destruct ((400 <=? status) && (status <? 600)); [reflexivity|].
    destruct (_ || _); [reflexivity|].
    destruct (read_csv text) as [df|]; [|reflexivity].
    destruct (empty df); reflexivity.
Qed.

Lemma fetch_fires_day_range_witness :
  Wildfire.fetch_fires Examples.read_header_only Examples.quiet_firms
    "KEY" "VIIRS_SNPP_NRT" None 0 None []
  = (Raise ValueError, [])
  /\
  Wildfire.fetch_fires Examples.read_header_only Examples.quiet_firms
    "KEY" "VIIRS_SNPP_NRT" None 11 None []
  = (Raise ValueError, [])
  /\
  (exists url,
      snd (Wildfire.fetch_fires Examples.read_header_only Examples.quiet_firms
             "KEY" "VIIRS_SNPP_NRT" None 10 None []) = [] ++ [url] /\
      url = Wildfire.build_url "KEY" "VIIRS_SNPP_NRT" "world" 10 None)
  /\
  1 <= 3 <= 10.
Proof.
  split; [|split; [|split]].
  - apply (fetch_fires_day_range Examples.read_header_only Examples.quiet_firms
             "KEY" "VIIRS_SNPP_NRT" None 0 None []). lia.
  - apply (fetch_fires_day_range Examples.read_header_only Examples.quiet_firms
             "KEY" "VIIRS_SNPP_NRT" None 11 None []). lia.
  - apply (fetch_fires_day_range Examples.read_header_only Examples.quiet_firms
             "KEY" "VIIRS_SNPP_NRT" None 10 None []). lia.
  - apply (fetch_fires_day_range Examples.read_header_only Examples.quiet_firms
             "KEY" "VIIRS_SNPP_NRT" None 3 None []).
    discriminate.
Defined.

(* ===================================================================== *)
(** * Properties: strings                                                 *)
(* ===================================================================== *)

Lemma ascii_cases (P : ascii -> Prop) :
  (forall b0 b1 b2 b3 b4 b5 b6 b7, P (Ascii b0 b1 b2 b3 b4 b5 b6 b7)) ->
  forall c, P c.
Proof. intros H [b0 b1 b2 b3 b4 b5 b6 b7]. apply H. Qed.

Ltac by_char c :=
  pattern c; apply ascii_cases;
  intros [] [] [] [] [] [] [] []; vm_compute; reflexivity.

Lemma lower_char_upper_char c : lower_char (upper_char c) = lower_char c.
Proof. by_char c. Qed.

Lemma lower_char_idem c : lower_char (lower_char c) = lower_char c.
Proof. by_char c. Qed.

Lemma non_alnum_not_key_bool c :
  (is_upper c || is_lower c || is_digit c)
  || negb (Electric.is_key_char (lower_char c)) = true.
Proof. by_char c. Qed.

Lemma non_alnum_not_key c :
  non_alnum c -> Electric.is_key_char (lower_char c) = false.
Proof.
  unfold non_alnum. intros H.
  pose proof (non_alnum_not_key_bool c) as Hb. rewrite H in Hb.
  simpl in Hb. now apply negb_true_iff in Hb.
Qed.

Lemma map_string_app f (a b : string) :
  map_string f (a ++ b)%string = (map_string f a ++ map_string f b)%string.
Proof. induction a as [|c a IH]; simpl; [reflexivity|now rewrite IH]. Qed.

Lemma filter_string_app q (a b : string) :
  filter_string q (a ++ b)%string
  = (filter_string q a ++ filter_string q b)%string.
Proof.
  induction a as [|c a IH]; simpl; [reflexivity|].
  destruct (q c); simpl; now rewrite IH.
Qed.

Lemma map_string_compose f g (s : string) :
  (forall c, f (g c) = f c) -> map_string f (map_string g s) = map_string f s.
Proof.
  intros H. induction s as [|c s IH]; simpl; [reflexivity|].
  now rewrite H, IH.
Qed.

Lemma filter_string_all q (s : string) :
  forall c, In c (list_ascii_of_string (filter_string q s)) -> q c = true.
Proof.
  induction s as [|a s IH]; simpl; intros c Hc; [contradiction|].
  destruct (q a) eqn:E; simpl in Hc; [destruct Hc as [<-|Hc]|]; auto.
Qed.

Lemma prefix_iff (n h : string) :
  String.prefix n h = true <-> exists post, h = (n ++ post)%string.
Proof.
  revert h. induction n as [|a n IH]; intros h.
  - simpl. destruct h; split; eauto.
  - destruct h as [|b h]; simpl.
    + split; [discriminate|intros [post H]; discriminate].
    + destruct (ascii_dec a b) as [->|Hne].
      * rewrite IH. split; intros [post H]; exists post; congruence.
      * split; [discriminate|]. intros [post H]. congruence.
Qed.

(** [contains n h] holds exactly when [n] occurs in [h]. *)
Lemma contains_iff (n h : string) :
  contains n h = true <-> exists pre post, h = (pre ++ n ++ post)%string.
Proof.
  induction h as [|b h IH].
  - cbn [contains]. rewrite orb_false_r, prefix_iff. split.
    + intros [post H]. now exists EmptyString, post.
    + intros (pre & post & H). destruct pre; [|discriminate].
      now exists post.
  - cbn [contains]. rewrite orb_true_iff, prefix_iff, IH. split.
    + intros [[post H]|(pre & post & H)].
      * now exists EmptyString, post.
      * exists (String b pre), post. simpl. now rewrite H.
    + intros (pre & post & H). destruct pre as [|c pre].
      * left. now exists post.
      * right. simpl in H. exists pre, post. congruence.
Qed.

Lemma mem_string_iff (x : string) (xs : list string) :
  mem_string x xs = true <-> In x xs.
Proof.
  unfold mem_string. rewrite existsb_exists. split.
  - intros (y & Hy & E). apply String.eqb_eq in E. now subst.
  - intros H. exists x. split; [exact H|apply String.eqb_refl].
Qed.

(** [find] returns the first element that passes the test. *)
Lemma find_first_such {A} (test : A -> bool) (P : A -> Prop) (l : list A) (f : A) :
  (forall g, test g = true <-> P g) ->
  first_such P l f -> find test l = Some f.
Proof.
  intros Htest (pre & post & -> & Hf & Hpre).
  induction pre as [|g pre IH]; simpl.
  - now rewrite (proj2 (Htest f) Hf).
  - destruct (test g) eqn:E.
    + exfalso. apply (Hpre g); [now left|now apply Htest].
    + apply IH. intros h Hh. apply Hpre. now right.
Qed.

Lemma find_none_iff {A} (test : A -> bool) (P : A -> Prop) (l : list A) :
  (forall g, test g = true <-> P g) ->
  (forall g, In g l -> ~ P g) -> find test l = None.
Proof.
  intros Htest H. induction l as [|g l IH]; simpl; [reflexivity|].
  destruct (test g) eqn:E.
  - exfalso. apply (H g); [now left|now apply Htest].
  - apply IH. intros h Hh. apply H. now right.
Qed.

(* ===================================================================== *)
(** * Properties: the facet and column resolvers (electric.py)            *)
(* ===================================================================== *)

Lemma blob_haystack f : Electric.blob f = haystack f.
Proof. reflexivity. Qed.

Lemma exact_hit_iff (prefer_ids : list string) (f : Electric.facet) :
  Electric.exact_hit (map upper prefer_ids) f = true <-> exact_match prefer_ids f.
Proof.
  unfold Electric.exact_hit, exact_match. rewrite mem_string_iff, in_map_iff.
  split; intros (q & H1 & H2); exists q; auto.
Qed.

Lemma needle_hit_iff (needles : list string) (f : Electric.facet) :
  Electric.needle_hit (map lower needles) f = true <-> substring_match needles f.
Proof.
  unfold Electric.needle_hit, substring_match.
  rewrite existsb_exists, blob_haystack. split.
  - intros (n' & Hin & Hc). apply in_map_iff in Hin as (n & <- & Hn).
    apply contains_iff in Hc as (pre & post & Hc). now exists n, pre, post.
  - intros (n & pre & post & Hn & Hc). exists (lower n). split.
    + now apply in_map.
    + apply contains_iff. now exists pre, post.
Qed.

(** ** C2 *)

(** C2, as the code has it.  The two rules are applied strictly one after
    the other, each by a scan of the candidates in candidate-list order:
    (1) if some candidate's identifier equals, case aside, an entry of the
    exact-preference list, the first such candidate wins, whatever the
    order of the preference list; (2) otherwise, if some candidate's
    "id name alias" text contains, case aside, one of the needles, the
    first such candidate wins, whatever the order of the needles;
    (3) none when no candidate satisfies either rule. *)
Theorem choose_facet_id_candidate_order :
  forall (facet_values : list Electric.facet)
         (prefer_ids prefer_name_contains : list string),
    (forall f,
        first_such (exact_match prefer_ids) facet_values f ->
        Electric.choose_facet_id facet_values prefer_ids prefer_name_contains
        = Electric.f_id f)
    /\
    (forall f,
        (forall g, In g facet_values -> ~ exact_match prefer_ids g) ->
        first_such (substring_match prefer_name_contains) facet_values f ->
        Electric.choose_facet_id facet_values prefer_ids prefer_name_contains
        = Electric.f_id f)
    /\
    ((forall g, In g facet_values ->
                ~ exact_match prefer_ids g /\
                ~ substring_match prefer_name_contains g) ->
     Electric.choose_facet_id facet_values prefer_ids prefer_name_contains = None).
Proof.
  intros facet_values prefer_ids needles.
  assert (Hshape : forall r,
             match find (Electric.exact_hit (map upper prefer_ids)) facet_values with
             | Some f => Electric.f_id f
             | None =>
                 match find (Electric.needle_hit (map lower needles)) facet_values with
                 | Some f => Electric.f_id f
                 | None => None
                 end
             end = r ->
             Electric.choose_facet_id facet_values prefer_ids needles = r).
  { intros r <-. unfold Electric.choose_facet_id.
    destruct facet_values; reflexivity. }
  split; [|split].
  - intros f Hf. apply Hshape.
    now rewrite (find_first_such _ _ _ f (exact_hit_iff prefer_ids) Hf).
  - intros f Hnone Hf. apply Hshape.
    rewrite (find_none_iff _ _ _ (exact_hit_iff prefer_ids) Hnone).
    now rewrite (find_first_such _ _ _ f (needle_hit_iff needles) Hf).
  - intros Hnone. apply Hshape.
    rewrite (find_none_iff _ _ _ (exact_hit_iff prefer_ids)
               (fun g Hg => proj1 (Hnone g Hg))).
    now rewrite (find_none_iff _ _ _ (needle_hit_iff needles)
                   (fun g Hg => proj2 (Hnone g Hg))).
Qed.

Lemma choose_facet_id_candidate_order_witness :
  Electric.choose_facet_id [Examples.only_id "CA"; Examples.only_id "AZ"]
    ["az"; "ca"] [] = Some "CA"
  /\
  Electric.choose_facet_id [Examples.named "ALL_FUELS" "All fuel types"]
    ["TOTAL"] ["all"] = Some "ALL_FUELS"
  /\
  Electric.choose_facet_id [Examples.only_id "CA"] ["AZ"] ["arizona"] = None.
Proof.
  destruct (choose_facet_id_candidate_order
              [Examples.only_id "CA"; Examples.only_id "AZ"] ["az"; "ca"] [])
    as (Hexact & _ & _).
  destruct (choose_facet_id_candidate_order
              [Examples.named "ALL_FUELS" "All fuel types"] ["TOTAL"] ["all"])
    as (_ & Hsub & _).
  destruct (choose_facet_id_candidate_order
              [Examples.only_id "CA"] ["AZ"] ["arizona"])
    as (_ & _ & Hnone).
  split; [|split].
  - apply (Hexact (Examples.only_id "CA")).
    exists [], [Examples.only_id "AZ"]. split; [reflexivity|]. split.
    + exists "ca". split; [simpl; tauto|reflexivity].
    + intros g [].
  - apply (Hsub (Examples.named "ALL_FUELS" "All fuel types")).
    + intros g [<-|[]] (q & [<-|[]] & Hq). discriminate.
    + exists [], []. split; [reflexivity|]. split.
      * exists "all", "", "_fuels all fuel types ".
        split; [simpl; tauto|reflexivity].
      * intros g [].
  - apply Hnone.
    intros g [<-|[]]. split.
    + intros (q & [<-|[]] & Hq). discriminate.
    + intros Hm. apply needle_hit_iff in Hm. discriminate.
Defined.

(** C2 fails as stated.  Two candidates both match the exact-preference
    list: the code returns the one that comes first among the candidates,
    the specification the one whose preference comes first.  Likewise for
    two needles. *)
Lemma preference_order_not_followed :
  (Electric.choose_facet_id [Examples.only_id "CA"; Examples.only_id "AZ"]
     ["AZ"; "CA"] [] = Some "CA"
   /\
   resolve_spec [Examples.only_id "CA"; Examples.only_id "AZ"]
     ["AZ"; "CA"] [] = Some "AZ")
  /\
  (Electric.choose_facet_id
     [Examples.named "SUN" "Solar"; Examples.named "ALL" "All fuels"]
     [] ["all"; "solar"] = Some "SUN"
   /\
   resolve_spec
     [Examples.named "SUN" "Solar"; Examples.named "ALL" "All fuels"]
     [] ["all"; "solar"] = Some "ALL").
Proof. repeat split. Qed.

Section ColumnPicker.
Import Electric.

Lemma first_key_some test norm_map k :
  first_key test norm_map = Some k ->
  exists nk, In (k, nk) norm_map /\ test nk = true.
Proof.
  induction norm_map as [|[k' nk'] rest IH]; simpl; [discriminate|].
  destruct (test nk') eqn:E.
  - intros [= <-]. exists nk'. auto.
  - intros H. destruct (IH H) as (nk & Hin & Ht). exists nk. auto.
Qed.

Lemma first_key_none test norm_map :
  first_key test norm_map = None ->
  forall k nk, In (k, nk) norm_map -> test nk = false.
Proof.
  induction norm_map as [|[k' nk'] rest IH]; simpl; [contradiction|].
  destruct (test nk') eqn:E; [discriminate|].
  intros H k nk [[= <- <-]|Hin]; eauto.
Qed.

Lemma first_pref_some test pref_norm norm_map k :
  first_pref test pref_norm norm_map = Some k ->
  exists pn nk, In pn pref_norm /\ In (k, nk) norm_map /\ test pn nk = true.
Proof.
  induction pref_norm as [|pn rest IH]; simpl; [discriminate|].
  destruct (first_key (test pn) norm_map) as [k'|] eqn:E.
  - intros [= <-]. apply first_key_some in E as (nk & Hin & Ht).
    exists pn, nk. auto.
  - intros H. destruct (IH H) as (pn' & nk & Hp & Hin & Ht).
    exists pn', nk. auto.
Qed.

Lemma first_pref_none test pref_norm norm_map :
  first_pref test pref_norm norm_map = None ->
  forall pn k nk, In pn pref_norm -> In (k, nk) norm_map -> test pn nk = false.
Proof.
  induction pref_norm as [|pn' rest IH]; simpl; [contradiction|].
  destruct (first_key (test pn') norm_map) as [k'|] eqn:E; [discriminate|].
  intros H pn k nk [<-|Hp] Hin.
  - eapply first_key_none; eauto.
  - eapply IH; eauto.
Qed.

(** When some key equals some preference after normalisation of both, the
    picker returns such a key. *)
Lemma pick_column_normalized (preferred keys : list string) (fallback : string) :
  (exists k q, In k keys /\ In q preferred /\ normalized_equal k q) ->
  exists k q, pick_column preferred keys fallback = k /\
              In k keys /\ In q preferred /\ normalized_equal k q.
Proof.
  intros (k & q & Hk & Hq & Heq). unfold pick_column.
  destruct (first_pref _ _ _) as [k'|] eqn:E.
  - apply first_pref_some in E as (pn & nk & Hpn & Hin & Ht).
    apply in_map_iff in Hpn as (q' & <- & Hq').
    apply in_map_iff in Hin as (k'' & [= <- <-] & Hk'').
    apply String.eqb_eq in Ht. exists k'', q'. auto.
  - exfalso.
    assert (Hf : String.eqb (normalize_key k) (normalize_key q) = false).
    { apply (first_pref_none _ _ _ E (normalize_key q) k (normalize_key k)).
      - now apply in_map.
      - apply in_map_iff. now exists k. }
    unfold normalized_equal in Heq.
    rewrite Heq, String.eqb_refl in Hf. discriminate.
Qed.

Lemma normalize_key_chars s c :
  In c (list_ascii_of_string (normalize_key s)) ->
  is_lower c || is_digit c = true.
Proof. apply filter_string_all. Qed.

Lemma normalize_key_case s :
  normalize_key (upper s) = normalize_key s /\
  normalize_key (lower s) = normalize_key s.
Proof.
  unfold normalize_key, lower, upper. split.
  - now rewrite (map_string_compose _ _ _ lower_char_upper_char).
  - now rewrite (map_string_compose _ _ _ lower_char_idem).
Qed.

Lemma normalize_key_strips (a b : string) (c : ascii) :
  non_alnum c ->
  normalize_key (a ++ String c b)%string = normalize_key (a ++ b)%string.
Proof.
  intros H. unfold normalize_key, lower.
  rewrite !map_string_app, !filter_string_app. simpl.
  now rewrite (non_alnum_not_key c H).
Qed.

End ColumnPicker.

(** ** C3 *)

(** C3, as the code has it.  [normalize_key] keeps nothing but [a-z0-9];
    on ASCII text it ignores case and drops every non-alphanumeric
    character.  The data-field picker compares a field name and a
    preference after applying it to both.  The facet picker does not use
    it and strips nothing: its exact rule compares the identifier and the
    preference upper-cased, and its substring rule looks for the
    lower-cased needle in the lower-cased text of identifier, name and
    alias. *)
Theorem normalization_only_in_column_picker :
  (forall s c, In c (list_ascii_of_string (Electric.normalize_key s)) ->
               is_lower c || is_digit c = true)
  /\
  (forall s, ascii_text s ->
             Electric.normalize_key (upper s) = Electric.normalize_key s /\
             Electric.normalize_key (lower s) = Electric.normalize_key s)
  /\
  (forall a b c, ascii_text (a ++ String c b) -> non_alnum c ->
                 Electric.normalize_key (a ++ String c b)%string
                 = Electric.normalize_key (a ++ b)%string)
  /\
  (forall (data_obj : dict),
      (exists k q, In k (map fst data_obj) /\ In q Electric.preferred /\
                   normalized_equal k q) ->
      exists k q, Electric.pick_generation_data_column data_obj = k /\
                  In k (map fst data_obj) /\ In q Electric.preferred /\
                  normalized_equal k q)
  /\
  (forall (prefer_ids : list string) (f : Electric.facet),
      Electric.exact_hit (map upper prefer_ids) f = true <->
      exists q, In q prefer_ids /\
                upper (Electric.or_empty (Electric.f_id f)) = upper q)
  /\
  (forall (needles : list string) (f : Electric.facet),
      Electric.needle_hit (map lower needles) f = true <->
      exists n pre post,
        In n needles /\
        lower (Electric.or_empty (Electric.f_id f) ++ " "
               ++ Electric.or_empty (Electric.f_name f) ++ " "
               ++ Electric.or_empty (Electric.f_alias f))%string
        = (pre ++ lower n ++ post)%string).
Proof.
  split; [exact normalize_key_chars|].
  split; [intros s _; apply normalize_key_case|].
  split; [intros a b c _; apply normalize_key_strips|].
  split; [|split; [exact exact_hit_iff|exact needle_hit_iff]].
  intros data_obj H. unfold Electric.pick_generation_data_column.
  destruct (map fst data_obj) as [|k0 keys] eqn:E.
  - destruct H as (k & q & [] & _).
  - exact (pick_column_normalized Electric.preferred (k0 :: keys) k0 H).
Qed.

Lemma normalization_only_in_column_picker_witness :
  Electric.normalize_key "Net_Generation (MWh)" = "netgenerationmwh"
  /\
  (exists k q,
      Electric.pick_generation_data_column
        [("value-units", JNull); ("Net.Generation", JNull)] = k /\
      In k ["value-units"; "Net.Generation"] /\ In q Electric.preferred /\
      normalized_equal k q).
Proof.
  destruct normalization_only_in_column_picker as (_ & _ & Hstrip & Hpick & _).
  split.
  - change "Net_Generation (MWh)" with ("Net_Generation" ++ String " " "(MWh)")%string.
    rewrite (Hstrip "Net_Generation" "(MWh)" " "%char).
    + reflexivity.
    + repeat constructor.
    + reflexivity.
  - apply (Hpick [("value-units", JNull); ("Net.Generation", JNull)]).
    exists "Net.Generation", "net-generation". simpl. repeat split; tauto.
Defined.

(** C3 fails as stated: an identifier and a preference that are equal
    after normalisation are matched by the data-field picker and are not
    matched by the facet picker. *)
Lemma facet_picker_does_not_normalize :
  normalized_equal "Net.Generation" "net-generation"
  /\
  Electric.pick_generation_data_column
    [("value-units", JNull); ("Net.Generation", JNull)] = "Net.Generation"
  /\
  Electric.choose_facet_id [Examples.only_id "Net.Generation"]
    ["net-generation"] ["net-generation"] = None
  /\
  normalized_equal "US-AZ" "usaz"
  /\
  Electric.choose_facet_id [Examples.only_id "US-AZ"] ["usaz"] ["usaz"] = None.
Proof. repeat split. Qed.

(* ===================================================================== *)
(** * Properties: the merge by period (electric.py, dashboard script)     *)
(* ===================================================================== *)

Lemma string_compare_trans_le :
  forall s1 s2 s3 : string,
    String.compare s1 s2 <> Gt -> String.compare s2 s3 <> Gt ->
    String.compare s1 s3 <> Gt.
Proof.
  induction s1 as [|a s1 IH]; intros [|b s2] [|c s3]; simpl; try congruence.
  unfold Ascii.compare.
  destruct (N.compare_spec (N_of_ascii a) (N_of_ascii b)) as [E1|L1|G1];
    destruct (N.compare_spec (N_of_ascii b) (N_of_ascii c)) as [E2|L2|G2];
    destruct (N.compare_spec (N_of_ascii a) (N_of_ascii c)) as [E3|L3|G3];
    try congruence; try lia; eauto.
Qed.

Lemma string_leb_trans (a b c : string) :
  String.leb a b = true -> String.leb b c = true -> String.leb a c = true.
Proof.
  unfold String.leb. intros H1 H2.
  pose proof (string_compare_trans_le a b c) as H.
  destruct (String.compare a b); destruct (String.compare b c);
    destruct (String.compare a c); try discriminate; try reflexivity;
    exfalso; apply H; congruence.
Qed.

Lemma periods_strongly_sorted (l : list string) :
  StronglySorted (fun a b => String.leb a b = true) (PeriodSort.sort l).
Proof.
  apply Sorted_StronglySorted.
  - intros a b c. apply string_leb_trans.
  - apply PeriodSort.Sorted_sort.
Qed.

Section Merge.
Import Dashboard.

Lemma map_get_set_eq k v m : map_get k (map_set k v m) = Some v.
Proof.
  induction m as [|[k' v'] m IH]; simpl.
  - now rewrite String.eqb_refl.
  - destruct (String.eqb k k') eqn:E; simpl; rewrite E; auto.
Qed.

Lemma map_get_set_ne k k' v m :
  k <> k' -> map_get k' (map_set k v m) = map_get k' m.
Proof.
  intros Hne. induction m as [|[k0 v0] m IH]; simpl.
  - destruct (String.eqb_spec k' k); [congruence|reflexivity].
  - destruct (String.eqb_spec k k0) as [->|Hk]; simpl.
    + destruct (String.eqb_spec k' k0); [congruence|reflexivity].
    + destruct (String.eqb_spec k' k0); auto.
Qed.

Lemma map_keys_set k v m :
  map_keys (map_set k v m)
  = if mem_string k (map_keys m) then map_keys m else map_keys m ++ [k].
Proof.
  induction m as [|[k' v'] m IH]; simpl; [reflexivity|].
  destruct (String.eqb k k') eqn:E; simpl; [reflexivity|].
  unfold map_keys in *. rewrite IH.
  unfold mem_string. now destruct (existsb _ _).
Qed.

Lemma map_keys_set_in k v m k' :
  In k' (map_keys (map_set k v m)) <-> k' = k \/ In k' (map_keys m).
Proof.
  rewrite map_keys_set.
  destruct (mem_string k (map_keys m)) eqn:E.
  - apply mem_string_iff in E. split; [auto|]. intros [->|H]; auto.
  - rewrite in_app_iff. simpl. intuition.
Qed.

Lemma map_keys_set_NoDup k v m :
  NoDup (map_keys m) -> NoDup (map_keys (map_set k v m)).
Proof.
  intros H. rewrite map_keys_set.
  destruct (mem_string k (map_keys m)) eqn:E; [exact H|].
  apply NoDup_app; [exact H|repeat constructor; intros []|].
  intros x Hx [<-|[]].
  apply mem_string_iff in Hx. congruence.
Qed.

Lemma map_get_in k m : In k (map_keys m) -> exists v, map_get k m = Some v.
Proof.
  induction m as [|[k' v'] m IH]; simpl; [contradiction|].
  destruct (String.eqb_spec k k') as [->|Hne]; [eauto|].
  intros [H|H]; [congruence|auto].
Qed.

Lemma map_get_none k m : map_get k m = None -> ~ In k (map_keys m).
Proof.
  intros H Hin. apply map_get_in in Hin as [v Hv]. congruence.
Qed.

Lemma Inv_add_retail rs rs' m r :
  Inv rs [] m ->
  (forall x, In x rs' <-> In x rs \/ x = r) ->
  Inv rs' [] (add_retail m r).
Proof.
  intros [Hcov Hrows] Hrs'. unfold add_retail. split.
  - intros x Hx. apply map_keys_set_in. apply Hrs' in Hx as [Hx| ->]; auto.
  - intros k v Hget.
    destruct (String.eqb_spec (r_period r) k) as [<-|Hne].
    + rewrite map_get_set_eq in Hget. injection Hget as <-.
      split; [reflexivity|]. split.
      * left. exists r. simpl. repeat split. apply Hrs'. auto.
      * right. split; [intros g []|reflexivity].
    + rewrite map_get_set_ne in Hget by exact Hne.
      destruct (Hrows k v Hget) as (Hp & Hr & Hg).
      split; [exact Hp|]. split; [|exact Hg].
      destruct Hr as [(r0 & Hin & Hr0)|(Hnone & Hnull)].
      * left. exists r0. split; [apply Hrs'; auto|exact Hr0].
      * right. split; [|exact Hnull].
        intros x Hx. apply Hrs' in Hx as [Hx| ->]; auto.
Qed.

Lemma Inv_add_gen rs gs gs' m g :
  Inv rs gs m ->
  (forall x, In x gs' <-> In x gs \/ x = g) ->
  Inv rs gs' (add_gen m g).
Proof.
  intros [Hcov Hrows] Hgs'. unfold add_gen. split.
  - intros x Hx. apply map_keys_set_in. auto.
  - intros k v Hget.
    destruct (String.eqb_spec (g_period g) k) as [<-|Hne].
    + rewrite map_get_set_eq in Hget. injection Hget as <-.
      assert (Hgen : exists g0, In g0 gs' /\ g_period g0 = g_period g /\
                                nullish (g_generation g) = nullish (g_generation g0)).
      { exists g. repeat split. apply Hgs'. auto. }
      destruct (map_get (g_period g) m) as [cur|] eqn:Hcur.
      * destruct (Hrows _ _ Hcur) as (Hp & Hr & _).
        split; [exact Hp|]. split; [exact Hr|]. left. exact Hgen.
      * split; [reflexivity|]. split; [|left; exact Hgen].
        right. split; [|simpl; auto].
        intros r Hr Heq. apply (map_get_none _ _ Hcur).
        rewrite <- Heq. now apply Hcov.
    + rewrite map_get_set_ne in Hget by exact Hne.
      destruct (Hrows k v Hget) as (Hp & Hr & Hg).
      split; [exact Hp|]. split; [exact Hr|].
      destruct Hg as [(g0 & Hin & Hg0)|(Hnone & Hnull)].
      * left. exists g0. split; [apply Hgs'; auto|exact Hg0].
      * right. split; [|exact Hnull].
        intros x Hx. apply Hgs' in Hx as [Hx| ->]; auto.
Qed.

Lemma Inv_retail (retail : list retail_row) :
  Inv retail [] (fold_left add_retail retail []).
Proof.
  induction retail as [|r retail IH] using rev_ind.
  - split; [intros r []|intros k v H; discriminate].
  - rewrite fold_left_app. simpl.
    apply (Inv_add_retail retail); [exact IH|].
    intros x. rewrite in_app_iff. simpl. intuition.
Qed.

Lemma Inv_byPeriod (retail : list retail_row) (gen : list gen_row) :
  Inv retail gen (byPeriod retail gen).
Proof.
  unfold byPeriod.
  induction gen as [|g gen IH] using rev_ind.
  - apply Inv_retail.
  - rewrite fold_left_app. simpl.
    apply (Inv_add_gen retail gen); [exact IH|].
    intros x. rewrite in_app_iff. simpl. intuition.
Qed.

Lemma keys_fold_retail (retail : list retail_row) :
  forall m k,
    In k (map_keys (fold_left add_retail retail m))
    <-> In k (map_keys m) \/ In k (map r_period retail).
Proof.
  induction retail as [|r retail IH]; intros m k; simpl; [tauto|].
  rewrite IH. unfold add_retail at 1. rewrite map_keys_set_in.
  intuition.
Qed.

Lemma keys_fold_gen (gen : list gen_row) :
  forall m k,
    In k (map_keys (fold_left add_gen gen m))
    <-> In k (map_keys m) \/ In k (map g_period gen).
Proof.
  induction gen as [|g gen IH]; intros m k; simpl; [tauto|].
  rewrite IH. unfold add_gen at 1. rewrite map_keys_set_in.
  intuition.
Qed.

Lemma NoDup_fold_retail (retail : list retail_row) :
  forall m, NoDup (map_keys m) -> NoDup (map_keys (fold_left add_retail retail m)).
Proof.
  induction retail as [|r retail IH]; intros m H; simpl; [exact H|].
  apply IH. now apply map_keys_set_NoDup.
Qed.

Lemma NoDup_fold_gen (gen : list gen_row) :
  forall m, NoDup (map_keys m) -> NoDup (map_keys (fold_left add_gen gen m)).
Proof.
  induction gen as [|g gen IH]; intros m H; simpl; [exact H|].
  apply IH. now apply map_keys_set_NoDup.
Qed.

Lemma keys_byPeriod retail gen k :
  In k (map_keys (byPeriod retail gen))
  <-> In k (map r_period retail) \/ In k (map g_period gen).
Proof.
  unfold byPeriod. rewrite keys_fold_gen, keys_fold_retail. simpl. tauto.
Qed.

Lemma NoDup_byPeriod retail gen : NoDup (map_keys (byPeriod retail gen)).
Proof.
  unfold byPeriod. apply NoDup_fold_gen, NoDup_fold_retail. constructor.
Qed.

Lemma Forall2_map_self {A B} (P : A -> B -> Prop) (f : A -> B) (l : list A) :
  (forall x, In x l -> P x (f x)) -> Forall2 P l (map f l).
Proof.
  induction l as [|x l IH]; intros H; simpl; constructor.
  - apply H. now left.
  - apply IH. intros y Hy. apply H. now right.
Qed.

End Merge.

(** ** C7 *)

(** C7. For two series with disjoint key sets the merge yields exactly one
    row per key of the union of the two key sets, no row undefined, in
    ascending key order.  A row whose key comes from the retail series
    holds that series' sales, revenue and price (null where the row gives
    none) and a null generation; a row whose key comes from the generation
    series holds that series' generation and null sales, revenue and
    price. *)
Theorem merge_disjoint_series :
  forall (retail : list Dashboard.retail_row) (gen : list Dashboard.gen_row),
    (forall r g, In r retail -> In g gen ->
                 Dashboard.r_period r <> Dashboard.g_period g) ->
    let ks := Dashboard.periods retail gen in
    (forall k, In k ks <->
               In k (map Dashboard.r_period retail) \/
               In k (map Dashboard.g_period gen))
    /\ NoDup ks
    /\ StronglySorted (fun a b => String.leb a b = true) ks
    /\ Forall2
         (fun k row =>
            exists v,
              row = Some v /\ Dashboard.period v = k /\
              (In k (map Dashboard.r_period retail) ->
               Dashboard.generation v = JNull /\
               exists r, In r retail /\ Dashboard.r_period r = k /\
                 Dashboard.sales v = Dashboard.nullish (Dashboard.r_sales r) /\
                 Dashboard.revenue v = Dashboard.nullish (Dashboard.r_revenue r) /\
                 Dashboard.price v = Dashboard.nullish (Dashboard.r_price r)) /\
              (In k (map Dashboard.g_period gen) ->
               Dashboard.sales v = JNull /\ Dashboard.revenue v = JNull /\
               Dashboard.price v = JNull /\
               exists g, In g gen /\ Dashboard.g_period g = k /\
                 Dashboard.generation v = Dashboard.nullish (Dashboard.g_generation g)))
         ks (Dashboard.merged retail gen).
Proof.
  intros retail gen Hdisj ks.
  assert (Hperm : Permutation (Dashboard.map_keys (Dashboard.byPeriod retail gen)) ks)
    by apply PeriodSort.Permuted_sort.
  assert (Hin : forall k, In k ks <->
                          In k (map Dashboard.r_period retail) \/
                          In k (map Dashboard.g_period gen)).
  { intros k. rewrite <- keys_byPeriod. split; apply Permutation_in;
      [now apply Permutation_sym|exact Hperm]. }
  split; [exact Hin|].
  split; [exact (Permutation_NoDup Hperm (NoDup_byPeriod retail gen))|].
  split; [apply periods_strongly_sorted|].
  unfold Dashboard.merged. fold ks. apply Forall2_map_self.
  intros k Hk.
  destruct (map_get_in k (Dashboard.byPeriod retail gen)) as [v Hv].
  { apply keys_byPeriod. now apply Hin. }
  destruct (Inv_byPeriod retail gen) as [_ Hrows].
  destruct (Hrows k v Hv) as (Hp & Hr & Hg).
  exists v. split; [exact Hv|]. split; [exact Hp|]. split.
  - intros Hkr. apply in_map_iff in Hkr as (r & Hrk & Hrin).
    destruct Hr as [Hr|[Hnone _]]; [|exfalso; now apply (Hnone r)].
    split; [|exact Hr].
    destruct Hg as [(g & Hgin & Hgk & _)|[_ Hnull]]; [|exact Hnull].
    exfalso. apply (Hdisj r g Hrin Hgin). congruence.
  - intros Hkg. apply in_map_iff in Hkg as (g & Hgk & Hgin).
    destruct Hg as [Hg|[Hnone _]]; [|exfalso; now apply (Hnone g)].
    destruct Hr as [(r & Hrin & Hrk & _)|(_ & Hs & Hrev & Hpr)].
    + exfalso. apply (Hdisj r g Hrin Hgin). congruence.
    + repeat split; auto.
Qed.

Lemma merge_disjoint_series_witness :
  Dashboard.merged Examples.retail_2021_01 Examples.gen_2021_02
  = [Some {| Dashboard.period := "2021-01"; Dashboard.sales := JInt 100;
             Dashboard.revenue := JNull; Dashboard.price := JNull;
             Dashboard.generation := JNull |};
     Some {| Dashboard.period := "2021-02"; Dashboard.sales := JNull;
             Dashboard.revenue := JNull; Dashboard.price := JNull;
             Dashboard.generation := JInt 50 |}]
  /\
  NoDup (Dashboard.periods Examples.retail_2021_01 Examples.gen_2021_02).
Proof.
  split; [reflexivity|].
  apply (merge_disjoint_series Examples.retail_2021_01 Examples.gen_2021_02).
  intros r g [<-|[]] [<-|[]]. discriminate.
Defined.

(* ===================================================================== *)
(** * Properties: record normalisation (crash.py)                         *)
(* ===================================================================== *)

Section Dicts.

Lemma dict_get_set_eq k v (d : dict) : dict_get k (dict_set k v d) = Some v.
Proof.
  induction d as [|[k' v'] d IH]; simpl.
  - now rewrite String.eqb_refl.
  - destruct (String.eqb k k') eqn:E; simpl; rewrite E; auto.
Qed.

Lemma dict_get_set_ne k k' v (d : dict) :
  k <> k' -> dict_get k' (dict_set k v d) = dict_get k' d.
Proof.
  intros Hne. induction d as [|[k0 v0] d IH]; simpl.
  - destruct (String.eqb_spec k' k); [congruence|reflexivity].
  - destruct (String.eqb_spec k k0) as [->|Hk]; simpl.
    + destruct (String.eqb_spec k' k0); [congruence|reflexivity].
    + destruct (String.eqb_spec k' k0); auto.
Qed.


End Dicts.

Section Frames.

Lemma add_key_fold (ks acc : list string) (k : string) :
  In k (fold_left add_key ks acc) <-> In k acc \/ In k ks.
Proof.
  revert acc. induction ks as [|k0 ks IH]; intros acc; simpl; [tauto|].
  rewrite IH. unfold add_key.
  destruct (mem_string k0 acc) eqn:E.
  - apply mem_string_iff in E. intuition (subst; auto).
  - rewrite in_app_iff. simpl. intuition.
Qed.

Lemma union_keys_fold (records : list dict) (acc : list string) (k : string) :
  In k (fold_left (fun acc d => fold_left add_key (map fst d) acc) records acc)
  <-> In k acc \/ exists d, In d records /\ In k (map fst d).
Proof.
  revert acc. induction records as [|d0 records IH]; intros acc; simpl.
  - split; [auto|]. intros [H|(d & [] & _)]; exact H.
  - rewrite IH, add_key_fold. split.
    + intros [[H|H]|(d & Hd & Hk)]; eauto.
    + intros [H|(d & [<-|Hd] & Hk)]; eauto.
Qed.

Lemma union_keys_in (records : list dict) (k : string) :
  In k (union_keys records) <-> exists d, In d records /\ In k (map fst d).
Proof.
  unfold union_keys. rewrite union_keys_fold. simpl. tauto.
Qed.

Lemma col_index_some c cols j :
  col_index c cols = Some j ->
  (j < List.length cols)%nat /\ nth_error cols j = Some c.
Proof.
  revert j. induction cols as [|c' cols IH]; simpl; intros j; [discriminate|].
  destruct (String.eqb_spec c c') as [->|Hne].
  - intros [= <-]. split; [lia|reflexivity].
  - destruct (col_index c cols) as [j'|]; simpl; [|discriminate].
    intros [= <-]. destruct (IH j' eq_refl). split; [lia|assumption].
Qed.

Lemma col_index_in c cols : In c cols -> exists j, col_index c cols = Some j.
Proof.
  induction cols as [|c' cols IH]; simpl; [contradiction|].
  destruct (String.eqb_spec c c') as [->|Hne]; [eauto|].
  intros [H|H]; [congruence|].
  destruct (IH H) as [j ->]. simpl. eauto.
Qed.

Lemma col_index_app c cols more j :
  col_index c cols = Some j -> col_index c (cols ++ more) = Some j.
Proof.
  revert j. induction cols as [|c' cols IH]; simpl; intros j; [discriminate|].
  destruct (String.eqb c c'); [auto|].
  destruct (col_index c cols) as [j'|]; simpl; [|discriminate].
  intros [= <-]. now rewrite (IH j' eq_refl).
Qed.


Lemma col_index_other c c' cols :
  c' <> c -> col_index c' cols = None -> col_index c' (cols ++ [c]) = None.
Proof.
  intros Hne. induction cols as [|c0 cols IH]; simpl.
  - destruct (String.eqb_spec c' c); [congruence|reflexivity].
  - destruct (String.eqb c' c0); [discriminate|].
    destruct (col_index c' cols); simpl; [discriminate|].
    intros _. now rewrite IH.
Qed.


Lemma nth_set_nth_ne (r : list cell) i j x :
  i <> j -> nth j (set_nth i x r) NaN = nth j r NaN.
Proof.
  revert i j.
  induction r as [|y r IH]; intros [|i] [|j] H; simpl; auto; congruence.
Qed.


Lemma map_combine_fst {A B C} (f : A * B -> C) (g : A -> C) (l : list A) (l' : list B) :
  List.length l = List.length l' ->
  Forall (fun a => forall b, f (a, b) = g a) l ->
  map f (combine l l') = map g l.
Proof.
  revert l'. induction l as [|a l IH]; intros [|b l'] Hlen Hf; simpl in *;
    try discriminate; [reflexivity|].
  inversion Hf; subst. f_equal; auto.
Qed.


(** The other columns are untouched by the assignment. *)
Lemma column_set_column_other df c c' values :
  c' <> c -> aligned df -> List.length (rows df) = List.length values ->
  column (set_column df c values) c' = column df c'.
Proof.
  intros Hne Hal Hlen. unfold column, set_column.
  destruct (col_index c (columns df)) as [i|] eqn:E; simpl.
  - destruct (col_index c' (columns df)) as [j|] eqn:E'; [|reflexivity].
    f_equal. rewrite map_map.
    apply map_combine_fst; [exact Hlen|].
    apply Forall_forall. intros r _ v. simpl.
    apply nth_set_nth_ne. intros ->.
    apply col_index_some in E as [_ E], E' as [_ E']. congruence.
  - destruct (col_index c' (columns df)) as [j|] eqn:E'.
    + rewrite (col_index_app _ _ _ _ E'). f_equal. rewrite map_map.
      apply map_combine_fst; [exact Hlen|].
      eapply Forall_impl; [|exact Hal]. intros r Hr v. cbv beta in Hr. simpl.
      apply app_nth1. apply col_index_some in E'. lia.
    + now rewrite (col_index_other _ _ _ Hne E').
Qed.

Lemma DataFrame_aligned (records : list dict) : aligned (DataFrame records).
Proof.
  unfold aligned, DataFrame. simpl. apply Forall_forall.
  intros r Hr. apply in_map_iff in Hr as (d & <- & _). apply length_map.
Qed.

(** A column of [pd.DataFrame(records)] holds, row by row, the record's
    value under that key, or [NaN]. *)
Lemma column_DataFrame (records : list dict) (c : string) :
  In c (union_keys records) ->
  column (DataFrame records) c = Some (map (fun d => cell_of d c) records).
Proof.
  intros Hin. unfold column, DataFrame. simpl.
  destruct (col_index_in _ _ Hin) as [j Hj]. rewrite Hj. f_equal.
  rewrite map_map. apply map_ext. intros d.
  apply col_index_some in Hj as [Hlt Hnth].
  rewrite (nth_indep _ NaN (cell_of d c)) by (rewrite length_map; exact Hlt).
  rewrite map_nth. f_equal. now apply nth_error_nth.
Qed.

End Frames.

Section Normalizer.
Import Crash.

Lemma mapM_nth {A B} (f : A -> result B) (l : list A) (ys : list B) :
  mapM f l = Ok ys ->
  forall i x, nth_error l i = Some x ->
              exists y, f x = Ok y /\ nth_error ys i = Some y.
Proof.
  revert ys. induction l as [|a l IH]; intros ys H i x Hi.
  - destruct i; discriminate.
  - simpl in H. destruct (f a) as [b| |] eqn:Ea; try discriminate.
    simpl in H. destruct (mapM f l) as [bs| |]; try discriminate.
    simpl in H. injection H as <-.
    destruct i as [|i]; simpl in *.
    + injection Hi as <-. eauto.
    + eapply IH; eauto.
Qed.

Lemma mapM_In {A B} (f : A -> result B) (l : list A) (ys : list B) (y : B) :
  mapM f l = Ok ys -> In y ys -> exists x, In x l /\ f x = Ok y.
Proof.
  revert ys. induction l as [|a l IH]; intros ys H Hy; simpl in H.
  - injection H as <-. contradiction.
  - destruct (f a) as [b| |] eqn:Ea; try discriminate. simpl in H.
    destruct (mapM f l) as [bs| |]; try discriminate.
    simpl in H. injection H as <-. destruct Hy as [<-|Hy].
    + exists a. split; [now left|exact Ea].
    + destruct (IH bs eq_refl Hy) as (x & Hx & Hfx). exists x. split; [now right|exact Hfx].
Qed.


Lemma get_or_object k (d : dict) :
  object_or_null (dict_get k d) = true ->
  exists d', get_or k d (JObj []) = JObj d'.
Proof.
  unfold get_or. destruct (dict_get k d) as [[| | | | | |d']|]; simpl;
    try discriminate; eauto.
  destruct d'; eauto.
Qed.


(** A well-formed feature yields a row. *)
Lemma feature_row_returns f :
  arcgis_feature f = true -> exists attrs, feature_row f = Ok attrs.
Proof.
  destruct f as [| | | | | |d]; try discriminate. simpl.
  intros H. apply andb_true_iff in H as [Ha Hg].
  destruct (get_or_object _ _ Ha) as [a ->].
  destruct (get_or_object _ _ Hg) as [g ->]. simpl.
  destruct (dict_get "x" g), (dict_get "y" g); eauto.
Qed.


Lemma project_geometry_keeps geom (a attrs : dict) (k : string) :
  k <> "lon" -> k <> "lat" ->
  project_geometry geom a = Ok attrs -> dict_get k attrs = dict_get k a.
Proof.
  intros Hlon Hlat. destruct geom as [| | | |s|l|g]; simpl; try discriminate.
  - destruct (_ && _); [discriminate|]. now intros [= <-].
  - destruct (_ && _); [discriminate|]. now intros [= <-].
  - destruct (dict_get "x" g), (dict_get "y" g); intros [= <-]; auto.
    rewrite !dict_get_set_ne by congruence. reflexivity.
Qed.


Lemma column_length df c col :
  column df c = Some col -> List.length col = List.length (rows df).
Proof.
  unfold column. destruct (col_index c (columns df)); [|discriminate].
  intros [= <-]. apply length_map.
Qed.

Variable to_datetime_coerce : cell -> cell -> cell -> cell.

Lemma assemble_dates_length ys ms ds n :
  List.length ys = n -> List.length ms = n -> List.length ds = n ->
  List.length (assemble_dates to_datetime_coerce ys ms ds) = n.
Proof.
  revert ms ds n. induction ys as [|y ys IH]; intros [|m ms] [|d ds] n;
    simpl; intros; subst; try discriminate; auto.
Qed.

Lemma ymd_values_length ys ms ds vs :
  ymd_values ys ms ds = Some vs -> List.length vs = List.length ys.
Proof.
  revert ms ds vs. induction ys as [|y ys IH]; intros [|m ms] [|d ds] vs;
    simpl; try discriminate.
  - now intros [= <-].
  - destruct (int64_cell y); [|discriminate].
    destruct (int64_cell m); [|discriminate].
    destruct (int64_cell d); [|discriminate].
    destruct (ymd_values ys ms ds) as [vs'|] eqn:E; [|discriminate].
    destruct (in_timestamp_years _); [|discriminate].
    intros [= <-]. simpl. f_equal. now apply (IH ms ds).
Qed.

Lemma to_datetime_length ys ms ds n :
  List.length ys = n -> List.length ms = n -> List.length ds = n ->
  List.length (to_datetime to_datetime_coerce ys ms ds) = n.
Proof.
  intros Hy Hm Hd. unfold to_datetime.
  destruct (ymd_values ys ms ds) as [vs|] eqn:E.
  - rewrite length_map, (ymd_values_length _ _ _ _ E). exact Hy.
  - now apply assemble_dates_length.
Qed.


(** The date column leaves every other column as it was. *)
Lemma add_crash_date_other (df : frame) (c : string) :
  c <> "crash_date" -> aligned df ->
  column (add_crash_date to_datetime_coerce df) c = column df c.
Proof.
  intros Hne Hal. unfold add_crash_date.
  destruct (column df "YEAR") as [ys|] eqn:Ey; [|reflexivity].
  destruct (column df "MONTH") as [ms|] eqn:Em; [|reflexivity].
  destruct (column df "DAY") as [ds|] eqn:Ed; [|reflexivity].
  apply column_set_column_other; auto.
  symmetry. apply to_datetime_length; eapply column_length; eauto.
Qed.


End Normalizer.

(** ** C8 *)






(* ===================================================================== *)
(** * Further properties: the request executor and the enumeration        *)
(* ===================================================================== *)

Section RetryOutcome.
Import Crash.

Variable srv : server.
Variable p : params.
Variable retries : Z.

Lemma verdict_modelled o : verdict o <> Unmodelled.
Proof.
  destruct o as [e|status [data|]]; simpl; try discriminate.
  - destruct (bad_status status); [discriminate|].
    destruct (error_payload data); discriminate.
  - destruct (bad_status status); discriminate.
Qed.

Lemma after_attempts_nil w : after_attempts p 0 [] w = w.
Proof. destruct w. unfold after_attempts. simpl. now rewrite !app_nil_r. Qed.

(** Every way the loop can end: an answer after some failed attempts, or
    the final error after all of them. *)
Lemma retry_loop_outcome :
  forall (attempts : list Z) (last_err : option exn) (w : world),
    match retry_loop srv p retries attempts last_err w with
    | (Ok data, w') =>
        exists failed a rest,
          attempts = failed ++ a :: rest /\
          w' = after_attempts p (S (List.length failed)) failed w /\
          verdict (srv (List.length (wire w) + List.length failed)%nat p) = Ok data
    | (Raise e, w') =>
        (exists last, e = RequestFailed retries last) /\
        w' = after_attempts p (List.length attempts) attempts w
    | (Unmodelled, _) => False
    end.
Proof.
  induction attempts as [|a attempts IH]; intros last_err w.
  - simpl. split; [eauto|]. now rewrite after_attempts_nil.
  - cbn [retry_loop]. unfold attempt_once.
    destruct (verdict (srv (List.length (wire w)) p)) as [data|e|] eqn:V.
    + exists [], a, attempts. simpl. rewrite Nat.add_0_r. repeat split; auto.
      unfold after_attempts, log_wire. simpl. now rewrite app_nil_r.
    + specialize (IH (Some e) (sleep (Z.min (2 ^ a) 20) (log_wire p w))).
      destruct (retry_loop _ _ _ _ _ _) as [[data|e'|] w'].
      * destruct IH as (failed & a' & rest & -> & -> & Hv).
        exists (a :: failed), a', rest. split; [reflexivity|]. split.
        -- now rewrite after_attempts_step.
        -- simpl in Hv. rewrite length_app in Hv. simpl in Hv. simpl.
           replace (List.length (wire w) + S (List.length failed))%nat
             with (List.length (wire w) + 1 + List.length failed)%nat by lia.
           exact Hv.
      * destruct IH as [Hlast ->]. split; [exact Hlast|].
        now rewrite after_attempts_step.
      * exact IH.
    + exact (verdict_modelled _ V).
Qed.

End RetryOutcome.

Lemma range_prefix (n : Z) (pre : list Z) (a : Z) (post : list Z) :
  range n = pre ++ a :: post ->
  pre = range (Z.of_nat (List.length pre)) /\
  (List.length pre < Z.to_nat n)%nat.
Proof.
  intros H.
  assert (Hlen : (List.length pre < Z.to_nat n)%nat).
  { rewrite <- range_length, H, length_app. simpl. lia. }
  split; [|exact Hlen].
  rewrite <- (firstn_range (List.length pre) n) by lia.
  rewrite H.
  replace (List.length pre) with (List.length pre + 0)%nat at 1 by lia.
  rewrite firstn_app_2. simpl. now rewrite app_nil_r.
Qed.

Lemma backoff_bounds (a : Z) : 0 <= a -> 1 <= backoff a <= 20.
Proof.
  intros H. unfold backoff.
  assert (1 <= 2 ^ a) by (apply Z.pow_le_mono_r with (b := 0) (c := a) (a := 2); lia).
  lia.
Qed.

Lemma range_nonneg (n : Z) : Forall (fun a => 0 <= a) (range n).
Proof.
  unfold range. apply Forall_forall. intros a Ha.
  apply in_map_iff in Ha as (k & <- & _). lia.
Qed.

(** The shape of every run of [_request_json]. *)
Lemma request_json_shape :
  forall (srv : Crash.server) (p : Crash.params) (retries : Z) (w : Crash.world),
    let run := Crash._request_json srv p retries w in
    Crash.calls (snd run) = Crash.calls w ++ [p] /\
    exists n : nat,
      (n <= Z.to_nat retries)%nat /\
      Crash.wire (snd run) = Crash.wire w ++ repeat p n /\
      match fst run with
      | Ok data =>
          (1 <= n)%nat /\
          Crash.verdict (srv (List.length (Crash.wire w) + (n - 1))%nat p) = Ok data /\
          Crash.slept (snd run)
          = Crash.slept w ++ map backoff (range (Z.of_nat (n - 1)))
      | Raise e =>
          n = Z.to_nat retries /\
          (exists last, e = RequestFailed retries last) /\
          Crash.slept (snd run) = Crash.slept w ++ map backoff (range retries)
      | Unmodelled => False
      end.
Proof.
  intros srv p retries w run. split; [apply request_json_calls|].
  unfold run, Crash._request_json.
  pose proof (retry_loop_outcome srv p retries (range retries) None
                (Crash.log_call p w)) as H.
  destruct (Crash.retry_loop _ _ _ _ _ _) as [[data|e|] w']; simpl.
  - destruct H as (failed & a & rest & Hr & -> & Hv).
    destruct (range_prefix _ _ _ _ Hr) as [Hpre Hlt].
    exists (S (List.length failed)). simpl.
    rewrite Nat.sub_0_r, <- Hpre. repeat split; auto; lia.
  - destruct H as [Hlast ->]. rewrite range_length.
    exists (Z.to_nat retries). simpl. repeat split; auto.
  - contradiction.
Qed.

(** X1. Every call of [_request_json] logs itself once and makes at most
    [retries] HTTP attempts, all with the same parameters.  If it returns,
    the last attempt is the only one that was answered and it has slept
    once for each earlier attempt; if it raises, it has made all [retries]
    attempts, slept after each of them, the last included, and the
    exception is the final [RuntimeError], never that of an attempt. *)
Theorem request_json_outcomes :
  forall (srv : Crash.server) (p : Crash.params) (retries : Z) (w : Crash.world),
    let run := Crash._request_json srv p retries w in
    Crash.calls (snd run) = Crash.calls w ++ [p] /\
    exists n : nat,
      (n <= Z.to_nat retries)%nat /\
      Crash.wire (snd run) = Crash.wire w ++ repeat p n /\
      match fst run with
      | Ok data =>
          (1 <= n)%nat /\
          Crash.verdict (srv (List.length (Crash.wire w) + (n - 1))%nat p) = Ok data /\
          Crash.slept (snd run)
          = Crash.slept w ++ map backoff (range (Z.of_nat (n - 1)))
      | Raise e =>
          n = Z.to_nat retries /\
          (exists last, e = RequestFailed retries last) /\
          Crash.slept (snd run) = Crash.slept w ++ map backoff (range retries)
      | Unmodelled => False
      end.
Proof. exact request_json_shape. Qed.

(** X2. The sleeps of one call: at most [retries] of them, each between 1
    and 20 seconds. *)
Theorem request_json_sleep_bounds :
  forall (srv : Crash.server) (p : Crash.params) (retries : Z) (w : Crash.world),
    exists sleeps : list Z,
      Crash.slept (snd (Crash._request_json srv p retries w))
      = Crash.slept w ++ sleeps /\
      (List.length sleeps <= Z.to_nat retries)%nat /\
      Forall (fun s => 1 <= s <= 20) sleeps.
Proof.
  intros srv p retries w.
  destruct (request_json_shape srv p retries w) as (_ & n & Hn & _ & H).
  cbv zeta in H.
  assert (Hb : forall m, Forall (fun s => 1 <= s <= 20) (map backoff (range m))).
  { intros m. apply Forall_map.
    eapply Forall_impl; [|apply range_nonneg]. intros a. apply backoff_bounds. }
  destruct (fst (Crash._request_json srv p retries w)) as [data|e|].
  - destruct H as (Hpos & _ & Hs). eexists. split; [exact Hs|].
    split; [|apply Hb]. rewrite length_map, range_length. lia.
  - destruct H as (_ & _ & Hs). eexists. split; [exact Hs|].
    split; [|apply Hb]. rewrite length_map, range_length. lia.
  - contradiction.
Qed.

(** X3. With an attempt ceiling of zero or less no request is sent and
    nothing is slept: the call raises at once, and its error has no
    cause. *)
Theorem request_json_no_attempts :
  forall (srv : Crash.server) (p : Crash.params) (retries : Z) (w : Crash.world),
    retries <= 0 ->
    Crash._request_json srv p retries w
    = (Raise (RequestFailed retries None), Crash.log_call p w).
Proof.
  intros srv p retries w H. unfold Crash._request_json, range.
  replace (Z.to_nat retries) with 0%nat by lia. reflexivity.
Qed.

Lemma request_json_no_attempts_witness :
  Crash._request_json Examples.paged [] 0 Crash.fresh
  = (Raise (RequestFailed 0 None),
     {| Crash.calls := [[]]; Crash.wire := []; Crash.slept := [] |}).
Proof.
  apply (request_json_no_attempts Examples.paged [] 0 Crash.fresh). lia.
Defined.

(** X4. What [get_count] makes of the answer to its query: a null count
    is a [TypeError], not zero; an answer that is no JSON object is an
    [AttributeError]; a fractional count is cut towards zero; and when the
    request itself fails, its error comes out unchanged. *)
Theorem get_count_other_answers :
  forall (srv : Crash.server) (where_ : string) (w w' : Crash.world),
    (forall d,
        Crash._request_json srv (Crash.count_params where_) Crash.DEFAULT_RETRIES w
        = (Ok (JObj d), w') ->
        (dict_get "count" d = Some JNull ->
         Crash.get_count srv where_ w = (Raise TypeError, w')) /\
        (forall q, dict_get "count" d = Some (JFloat q) ->
                   Crash.get_count srv where_ w
                   = (Ok (Z.quot (Qnum q) (Z.pos (Qden q))), w')))
    /\
    (forall items,
        Crash._request_json srv (Crash.count_params where_) Crash.DEFAULT_RETRIES w
        = (Ok (JArr items), w') ->
        Crash.get_count srv where_ w = (Raise AttributeError, w'))
    /\
    (forall e,
        Crash._request_json srv (Crash.count_params where_) Crash.DEFAULT_RETRIES w
        = (Raise e, w') ->
        Crash.get_count srv where_ w = (Raise e, w')).
Proof.
  intros srv where_ w w'.
  unfold Crash.get_count, Crash.bind, Crash.lift.
  repeat split.
  - intros Hc. rewrite H. simpl. now rewrite Hc.
  - intros q Hc. rewrite H. simpl. now rewrite Hc.
  - intros items H. now rewrite H.
  - intros e H. now rewrite H.
Qed.

Lemma get_count_other_answers_witness :
  Crash.get_count Cases.null_count Examples.az_2022 Crash.fresh
  = (Raise TypeError,
     More.sent [Crash.count_params Examples.az_2022] Crash.fresh)
  /\
  Crash.get_count Examples.down Examples.az_2022 Crash.fresh
  = (Raise (RequestFailed 5 (Some ConnectionError)),
     after_attempts (Crash.count_params Examples.az_2022) 5 [0; 1; 2; 3; 4]
       (Crash.log_call (Crash.count_params Examples.az_2022) Crash.fresh)).
Proof.
  destruct (get_count_other_answers Cases.null_count Examples.az_2022 Crash.fresh
              (More.sent [Crash.count_params Examples.az_2022] Crash.fresh))
    as (Hobj & _ & _).
  destruct (get_count_other_answers Examples.down Examples.az_2022 Crash.fresh
              (after_attempts (Crash.count_params Examples.az_2022) 5 [0; 1; 2; 3; 4]
                 (Crash.log_call (Crash.count_params Examples.az_2022) Crash.fresh)))
    as (_ & _ & Hfail).
  split.
  - apply (Hobj [("count", JNull)]); reflexivity.
  - apply (Hfail (RequestFailed 5 (Some ConnectionError))). reflexivity.
Defined.

(** X5. The count query is a count-only query and the only thing
    [get_count] asks: one logical request, carrying
    [returnCountOnly=true], and every HTTP attempt made for it carries the
    same parameters. *)
Theorem get_count_asks_count_only :
  forall (srv : Crash.server) (where_ : string) (w : Crash.world),
    let run := Crash.get_count srv where_ w in
    In ("returnCountOnly", "true") (Crash.count_params where_) /\
    Crash.calls (snd run) = Crash.calls w ++ [Crash.count_params where_] /\
    exists n : nat,
      (n <= 5)%nat /\
      Crash.wire (snd run) = Crash.wire w ++ repeat (Crash.count_params where_) n.
Proof.
  intros srv where_ w run.
  split; [simpl; tauto|]. split; [apply get_count_calls|].
  destruct (request_json_shape srv (Crash.count_params where_)
              Crash.DEFAULT_RETRIES w) as (_ & n & Hn & Hw & _).
  exists n. split; [exact Hn|].
  unfold run, Crash.get_count, Crash.bind, Crash.lift.
  destruct (Crash._request_json _ _ _ w) as [[data| |] w1]; simpl in *; auto.
  destruct (Crash.get_field _ _ data); simpl; auto.
Qed.

(** ** C4 *)

(** The requests of the page loop: those of a prefix of the page
    indices, in order, each sent between one and five times; of all the
    indices when the loop returns. *)
Lemma page_loop_requests (srv : Crash.server) (where_ out_fields : string) :
  let page i := Crash.page_params where_ out_fields (i * Crash.MAX_RECORD_COUNT) in
  forall (idxs : list Z) (features : list json) (w : Crash.world),
    let run := Crash.page_loop srv where_ out_fields idxs features w in
    exists (k : nat) (attempts : list nat),
      (k <= List.length idxs)%nat /\
      List.length attempts = k /\
      Forall (fun n => (1 <= n <= 5)%nat) attempts /\
      Crash.calls (snd run) = Crash.calls w ++ map page (firstn k idxs) /\
      Crash.wire (snd run)
      = Crash.wire w ++ attempts_of (combine (map page (firstn k idxs)) attempts) /\
      (is_ok (fst run) = true -> k = List.length idxs).
Proof.
  intros page.
  induction idxs as [|i rest IH]; intros features w run.
  - exists O, []. unfold run. simpl. rewrite !app_nil_r. repeat split; auto.
  - unfold run. cbn [Crash.page_loop]. unfold Crash.bind, Crash.lift.
    fold (page i).
    destruct (request_json_shape srv (page i) Crash.DEFAULT_RETRIES w)
      as (Hc & n & Hn & Hw & Hres).
    change (Z.to_nat Crash.DEFAULT_RETRIES) with 5%nat in Hn.
    assert (Hone :
      forall (r : result (list json)) (w1 : Crash.world),
        Crash.calls w1 = Crash.calls w ++ [page i] ->
        Crash.wire w1 = Crash.wire w ++ repeat (page i) n ->
        (1 <= n)%nat -> is_ok r = false ->
        exists (k : nat) (attempts : list nat),
          (k <= List.length (i :: rest))%nat /\
          List.length attempts = k /\
          Forall (fun n => (1 <= n <= 5)%nat) attempts /\
          Crash.calls (snd (r, w1))
          = Crash.calls w ++ map page (firstn k (i :: rest)) /\
          Crash.wire (snd (r, w1))
          = Crash.wire w
            ++ attempts_of (combine (map page (firstn k (i :: rest))) attempts) /\
          (is_ok (fst (r, w1)) = true -> k = List.length (i :: rest))).
    { intros r w1 Hc1 Hw1 H1 Hr. exists 1%nat, [n]. cbn.
      rewrite app_nil_r. repeat split; auto; try lia; try congruence. }
    destruct (Crash._request_json srv (page i) Crash.DEFAULT_RETRIES w)
      as [[data|e|] w1]; cbn [fst snd] in Hc, Hw, Hres.
    + destruct Hres as (H1 & _).
      destruct (Crash.get_field "features" (JArr []) data) as [pf|e|];
        [|now apply Hone|now apply Hone].
      destruct (Crash.iter_items pf) as [items|e|];
        [|now apply Hone|now apply Hone].
      destruct (IH (features ++ items) w1)
        as (k & attempts & Hk & Hlen & Hall & Hcalls & Hwire & Hfull).
      exists (S k), (n :: attempts). cbn [List.length firstn map combine].
      repeat split.
      * lia.
      * now rewrite Hlen.
      * constructor; [lia|exact Hall].
      * rewrite Hcalls, Hc, <- app_assoc. reflexivity.
      * rewrite Hwire, Hw, <- app_assoc. reflexivity.
      * intros H. f_equal. now apply Hfull.
    + destruct Hres as (Hfive & _).
      change (Z.to_nat Crash.DEFAULT_RETRIES) with 5%nat in Hfive.
      apply Hone; auto. lia.
    + contradiction.
Qed.

(** C4, as the code has it.  For a count [total > 0] within
    [COUNT_BOUND], the enumeration issues, after the count query, the page
    requests of the indices [0, 1, ..., k-1] and no other request: in this
    order, each once, with offsets [0, MAX_RECORD_COUNT,
    2 * MAX_RECORD_COUNT, ...], pairwise distinct, each ordered by
    [OBJECTID] and each sent over HTTP between one and five times.  [k] is
    at most [ceil(total / MAX_RECORD_COUNT)]; it is that number when the
    enumeration returns, and it does return when the service answers every
    page. *)
Theorem fetch_all_features_page_requests :
  forall (srv : Crash.server) (where_ out_fields : string)
         (w w1 : Crash.world) (total : Z),
    Crash.get_count srv where_ w = (Ok total, w1) ->
    0 < total <= COUNT_BOUND ->
    let pages := ceil_div total Crash.MAX_RECORD_COUNT in
    let page i :=
      Crash.page_params where_ out_fields (i * Crash.MAX_RECORD_COUNT) in
    let run := Crash.fetch_all_features srv where_ out_fields w in
    (pages - 1) * Crash.MAX_RECORD_COUNT < total <= pages * Crash.MAX_RECORD_COUNT
    /\
    (exists (k : nat) (attempts : list nat),
        (k <= Z.to_nat pages)%nat /\
        List.length attempts = k /\
        Forall (fun n => (1 <= n <= 5)%nat) attempts /\
        Crash.calls (snd run) = Crash.calls w1 ++ map page (range (Z.of_nat k)) /\
        Crash.wire (snd run)
        = Crash.wire w1
          ++ attempts_of (combine (map page (range (Z.of_nat k))) attempts) /\
        (is_ok (fst run) = true -> k = Z.to_nat pages))
    /\
    NoDup (map page (range pages))
    /\
    (forall i, In ("orderByFields", "OBJECTID") (page i) /\
               In ("resultOffset", str (i * Crash.MAX_RECORD_COUNT)) (page i))
    /\
    ((forall i, In i (range pages) -> answers srv (page i)) ->
     is_ok (fst run) = true).
Proof.
  intros srv where_ out_fields w w1 total Hcount Hpos pages page run.
  assert (Hrun : run = Crash.page_loop srv where_ out_fields (range pages) [] w1).
  { unfold run. apply fetch_all_features_pages; [exact Hcount|].
    unfold COUNT_BOUND in *. lia. }
  split; [apply ceil_div_spec; reflexivity|].
  split.
  { destruct (page_loop_requests srv where_ out_fields (range pages) [] w1)
      as (k & attempts & Hk & Hlen & Hall & Hcalls & Hwire & Hfull).
    rewrite range_length in Hk, Hfull.
    exists k, attempts. rewrite Hrun. repeat split; auto.
    - rewrite Hcalls, firstn_range by exact Hk. reflexivity.
    - rewrite Hwire, firstn_range by exact Hk. reflexivity. }
  split.
  { apply Finite.Injective_map_NoDup; [|apply range_NoDup].
    intros a b H. apply page_params_inj in H. unfold Crash.MAX_RECORD_COUNT in H. lia. }
  split; [intros i; split; simpl; tauto|].
  intros Hans. rewrite Hrun. now apply page_loop_returns.
Qed.

Lemma paged_answers (p : Crash.params) :
  dict_get "returnCountOnly" (map (fun kv => (fst kv, JStr (snd kv))) p) = None ->
  answers Examples.paged p.
Proof.
  intros H w. unfold Crash._request_json.
  change (range Crash.DEFAULT_RETRIES) with [0; 1; 2; 3; 4].
  cbn [Crash.retry_loop]. unfold Crash.attempt_once, Examples.paged.
  rewrite H. cbn.
  eexists _, _, _, _. repeat split; reflexivity.
Defined.

Lemma fetch_all_features_page_requests_witness :
  let where_ := Examples.az_2022 in
  let run := Crash.fetch_all_features Examples.paged where_ "*" Crash.fresh in
  0 < 4001 <= COUNT_BOUND /\
  is_ok (fst run) = true /\
  Crash.calls (snd run)
  = [Crash.count_params where_;
     Crash.page_params where_ "*" 0;
     Crash.page_params where_ "*" 2000;
     Crash.page_params where_ "*" 4000].
Proof.
  intros where_ run.
  assert (Hb : 0 < 4001 <= COUNT_BOUND) by (split; [reflexivity|discriminate]).
  pose proof (fetch_all_features_page_requests Examples.paged where_ "*"
                Crash.fresh _ 4001 eq_refl Hb)
    as (_ & (k & attempts & Hk & _ & _ & Hcalls & _ & Hfull) & _ & _ & Hlive).
  assert (Hok : is_ok (fst run) = true).
  { apply Hlive. intros i _. now apply paged_answers. }
  specialize (Hfull Hok). rewrite Hfull in Hcalls.
  split; [exact Hb|]. split; [exact Hok|exact Hcalls].
Defined.

(** C4 fails as stated: the service reports 4001 records, three pages,
    and cannot serve the first page; the enumeration issues one page
    request, sends it five times and raises. *)
Lemma page_requests_stop_at_failure :
  let where_ := Examples.az_2022 in
  let run := Crash.fetch_all_features Cases.pages_down where_ "*" Crash.fresh in
  fst (Crash.get_count Cases.pages_down where_ Crash.fresh) = Ok 4001 /\
  ceil_div 4001 Crash.MAX_RECORD_COUNT = 3 /\
  Crash.calls (snd run)
  = [Crash.count_params where_; Crash.page_params where_ "*" 0] /\
  Crash.wire (snd run)
  = Crash.count_params where_ :: repeat (Crash.page_params where_ "*" 0) 5 /\
  fst run = Raise (RequestFailed 5 (Some Timeout)).
Proof. repeat split. Qed.

(** Above [COUNT_BOUND] the float quotient can round below the exact
    one: one record more than the bound, and the page count is one page
    short of the ceiling. *)
Lemma page_count_above_bound :
  rbind (true_div (COUNT_BOUND + 1) Crash.MAX_RECORD_COUNT)
        (fun x => Ok (math_ceil x)) = Ok (2 ^ 43)
  /\
  ceil_div (COUNT_BOUND + 1) Crash.MAX_RECORD_COUNT = 2 ^ 43 + 1.
Proof. split; vm_compute; reflexivity. Qed.



Section Reliable.
Import Crash.

Variable srv : server.

Lemma request_json_first_answer p w data :
  verdict (srv (List.length (wire w)) p) = Ok data ->
  _request_json srv p DEFAULT_RETRIES w = (Ok data, More.sent [p] w).
Proof.
  intros H.
  rewrite (request_json_recovers srv p DEFAULT_RETRIES w 0 (fun _ => Timeout) data).
  - unfold after_attempts, More.sent, log_call. simpl.
    now rewrite app_nil_r.
  - reflexivity.
  - intros i Hi. lia.
  - now rewrite Nat.add_0_r.
Qed.

Lemma sent_sent ps qs w : More.sent qs (More.sent ps w) = More.sent (ps ++ qs) w.
Proof. unfold More.sent. simpl. now rewrite <- !app_assoc. Qed.

Variables where_ out_fields : string.
Variable page_items : Z -> list json.

Hypothesis pages_served :
  forall n i, exists d,
    verdict (srv n (page_params where_ out_fields (i * MAX_RECORD_COUNT)))
    = Ok (JObj d) /\
    dict_get "features" d = Some (JArr (page_items i)).

Lemma page_loop_reliable :
  forall (idxs : list Z) (features : list json) (w : world),
    page_loop srv where_ out_fields idxs features w
    = (Ok (features ++ List.concat (map page_items idxs)),
       More.sent
         (map (fun i => page_params where_ out_fields (i * MAX_RECORD_COUNT)) idxs)
         w).
Proof.
  induction idxs as [|i idxs IH]; intros features w.
  - simpl. unfold ret, More.sent. simpl. rewrite !app_nil_r. now destruct w.
  - cbn [page_loop]. unfold bind, lift.
    destruct (pages_served (List.length (wire w)) i) as (d & Hv & Hf).
    rewrite (request_json_first_answer _ _ _ Hv). simpl. rewrite Hf. simpl.
    rewrite IH, sent_sent. simpl. now rewrite <- app_assoc.
Qed.

End Reliable.

(** X7. Against a service that answers every attempt and reports a count
    within [COUNT_BOUND], the enumeration sends the count query and then
    one request per page, none of them twice, never sleeps, and returns
    the features of the pages in page order: what the pages deliver,
    whatever the count said. *)
Theorem fetch_all_features_reliable_service :
  forall (srv : Crash.server) (where_ out_fields : string) (total : Z)
         (page_items : Z -> list json) (w : Crash.world),
    More.serves srv where_ out_fields total page_items ->
    - COUNT_BOUND <= total <= COUNT_BOUND ->
    let idxs := range (ceil_div total Crash.MAX_RECORD_COUNT) in
    Crash.fetch_all_features srv where_ out_fields w
    = (Ok (List.concat (map page_items idxs)),
       More.sent
         (Crash.count_params where_
          :: map (fun i => Crash.page_params where_ out_fields
                             (i * Crash.MAX_RECORD_COUNT)) idxs)
         w).
Proof.
  intros srv where_ out_fields total page_items w [Hcount Hpages] Hb idxs.
  destruct (Hcount (List.length (Crash.wire w))) as (d & Hv & Hc).
  assert (Hget : Crash.get_count srv where_ w
                 = (Ok total, More.sent [Crash.count_params where_] w)).
  { unfold Crash.get_count, Crash.bind, Crash.lift.
    rewrite (request_json_first_answer _ _ _ _ Hv). simpl. now rewrite Hc. }
  rewrite (fetch_all_features_pages srv where_ out_fields w _ total Hget Hb).
  rewrite (page_loop_reliable srv where_ out_fields page_items Hpages).
  now rewrite sent_sent.
Qed.

Lemma fetch_all_features_reliable_service_witness :
  Crash.fetch_all_features Cases.three_pages Examples.az_2022 "*" Crash.fresh
  = (Ok [JStr "0"; JStr "2000"; JStr "4000"],
     More.sent
       [Crash.count_params Examples.az_2022;
        Crash.page_params Examples.az_2022 "*" 0;
        Crash.page_params Examples.az_2022 "*" 2000;
        Crash.page_params Examples.az_2022 "*" 4000]
       Crash.fresh).
Proof.
  apply (fetch_all_features_reliable_service Cases.three_pages Examples.az_2022
           "*" 4001 (fun i => [JStr (str (i * Crash.MAX_RECORD_COUNT))])).
  - split.
    + intros n. eexists. split; reflexivity.
    + intros n i. eexists. split; reflexivity.
  - split; discriminate.
Defined.

(* ===================================================================== *)
(** * Further properties: the frame built by [features_to_df]             *)
(* ===================================================================== *)

Section FrameShape.

Lemma mapM_length {A B} (f : A -> result B) (l : list A) (ys : list B) :
  mapM f l = Ok ys -> List.length ys = List.length l.
Proof.
  revert ys. induction l as [|a l IH]; intros ys H; simpl in H.
  - now injection H as <-.
  - destruct (f a); try discriminate. simpl in H.
    destruct (mapM f l) as [bs| |]; try discriminate.
    simpl in H. injection H as <-. simpl. f_equal. now apply IH.
Qed.

Lemma mapM_stops {A B} (f : A -> result B) (pre : list A) (x : A) (post : list A)
    (e : exn) :
  Forall (fun a => exists b, f a = Ok b) pre -> f x = Raise e ->
  mapM f (pre ++ x :: post) = Raise e.
Proof.
  intros Hpre Hx. induction Hpre as [|a pre [b Hb] _ IH]; simpl.
  - now rewrite Hx.
  - now rewrite Hb, IH.
Qed.

Lemma add_key_NoDup (acc : list string) (k : string) :
  NoDup acc -> NoDup (add_key acc k).
Proof.
  intros H. unfold add_key.
  destruct (mem_string k acc) eqn:E; [exact H|].
  apply NoDup_app; [exact H|repeat constructor; intros []|].
  intros x Hx [<-|[]]. apply mem_string_iff in Hx. congruence.
Qed.

Lemma union_keys_NoDup (records : list dict) : NoDup (union_keys records).
Proof.
  unfold union_keys.
  assert (H : forall ks acc, NoDup acc -> NoDup (fold_left add_key ks acc)).
  { induction ks as [|k ks IH]; intros acc Hacc; simpl; [exact Hacc|].
    apply IH. now apply add_key_NoDup. }
  assert (G : forall acc, NoDup acc ->
                NoDup (fold_left (fun acc d => fold_left add_key (map fst d) acc)
                         records acc)).
  { induction records as [|d records IH]; intros acc Hacc; simpl; [exact Hacc|].
    apply IH. now apply H. }
  apply G. constructor.
Qed.

Lemma col_index_not_in c cols : ~ In c cols -> col_index c cols = None.
Proof.
  intros H. destruct (col_index c cols) as [j|] eqn:E; [|reflexivity].
  apply col_index_some in E as [_ E]. apply nth_error_In in E. contradiction.
Qed.

Lemma col_index_none_not_in c cols : col_index c cols = None -> ~ In c cols.
Proof.
  intros H Hin. destruct (col_index_in _ _ Hin) as [j Hj]. congruence.
Qed.

Lemma set_nth_length i x (r : list cell) :
  List.length (set_nth i x r) = List.length r.
Proof.
  revert i. induction r as [|y r IH]; intros [|i]; simpl; auto.
Qed.

Lemma set_column_rows df c values :
  List.length (rows df) = List.length values ->
  List.length (rows (set_column df c values)) = List.length (rows df).
Proof.
  intros H. unfold set_column.
  destruct (col_index c (columns df)); simpl;
    rewrite length_map, length_combine; lia.
Qed.

Lemma set_column_aligned df c values :
  aligned df -> aligned (set_column df c values).
Proof.
  unfold aligned, set_column. intros Hal.
  destruct (col_index c (columns df)) as [i|]; simpl;
    apply Forall_forall; intros r Hr;
    apply in_map_iff in Hr as ([r0 v] & <- & Hin);
    apply in_combine_l in Hin;
    rewrite Forall_forall in Hal; specialize (Hal r0 Hin); simpl.
  - now rewrite set_nth_length.
  - rewrite !length_app. simpl. lia.
Qed.

Lemma set_column_NoDup df c values :
  NoDup (columns df) -> NoDup (columns (set_column df c values)).
Proof.
  intros H. unfold set_column.
  destruct (col_index c (columns df)) as [i|] eqn:E; simpl; [exact H|].
  apply NoDup_app; [exact H|repeat constructor; intros []|].
  intros x Hx [<-|[]]. now apply (col_index_none_not_in _ _ E).
Qed.

Lemma column_DataFrame_none (records : list dict) (c : string) :
  ~ In c (union_keys records) -> column (DataFrame records) c = None.
Proof.
  intros H. unfold column, DataFrame. simpl. now rewrite col_index_not_in.
Qed.

Lemma dict_get_none_not_in k (d : dict) :
  dict_get k d = None -> ~ In k (map fst d).
Proof.
  induction d as [|[k' v'] d IH]; simpl; [tauto|].
  destruct (String.eqb_spec k k') as [->|Hne]; [discriminate|].
  intros H [E|Hin]; [congruence|]. now apply IH.
Qed.

Variable to_datetime_coerce : cell -> cell -> cell -> cell.

(** The date column keeps the frame well shaped. *)
Lemma add_crash_date_shape (df : frame) :
  aligned df -> NoDup (columns df) ->
  List.length (rows (Crash.add_crash_date to_datetime_coerce df))
  = List.length (rows df) /\
  aligned (Crash.add_crash_date to_datetime_coerce df) /\
  NoDup (columns (Crash.add_crash_date to_datetime_coerce df)).
Proof.
  intros Hal Hnd. unfold Crash.add_crash_date.
  destruct (column df "YEAR") as [ys|] eqn:Ey; [|auto].
  destruct (column df "MONTH") as [ms|] eqn:Em; [|auto].
  destruct (column df "DAY") as [ds|] eqn:Ed; [|auto].
  split; [|split].
  - apply set_column_rows. symmetry.
    apply to_datetime_length; eapply column_length; eauto.
  - now apply set_column_aligned.
  - now apply set_column_NoDup.
Qed.

(** What a row holds under a key other than [lon] and [lat]: the
    feature's attribute of that name. *)
Lemma feature_row_lookup (f : json) (attrs : dict) (k : string) :
  Crash.feature_row f = Ok attrs -> k <> "lon" -> k <> "lat" ->
  dict_get k attrs = More.attribute f k.
Proof.
  destruct f as [| | | | | |d]; try discriminate.
  intros H Hlon Hlat. simpl in H. unfold More.attribute.
  unfold get_or in H at 1.
  destruct (dict_get "attributes" d) as [[|b|n|q|s|l|a]|]; simpl in H.
  - now rewrite (project_geometry_keeps _ _ _ _ Hlon Hlat H).
  - destruct b; simpl in H; [discriminate|].
    now rewrite (project_geometry_keeps _ _ _ _ Hlon Hlat H).
  - destruct (n =? 0); simpl in H; [|discriminate].
    now rewrite (project_geometry_keeps _ _ _ _ Hlon Hlat H).
  - destruct (Qnum q =? 0); simpl in H; [|discriminate].
    now rewrite (project_geometry_keeps _ _ _ _ Hlon Hlat H).
  - destruct (String.eqb s "") eqn:E; simpl in H.
    + now rewrite (project_geometry_keeps _ _ _ _ Hlon Hlat H).
    + rewrite E in H. discriminate.
  - destruct l; simpl in H; [|discriminate].
    now rewrite (project_geometry_keeps _ _ _ _ Hlon Hlat H).
  - destruct a as [|kv a]; simpl in H.
    + now rewrite (project_geometry_keeps _ _ _ _ Hlon Hlat H).
    + now rewrite (project_geometry_keeps _ _ _ _ Hlon Hlat H).
  - now rewrite (project_geometry_keeps _ _ _ _ Hlon Hlat H).
Qed.

End FrameShape.

Section RowContent.

(** The row of a feature: its attributes, then the projection. *)
Lemma feature_row_split (d attrs : dict) :
  Crash.feature_row (JObj d) = Ok attrs ->
  exists a0,
    Crash.project_geometry (get_or "geometry" d (JObj [])) a0 = Ok attrs /\
    forall k, dict_get k a0 = More.attribute (JObj d) k.
Proof.
  simpl. unfold More.attribute, get_or at 1.
  destruct (dict_get "attributes" d) as [[|b|n|q|s|l|a]|]; simpl.
  - intros H. exists []. auto.
  - destruct b; simpl; [discriminate|]. intros H. exists []. auto.
  - destruct (n =? 0); simpl; [|discriminate]. intros H. exists []. auto.
  - destruct (Qnum q =? 0); simpl; [|discriminate]. intros H. exists []. auto.
  - destruct (String.eqb s "") eqn:E; simpl.
    + intros H. exists []. auto.
    + rewrite E. discriminate.
  - destruct l; simpl; [|discriminate]. intros H. exists []. auto.
  - destruct a as [|kv a]; simpl; intros H.
    + exists []. auto.
    + exists (kv :: a). auto.
  - intros H. exists []. auto.
Qed.

(** Without [x] and [y] in the geometry the row is the attributes. *)
Lemma feature_row_no_geometry (f : json) (attrs : dict) :
  Crash.feature_row f = Ok attrs -> More.geometry_xy f = None ->
  forall k, dict_get k attrs = More.attribute f k.
Proof.
  destruct f as [| | | | | |d]; try discriminate.
  intros H Hxy k.
  destruct (feature_row_split _ _ H) as (a0 & Hp & Ha0).
  rewrite <- Ha0. clear Ha0 H.
  simpl in Hxy. unfold get_or in Hp.
  destruct (dict_get "geometry" d) as [[|b|n|q|s|l|g]|]; simpl in Hp.
  - now injection Hp as <-.
  - destruct b; simpl in Hp; [discriminate|]. now injection Hp as <-.
  - destruct (n =? 0); simpl in Hp; [|discriminate]. now injection Hp as <-.
  - destruct (Qnum q =? 0); simpl in Hp; [|discriminate]. now injection Hp as <-.
  - destruct (String.eqb s ""); simpl in Hp.
    + now injection Hp as <-.
    + destruct (_ && _); [discriminate|]. now injection Hp as <-.
  - destruct l as [|v l]; simpl in Hp.
    + now injection Hp as <-.
    + destruct (_ && _); [discriminate|]. now injection Hp as <-.
  - destruct g as [|kv g]; cbn [truthy Crash.project_geometry] in Hp.
    + simpl in Hp. now injection Hp as <-.
    + destruct (dict_get "x" (kv :: g)), (dict_get "y" (kv :: g));
        try discriminate; now injection Hp as <-.
  - now injection Hp as <-.
Qed.

End RowContent.

(** X8. Whenever [features_to_df] returns a frame, the frame has one row
    per feature, every row has exactly one cell per column, and no column
    label occurs twice. *)
Theorem features_to_df_frame_shape :
  forall (to_datetime_coerce : cell -> cell -> cell -> cell)
         (features : list json) (df : frame),
    Crash.features_to_df to_datetime_coerce features = Ok df ->
    List.length (rows df) = List.length features /\
    aligned df /\
    NoDup (columns df).
Proof.
  intros to_dt features df H. unfold Crash.features_to_df in H.
  destruct (mapM Crash.feature_row features) as [records| |] eqn:E;
    try discriminate.
  simpl in H. injection H as <-.
  destruct (add_crash_date_shape to_dt (DataFrame records)
              (DataFrame_aligned records) (union_keys_NoDup records))
    as (Hlen & Hal & Hnd).
  split; [|split]; auto.
  rewrite Hlen. simpl. rewrite length_map. now apply mapM_length in E.
Qed.

Lemma features_to_df_frame_shape_witness :
  exists df,
    Crash.features_to_df Examples.to_datetime_calendar Examples.crash_records
    = Ok df /\
    List.length (rows df) = 2%nat /\ aligned df /\ NoDup (columns df).
Proof.
  eexists. split; [reflexivity|].
  apply (features_to_df_frame_shape Examples.to_datetime_calendar
           Examples.crash_records).
  reflexivity.
Defined.

(** X9. No date is synthesized unless all three components are there:
    when no feature carries one of [YEAR], [MONTH], [DAY], and none
    carries a [crash_date] of its own, the frame has no [crash_date]
    column. *)
Theorem features_to_df_no_date_column :
  forall (to_datetime_coerce : cell -> cell -> cell -> cell)
         (features : list json) (df : frame) (c : string),
    Crash.features_to_df to_datetime_coerce features = Ok df ->
    In c ["YEAR"; "MONTH"; "DAY"] ->
    (forall f, In f features -> More.attribute f c = None) ->
    (forall f, In f features -> More.attribute f "crash_date" = None) ->
    ~ In "crash_date" (columns df) /\ column df "crash_date" = None.
Proof.
  intros to_dt features df c H Hc Hnone Hcd. unfold Crash.features_to_df in H.
  destruct (mapM Crash.feature_row features) as [records| |] eqn:E;
    try discriminate.
  simpl in H. injection H as <-.
  assert (Hkey : forall k, k <> "lon" -> k <> "lat" ->
                   (forall f, In f features -> More.attribute f k = None) ->
                   ~ In k (union_keys records)).
  { intros k Hlon Hlat Hk Hin.
    apply union_keys_in in Hin as (attrs & Hattrs & Hkin).
    destruct (mapM_In _ _ _ _ E Hattrs) as (f & Hf & Hrow).
    apply (dict_get_none_not_in k attrs); [|exact Hkin].
    rewrite (feature_row_lookup f attrs k Hrow Hlon Hlat). now apply Hk. }
  assert (Hsame : Crash.add_crash_date to_dt (DataFrame records) = DataFrame records).
  { unfold Crash.add_crash_date.
    assert (Hcol : column (DataFrame records) c = None).
    { apply column_DataFrame_none. apply Hkey; auto.
      - simpl in Hc. intuition (subst; discriminate).
      - simpl in Hc. intuition (subst; discriminate). }
    simpl in Hc. destruct Hc as [<-|[<-|[<-|[]]]]; rewrite Hcol.
    - reflexivity.
    - now destruct (column (DataFrame records) "YEAR").
    - now destruct (column (DataFrame records) "YEAR"),
        (column (DataFrame records) "MONTH"). }
  rewrite Hsame.
  assert (Hnot : ~ In "crash_date" (union_keys records))
    by (apply Hkey; auto; discriminate).
  split; [exact Hnot|]. now apply column_DataFrame_none.
Qed.

Lemma features_to_df_no_date_column_witness :
  exists df,
    Crash.features_to_df Examples.to_datetime_calendar
      [Records.located; Records.unlocated] = Ok df /\
    ~ In "crash_date" (columns df) /\ column df "crash_date" = None.
Proof.
  eexists. split; [reflexivity|].
  apply (features_to_df_no_date_column Examples.to_datetime_calendar
           [Records.located; Records.unlocated] _ "DAY").
  - reflexivity.
  - simpl. tauto.
  - intros f [<-|[<-|[]]]; reflexivity.
  - intros f [<-|[<-|[]]]; reflexivity.
Defined.

(** X10. A feature whose geometry lacks [x] or [y] gets no made-up
    position: unless its attributes carry a [lon] or [lat] of their own,
    its row holds the missing value [NaN] there, or the frame has no such
    column at all. *)
Theorem features_to_df_missing_position :
  forall (to_datetime_coerce : cell -> cell -> cell -> cell)
         (features : list json) (df : frame) (i : nat) (f : json) (c : string),
    Crash.features_to_df to_datetime_coerce features = Ok df ->
    nth_error features i = Some f ->
    More.geometry_xy f = None ->
    In c ["lon"; "lat"] ->
    More.attribute f c = None ->
    cell_at df i c = None \/ cell_at df i c = Some NaN.
Proof.
  intros to_dt features df i f c H Hi Hxy Hc Hattr.
  unfold Crash.features_to_df in H.
  destruct (mapM Crash.feature_row features) as [records| |] eqn:E;
    try discriminate.
  simpl in H. injection H as <-.
  destruct (mapM_nth _ _ _ E i f Hi) as (attrs & Hrow & Hnth).
  unfold cell_at.
  rewrite add_crash_date_other;
    [|simpl in Hc; intuition (subst; discriminate)|apply DataFrame_aligned].
  destruct (in_dec string_dec c (union_keys records)) as [Hin|Hout].
  - right. rewrite (column_DataFrame _ _ Hin), (map_nth_error _ _ _ Hnth).
    unfold cell_of.
    now rewrite (feature_row_no_geometry f attrs Hrow Hxy c), Hattr.
  - left. now rewrite column_DataFrame_none.
Qed.

Lemma features_to_df_missing_position_witness :
  exists df,
    Crash.features_to_df Examples.to_datetime_calendar
      [Records.located; Records.unlocated] = Ok df /\
    cell_at df 0 "lon" = Some (Val (JInt (-111))) /\
    (cell_at df 1 "lon" = None \/ cell_at df 1 "lon" = Some NaN).
Proof.
  eexists. split; [reflexivity|]. split; [reflexivity|].
  apply (features_to_df_missing_position Examples.to_datetime_calendar
           [Records.located; Records.unlocated] _ 1 Records.unlocated "lon");
    try reflexivity.
  simpl. tauto.
Defined.

(** X11. One value that is no JSON object among the features, after
    features of the ArcGIS shape, makes the whole normalisation raise
    [AttributeError]: no frame is built from the features before it. *)
Theorem features_to_df_stray_value :
  forall (to_datetime_coerce : cell -> cell -> cell -> cell)
         (before : list json) (f : json) (after : list json),
    Forall (fun g => arcgis_feature g = true) before ->
    Records.not_an_object f = true ->
    Crash.features_to_df to_datetime_coerce (before ++ f :: after)
    = Raise AttributeError.
Proof.
  intros to_dt before f after Hwf Hf. unfold Crash.features_to_df.
  rewrite (mapM_stops Crash.feature_row before f after AttributeError).
  - reflexivity.
  - eapply Forall_impl; [|exact Hwf]. intros g. apply feature_row_returns.
  - destruct f; try reflexivity. discriminate.
Qed.

Lemma features_to_df_stray_value_witness :
  Crash.features_to_df Examples.to_datetime_calendar
    [Records.located; Records.stray; Records.unlocated]
  = Raise AttributeError.
Proof.
  apply (features_to_df_stray_value Examples.to_datetime_calendar
           [Records.located] Records.stray [Records.unlocated]).
  - repeat constructor.
  - reflexivity.
Defined.

(* ===================================================================== *)
(** * Further properties: the resolvers (electric.py)                     *)
(* ===================================================================== *)

Lemma upper_char_idem c : upper_char (upper_char c) = upper_char c.
Proof. by_char c. Qed.

Lemma upper_char_lower_char c : upper_char (lower_char c) = upper_char c.
Proof. by_char c. Qed.

Lemma key_char_lower_bool c :
  negb (Electric.is_key_char c) || Ascii.eqb (lower_char c) c = true.
Proof. by_char c. Qed.

Lemma key_char_lower c : Electric.is_key_char c = true -> lower_char c = c.
Proof.
  intros H. pose proof (key_char_lower_bool c) as Hb. rewrite H in Hb.
  simpl in Hb. now apply Ascii.eqb_eq.
Qed.

Lemma contains_refl (s : string) : contains s s = true.
Proof.
  apply contains_iff. exists EmptyString, EmptyString. simpl.
  induction s as [|c s IH]; simpl; [reflexivity|]. now rewrite <- IH.
Qed.

Lemma string_append_assoc (a b c : string) :
  ((a ++ b) ++ c)%string = (a ++ (b ++ c))%string.
Proof. induction a as [|x a IH]; simpl; [reflexivity|now rewrite IH]. Qed.

Lemma contains_trans (a b c : string) :
  contains a b = true -> contains b c = true -> contains a c = true.
Proof.
  rewrite !contains_iff.
  intros (p1 & q1 & ->) (p2 & q2 & ->).
  exists (p2 ++ p1)%string, (q1 ++ q2)%string.
  now rewrite !string_append_assoc.
Qed.

Lemma choose_facet_id_from_candidate :
  forall (facet_values : list Electric.facet)
         (prefer_ids prefer_name_contains : list string) (chosen : string),
    Electric.choose_facet_id facet_values prefer_ids prefer_name_contains
    = Some chosen ->
    exists f,
      In f facet_values /\ Electric.f_id f = Some chosen /\
      (exact_match prefer_ids f \/ substring_match prefer_name_contains f).
Proof.
  intros facet_values prefer_ids needles chosen.
  unfold Electric.choose_facet_id.
  destruct facet_values as [|f0 rest]; [discriminate|].
  destruct (find (Electric.exact_hit (map upper prefer_ids)) (f0 :: rest))
    as [f|] eqn:E1.
  - intros H. apply find_some in E1 as [Hin Hhit].
    exists f. split; [exact Hin|]. split; [exact H|].
    left. now apply exact_hit_iff.
  - destruct (find (Electric.needle_hit (map lower needles)) (f0 :: rest))
      as [f|] eqn:E2; [|discriminate].
    intros H. apply find_some in E2 as [Hin Hhit].
    exists f. split; [exact Hin|]. split; [exact H|].
    right. now apply needle_hit_iff.
Qed.

(** X12. [choose_facet_id] never makes up an identifier: what it returns
    is the [id] of one of the candidates, and that candidate satisfies the
    exact rule or the substring rule. *)
Theorem choose_facet_id_provenance :
  forall (facet_values : list Electric.facet)
         (prefer_ids prefer_name_contains : list string) (chosen : string),
    Electric.choose_facet_id facet_values prefer_ids prefer_name_contains
    = Some chosen ->
    exists f,
      In f facet_values /\ Electric.f_id f = Some chosen /\
      (exact_match prefer_ids f \/ substring_match prefer_name_contains f).
Proof. exact choose_facet_id_from_candidate. Qed.

Lemma choose_facet_id_provenance_witness :
  exists f,
    In f [Examples.only_id "CA"; Examples.named "AZ" "Arizona"] /\
    Electric.f_id f = Some "AZ" /\
    (exact_match ["TX"] f \/ substring_match ["arizona"] f).
Proof.
  apply (choose_facet_id_provenance
           [Examples.only_id "CA"; Examples.named "AZ" "Arizona"]
           ["TX"] ["arizona"] "AZ").
  reflexivity.
Defined.

(** X13. The case of ASCII preferences does not matter: upper-casing or
    lower-casing every exact preference and every needle, all of them
    ASCII text, leaves the choice unchanged. *)
Theorem choose_facet_id_preference_case :
  forall (facet_values : list Electric.facet)
         (prefer_ids prefer_name_contains : list string),
    Forall ascii_text prefer_ids ->
    Forall ascii_text prefer_name_contains ->
    Electric.choose_facet_id facet_values (map upper prefer_ids)
      (map upper prefer_name_contains)
    = Electric.choose_facet_id facet_values prefer_ids prefer_name_contains
    /\
    Electric.choose_facet_id facet_values (map lower prefer_ids)
      (map lower prefer_name_contains)
    = Electric.choose_facet_id facet_values prefer_ids prefer_name_contains.
Proof.
  intros facet_values prefer_ids needles _ _.
  unfold Electric.choose_facet_id, upper, lower.
  rewrite !map_map.
  rewrite (map_ext _ _ (fun s => map_string_compose upper_char upper_char s
                                   upper_char_idem)).
  rewrite (map_ext _ _ (fun s => map_string_compose lower_char upper_char s
                                   lower_char_upper_char)).
  rewrite (map_ext _ _ (fun s => map_string_compose upper_char lower_char s
                                   upper_char_lower_char)).
  rewrite (map_ext _ _ (fun s => map_string_compose lower_char lower_char s
                                   lower_char_idem)).
  split; reflexivity.
Qed.

Lemma choose_facet_id_preference_case_witness :
  Electric.choose_facet_id [Examples.only_id "CA"; Examples.named "AZ" "Arizona"]
    (map upper ["tx"]) (map upper ["Arizona"])
  = Electric.choose_facet_id [Examples.only_id "CA"; Examples.named "AZ" "Arizona"]
      ["tx"] ["Arizona"]
  /\
  Electric.choose_facet_id [Examples.only_id "CA"; Examples.named "AZ" "Arizona"]
    (map lower ["tx"]) (map lower ["Arizona"])
  = Electric.choose_facet_id [Examples.only_id "CA"; Examples.named "AZ" "Arizona"]
      ["tx"] ["Arizona"].
Proof.
  apply (choose_facet_id_preference_case
           [Examples.only_id "CA"; Examples.named "AZ" "Arizona"]
           ["tx"] ["Arizona"]); repeat constructor.
Defined.

(** X14. An empty needle matches every candidate: when no candidate
    satisfies the exact rule and the empty string is among the needles,
    the first candidate is chosen. *)
Theorem choose_facet_id_empty_needle :
  forall (f : Electric.facet) (rest : list Electric.facet)
         (prefer_ids prefer_name_contains : list string),
    (forall g, In g (f :: rest) -> ~ exact_match prefer_ids g) ->
    In "" prefer_name_contains ->
    Electric.choose_facet_id (f :: rest) prefer_ids prefer_name_contains
    = Electric.f_id f.
Proof.
  intros f rest prefer_ids needles Hnone Hempty.
  unfold Electric.choose_facet_id.
  rewrite (find_none_iff _ _ _ (exact_hit_iff prefer_ids) Hnone).
  assert (Hhit : Electric.needle_hit (map lower needles) f = true).
  { apply needle_hit_iff. exists "", "", (haystack f). auto. }
  simpl. now rewrite Hhit.
Qed.

Lemma choose_facet_id_empty_needle_witness :
  Electric.choose_facet_id [Examples.only_id "COAL"; Examples.only_id "SUN"]
    ["ALL"] ["total"; ""] = Some "COAL".
Proof.
  apply (choose_facet_id_empty_needle (Examples.only_id "COAL")
           [Examples.only_id "SUN"] ["ALL"] ["total"; ""]).
  - intros g [<-|[<-|[]]] (q & [<-|[]] & Hq); discriminate.
  - simpl. tauto.
Defined.

Section ColumnChoice.
Import Electric.

Lemma first_key_in test (keys : list string) k :
  first_key test (map (fun k => (k, normalize_key k)) keys) = Some k -> In k keys.
Proof.
  intros H. apply first_key_some in H as (nk & Hin & _).
  apply in_map_iff in Hin as (k' & [= <- _] & Hk). exact Hk.
Qed.

Lemma first_pref_in test pref_norm (keys : list string) k :
  first_pref test pref_norm (map (fun k => (k, normalize_key k)) keys) = Some k ->
  In k keys.
Proof.
  intros H. apply first_pref_some in H as (pn & nk & _ & Hin & _).
  apply in_map_iff in Hin as (k' & [= <- _] & Hk). exact Hk.
Qed.

Lemma pick_column_in preferred keys fallback :
  In fallback keys -> In (pick_column preferred keys fallback) keys.
Proof.
  intros Hf. unfold pick_column.
  destruct (first_pref _ _ _) as [k|] eqn:E1; [now apply first_pref_in in E1|].
  clear E1.
  destruct (first_pref _ _ _) as [k|] eqn:E2; [now apply first_pref_in in E2|].
  clear E2.
  destruct (first_key _ _) as [k|] eqn:E3; [now apply first_key_in in E3|].
  exact Hf.
Qed.

Lemma first_key_all_false test norm_map :
  (forall k nk, In (k, nk) norm_map -> test nk = false) ->
  first_key test norm_map = None.
Proof.
  induction norm_map as [|[k nk] rest IH]; intros H; simpl; [reflexivity|].
  rewrite (H k nk) by now left. apply IH. intros k' nk' Hin. apply (H k'). now right.
Qed.

Lemma first_pref_all_false test pref_norm norm_map :
  (forall pn k nk, In pn pref_norm -> In (k, nk) norm_map -> test pn nk = false) ->
  first_pref test pref_norm norm_map = None.
Proof.
  induction pref_norm as [|pn rest IH]; intros H; simpl; [reflexivity|].
  rewrite first_key_all_false.
  - apply IH. intros pn' k nk Hp. apply H. now right.
  - intros k nk. apply H. now left.
Qed.

Lemma first_key_first (test : string -> bool) (P : string -> Prop)
    (keys : list string) (k : string) :
  (forall x, test (normalize_key x) = true <-> P x) ->
  first_such P keys k ->
  first_key test (map (fun k => (k, normalize_key k)) keys) = Some k.
Proof.
  intros Htest (pre & post & -> & Hk & Hpre).
  induction pre as [|x pre IH]; simpl.
  - now rewrite (proj2 (Htest k) Hk).
  - destruct (test (normalize_key x)) eqn:E.
    + exfalso. apply (Hpre x); [now left|now apply Htest].
    + apply IH. intros y Hy. apply Hpre. now right.
Qed.

Lemma normalize_key_idem s : normalize_key (normalize_key s) = normalize_key s.
Proof.
  unfold normalize_key, lower.
  induction (map_string lower_char s) as [|c t IH]; simpl; [reflexivity|].
  destruct (is_key_char c) eqn:E; simpl; [|exact IH].
  rewrite (key_char_lower c E), E. f_equal. exact IH.
Qed.

End ColumnChoice.

(** X15. The data field picked is one the metadata has: for a non-empty
    data section the result is one of its keys; for an empty one it is
    the default ["value"]. *)
Theorem pick_generation_data_column_is_a_key :
  forall (data_obj : dict),
    (data_obj = [] /\ Electric.pick_generation_data_column data_obj = "value")
    \/
    (data_obj <> [] /\
     In (Electric.pick_generation_data_column data_obj) (map fst data_obj)).
Proof.
  intros [|[k0 v0] rest]; [left; split; reflexivity|].
  right. split; [discriminate|].
  unfold Electric.pick_generation_data_column. simpl map.
  apply pick_column_in. now left.
Qed.

(** X16. The data-field picker follows the order of its preference list:
    the first preference that some field name equals after normalisation
    decides, and among the field names equal to it the first one is
    returned, wherever in the metadata fields matching later preferences
    stand. *)
Theorem pick_generation_data_column_preference_order :
  forall (data_obj : dict) (q k : string),
    first_such (fun q' => exists k', In k' (map fst data_obj) /\
                                     normalized_equal k' q')
      Electric.preferred q ->
    first_such (fun k' => normalized_equal k' q) (map fst data_obj) k ->
    Electric.pick_generation_data_column data_obj = k.
Proof.
  intros data_obj q k (ppre & ppost & Hpref & _ & Hearlier) Hk.
  assert (Hkeys : exists k0 rest, map fst data_obj = k0 :: rest).
  { destruct Hk as (pre & post & E & _). destruct (map fst data_obj).
    - destruct pre; discriminate.
    - eauto. }
  destruct Hkeys as (k0 & rest & Ekeys).
  unfold Electric.pick_generation_data_column. rewrite Ekeys.
  rewrite <- Ekeys in *. unfold Electric.pick_column.
  rewrite Hpref, map_app. simpl map.
  assert (Hgo : forall pre' tail,
             (forall q', In q' pre' ->
                ~ exists k', In k' (map fst data_obj) /\ normalized_equal k' q') ->
             Electric.first_pref (fun pn nk => String.eqb nk pn)
               (map Electric.normalize_key pre' ++ tail)
               (map (fun k => (k, Electric.normalize_key k)) (map fst data_obj))
             = Electric.first_pref (fun pn nk => String.eqb nk pn) tail
                 (map (fun k => (k, Electric.normalize_key k)) (map fst data_obj))).
  { induction pre' as [|q' pre' IH]; intros tail Hno; simpl; [reflexivity|].
    rewrite first_key_all_false.
    - apply IH. intros q'' Hq''. apply Hno. now right.
    - intros k' nk Hin. apply in_map_iff in Hin as (k'' & [= <- <-] & Hk'').
      apply String.eqb_neq. intros Heq. apply (Hno q'); [now left|].
      exists k''. split; [exact Hk''|exact Heq]. }
  rewrite Hgo by exact Hearlier. simpl.
  rewrite (first_key_first (fun nk => String.eqb nk (Electric.normalize_key q))
             (fun k' => normalized_equal k' q) (map fst data_obj) k); auto.
  intros x. unfold normalized_equal. apply String.eqb_eq.
Qed.

Lemma pick_generation_data_column_preference_order_witness :
  Electric.pick_generation_data_column
    [("gen"%string, JNull); ("value", JNull); ("Generation", JNull);
     ("GENERATION", JNull)]
  = "Generation".
Proof.
  apply (pick_generation_data_column_preference_order _ "generation").
  - exists ["net-generation"; "net_generation"; "netgeneration"], ["gen"; "value"].
    split; [reflexivity|]. split.
    + exists "Generation". split; [simpl; tauto|reflexivity].
    + intros q' Hq' (k' & Hk' & Heq). simpl in Hq', Hk'.
      destruct Hq' as [<-|[<-|[<-|[]]]];
        destruct Hk' as [<-|[<-|[<-|[<-|[]]]]]; discriminate.
  - exists ["gen"; "value"], ["GENERATION"].
    split; [reflexivity|]. split; [reflexivity|].
    intros g [<-|[<-|[]]]; discriminate.
Defined.

(** X17. When no field name, once normalised, contains ["gen"] or
    ["value"], nothing is preferred and the first field of the metadata is
    returned. *)
Theorem pick_generation_data_column_fallback :
  forall (data_obj : dict) (k0 : string) (v0 : json) (rest : dict),
    data_obj = (k0, v0) :: rest ->
    (forall k, In k (map fst data_obj) ->
               contains "gen" (Electric.normalize_key k) = false /\
               contains "value" (Electric.normalize_key k) = false) ->
    Electric.pick_generation_data_column data_obj = k0.
Proof.
  intros data_obj k0 v0 rest -> Hno. simpl map in Hno.
  unfold Electric.pick_generation_data_column. simpl map. cbv iota.
  set (keys := k0 :: map fst rest) in *.
  assert (Hpn : forall pn, In pn (map Electric.normalize_key Electric.preferred) ->
                           contains "gen" pn = true \/ pn = "value").
  { intros pn Hin. simpl in Hin.
    destruct Hin as [<-|[<-|[<-|[<-|[<-|[<-|[]]]]]]]; auto. }
  assert (Hmiss : forall pn k, In pn (map Electric.normalize_key Electric.preferred) ->
                    In k keys -> contains pn (Electric.normalize_key k) = false).
  { intros pn k Hin Hk. destruct (Hno k Hk) as [Hg Hv].
    destruct (contains pn (Electric.normalize_key k)) eqn:E; [|reflexivity].
    destruct (Hpn pn Hin) as [Hc| ->]; [|congruence].
    rewrite (contains_trans _ _ _ Hc E) in Hg. discriminate. }
  unfold Electric.pick_column.
  rewrite first_pref_all_false.
  - rewrite first_pref_all_false.
    + rewrite first_key_all_false; [reflexivity|].
      intros k nk Hin. apply in_map_iff in Hin as (k' & [= <- <-] & Hk).
      apply (Hno k' Hk).
    + intros pn k nk Hin Hk. apply in_map_iff in Hk as (k' & [= <- <-] & Hk).
      unfold Electric.nonempty_infix. rewrite (Hmiss pn k' Hin Hk).
      apply andb_false_r.
  - intros pn k nk Hin Hk. apply in_map_iff in Hk as (k' & [= <- <-] & Hk).
    apply String.eqb_neq. intros Heq.
    pose proof (Hmiss pn k' Hin Hk) as Hc. rewrite Heq, contains_refl in Hc.
    discriminate.
Qed.

Lemma pick_generation_data_column_fallback_witness :
  Electric.pick_generation_data_column
    [("total-consumption"%string, JNull); ("cost", JNull)]
  = "total-consumption".
Proof.
  apply (pick_generation_data_column_fallback _ _ JNull [("cost"%string, JNull)]).
  - reflexivity.
  - intros k [<-|[<-|[]]]; split; reflexivity.
Defined.



(* ===================================================================== *)
(** * Further properties: the merge by period                             *)
(* ===================================================================== *)

Section MergeMore.
Import Dashboard.

Lemma merged_rows retail gen (v : merged_row) :
  In (Some v) (merged retail gen) <->
  exists k, In k (map_keys (byPeriod retail gen)) /\
            map_get k (byPeriod retail gen) = Some v.
Proof.
  unfold merged, periods. rewrite in_map_iff. split.
  - intros (k & Hget & Hin). exists k. split; [|exact Hget].
    eapply Permutation_in; [apply Permutation_sym, PeriodSort.Permuted_sort|exact Hin].
  - intros (k & Hin & Hget). exists k. split; [exact Hget|].
    eapply Permutation_in; [apply PeriodSort.Permuted_sort|exact Hin].
Qed.

Lemma fold_retail_untouched (post : list retail_row) (k : string) :
  (forall r, In r post -> r_period r <> k) ->
  forall m, map_get k (fold_left add_retail post m) = map_get k m.
Proof.
  induction post as [|r post IH]; intros Hno m; simpl; [reflexivity|].
  rewrite IH by (intros r' Hr'; apply Hno; now right).
  unfold add_retail. apply map_get_set_ne. apply Hno. now left.
Qed.

Lemma fold_gen_untouched (post : list gen_row) (k : string) :
  (forall g, In g post -> g_period g <> k) ->
  forall m, map_get k (fold_left add_gen post m) = map_get k m.
Proof.
  induction post as [|g post IH]; intros Hno m; simpl; [reflexivity|].
  rewrite IH by (intros g' Hg'; apply Hno; now right).
  unfold add_gen. apply map_get_set_ne. apply Hno. now left.
Qed.

(** The generation loop leaves the retail fields of a stored row alone. *)
Lemma fold_gen_keeps_retail (gen : list gen_row) :
  forall (m : period_map) (k : string) (v : merged_row),
    map_get k m = Some v ->
    exists v', map_get k (fold_left add_gen gen m) = Some v' /\
               period v' = period v /\ sales v' = sales v /\
               revenue v' = revenue v /\ price v' = price v.
Proof.
  induction gen as [|g gen IH]; intros m k v Hget; simpl.
  - exists v. auto.
  - destruct (String.eqb_spec (g_period g) k) as [E|Hne].
    + destruct (IH (add_gen m g) k
                  (set_generation v (nullish (g_generation g))))
        as (v' & Hv' & Hfields).
      { unfold add_gen. rewrite E, Hget. apply map_get_set_eq. }
      exists v'. split; [exact Hv'|exact Hfields].
    + apply IH. unfold add_gen. now rewrite map_get_set_ne.
Qed.

Lemma map_get_keys k m v : map_get k m = Some v -> In k (map_keys m).
Proof.
  induction m as [|[k' v'] m IH]; simpl; [discriminate|].
  destruct (String.eqb_spec k k') as [->|Hne]; auto.
Qed.

End MergeMore.

(** X18. A period that occurs in both series gives one merged row, and
    that row joins them: its sales, revenue and price are those of a
    retail row of that period, its generation that of a generation row of
    that period.  No other merged row has the period. *)
Theorem merge_joins_common_periods :
  forall (retail : list Dashboard.retail_row) (gen : list Dashboard.gen_row)
         (k : string),
    In k (map Dashboard.r_period retail) ->
    In k (map Dashboard.g_period gen) ->
    exists v,
      In (Some v) (Dashboard.merged retail gen) /\
      Dashboard.period v = k /\
      (exists r, In r retail /\ Dashboard.r_period r = k /\
         Dashboard.sales v = Dashboard.nullish (Dashboard.r_sales r) /\
         Dashboard.revenue v = Dashboard.nullish (Dashboard.r_revenue r) /\
         Dashboard.price v = Dashboard.nullish (Dashboard.r_price r)) /\
      (exists g, In g gen /\ Dashboard.g_period g = k /\
         Dashboard.generation v = Dashboard.nullish (Dashboard.g_generation g)) /\
      (forall v', In (Some v') (Dashboard.merged retail gen) ->
                  Dashboard.period v' = k -> v' = v).
Proof.
  intros retail gen k Hr Hg.
  destruct (Inv_byPeriod retail gen) as [_ Hrows].
  destruct (map_get_in k (Dashboard.byPeriod retail gen)) as [v Hv].
  { apply keys_byPeriod. now left. }
  destruct (Hrows k v Hv) as (Hp & Hrf & Hgf).
  exists v. split; [|split; [exact Hp|split; [|split]]].
  - apply merged_rows. exists k. split; [|exact Hv].
    apply keys_byPeriod. now left.
  - destruct Hrf as [Hrf|[Hnone _]]; [exact Hrf|].
    apply in_map_iff in Hr as (r & Hrk & Hrin). now destruct (Hnone r Hrin).
  - destruct Hgf as [Hgf|[Hnone _]]; [exact Hgf|].
    apply in_map_iff in Hg as (g & Hgk & Hgin). now destruct (Hnone g Hgin).
  - intros v' Hin Hp'. apply merged_rows in Hin as (k' & _ & Hv').
    destruct (Hrows k' v' Hv') as (Hk' & _). congruence.
Qed.

Lemma merge_joins_common_periods_witness :
  exists v,
    In (Some v) (Dashboard.merged Series.retail_twice Series.gen_january) /\
    Dashboard.period v = "2021-01" /\
    (exists g, In g Series.gen_january /\ Dashboard.g_period g = "2021-01" /\
       Dashboard.generation v = Dashboard.nullish (Dashboard.g_generation g)).
Proof.
  destruct (merge_joins_common_periods Series.retail_twice Series.gen_january
              "2021-01") as (v & Hin & Hp & _ & Hg & _).
  - simpl. tauto.
  - simpl. tauto.
  - exists v. auto.
Defined.

(** X19. When a series has several rows for one period the last one
    wins: the merged row of that period holds the sales, revenue and price
    of the last retail row with it, and the generation of the last
    generation row with it. *)
Theorem merge_last_row_wins :
  forall (retail : list Dashboard.retail_row) (gen : list Dashboard.gen_row),
    (forall pre r post,
        retail = pre ++ r :: post ->
        (forall r', In r' post -> Dashboard.r_period r' <> Dashboard.r_period r) ->
        exists v,
          In (Some v) (Dashboard.merged retail gen) /\
          Dashboard.period v = Dashboard.r_period r /\
          Dashboard.sales v = Dashboard.nullish (Dashboard.r_sales r) /\
          Dashboard.revenue v = Dashboard.nullish (Dashboard.r_revenue r) /\
          Dashboard.price v = Dashboard.nullish (Dashboard.r_price r))
    /\
    (forall pre g post,
        gen = pre ++ g :: post ->
        (forall g', In g' post -> Dashboard.g_period g' <> Dashboard.g_period g) ->
        exists v,
          In (Some v) (Dashboard.merged retail gen) /\
          Dashboard.period v = Dashboard.g_period g /\
          Dashboard.generation v = Dashboard.nullish (Dashboard.g_generation g)).
Proof.
  intros retail gen. split.
  - intros pre r post -> Hlast.
    set (row := {| Dashboard.period := Dashboard.r_period r;
                   Dashboard.sales := Dashboard.nullish (Dashboard.r_sales r);
                   Dashboard.revenue := Dashboard.nullish (Dashboard.r_revenue r);
                   Dashboard.price := Dashboard.nullish (Dashboard.r_price r);
                   Dashboard.generation := JNull |}).
    assert (Hretail : Dashboard.map_get (Dashboard.r_period r)
                        (fold_left Dashboard.add_retail (pre ++ r :: post) [])
                      = Some row).
    { rewrite fold_left_app. simpl.
      rewrite fold_retail_untouched by exact Hlast.
      unfold Dashboard.add_retail. apply map_get_set_eq. }
    destruct (fold_gen_keeps_retail gen _ _ _ Hretail)
      as (v & Hv & Hp & Hs & Hrev & Hpr).
    exists v. split; [|now rewrite Hp, Hs, Hrev, Hpr].
    apply merged_rows. exists (Dashboard.r_period r). split; [|exact Hv].
    now apply map_get_keys in Hv.
  - intros pre g post -> Hlast.
    unfold Dashboard.byPeriod.
    assert (Hgen : exists v,
               Dashboard.map_get (Dashboard.g_period g)
                 (Dashboard.byPeriod retail (pre ++ g :: post)) = Some v /\
               Dashboard.generation v = Dashboard.nullish (Dashboard.g_generation g)).
    { unfold Dashboard.byPeriod. rewrite fold_left_app. simpl.
      rewrite fold_gen_untouched by exact Hlast.
      unfold Dashboard.add_gen. rewrite map_get_set_eq. eauto. }
    destruct Hgen as (v & Hv & Hg).
    destruct (Inv_byPeriod retail (pre ++ g :: post)) as [_ Hrows].
    destruct (Hrows _ _ Hv) as (Hp & _).
    exists v. split; [|split; [exact Hp|exact Hg]].
    apply merged_rows. exists (Dashboard.g_period g). split; [|exact Hv].
    now apply map_get_keys in Hv.
Qed.

Lemma merge_last_row_wins_witness :
  exists v,
    In (Some v) (Dashboard.merged Series.retail_twice Series.gen_january) /\
    Dashboard.period v = "2021-01" /\
    Dashboard.sales v = JInt 100 /\
    Dashboard.revenue v = JNull /\
    Dashboard.price v = JInt 12.
Proof.
  destruct (merge_last_row_wins Series.retail_twice Series.gen_january)
    as [Hretail _].
  apply (Hretail
           [{| Dashboard.r_period := "2021-01"; Dashboard.r_sales := Some (JInt 90);
               Dashboard.r_revenue := Some (JInt 9); Dashboard.r_price := None |};
            {| Dashboard.r_period := "2021-02"; Dashboard.r_sales := Some (JInt 80);
               Dashboard.r_revenue := None; Dashboard.r_price := None |}]
           {| Dashboard.r_period := "2021-01"; Dashboard.r_sales := Some (JInt 100);
              Dashboard.r_revenue := None; Dashboard.r_price := Some (JInt 12) |}
           []).
  - reflexivity.
  - intros r' [].
Defined.

(* ===================================================================== *)
(** * Further properties: the EIA helpers and the facet fallback          *)
(* ===================================================================== *)

Section EiaHelpers.
Import Run Eia.

Lemma dict_set_keys_in k v (d : dict) k' :
  In k' (map fst (dict_set k v d)) <-> k' = k \/ In k' (map fst d).
Proof.
  induction d as [|[k0 v0] d IH]; simpl.
  - intuition.
  - destruct (String.eqb_spec k k0) as [->|Hne]; simpl.
    + intuition.
    + rewrite IH. intuition.
Qed.

Lemma dict_set_keys_NoDup k v (d : dict) :
  NoDup (map fst d) -> NoDup (map fst (dict_set k v d)).
Proof.
  induction d as [|[k0 v0] d IH]; simpl; intros H.
  - repeat constructor. intros [].
  - destruct (String.eqb_spec k k0) as [->|Hne]; simpl; [exact H|].
    inversion H as [|? ? Hnotin Hnd]; subst. constructor.
    + rewrite dict_set_keys_in. intros [E|Hin]; [congruence|contradiction].
    + now apply IH.
Qed.

(** The loop of [infer_units], all fields having units to read. *)
Lemma units_loop_done (meta_ : json) (U : string -> json) (fields : list string) :
  (forall f, In f fields -> units_of meta_ f = Done (U f)) ->
  forall out,
    units_loop meta_ fields out
    = Done (fold_left (fun o f => dict_set f (U f) o) fields out).
Proof.
  induction fields as [|f fields IH]; intros H out; simpl; [reflexivity|].
  rewrite (H f) by now left. apply IH. intros g Hg. apply H. now right.
Qed.

Lemma fold_units_get (U : string -> json) (fields : list string) :
  forall out f,
    dict_get f (fold_left (fun o g => dict_set g (U g) o) fields out)
    = if mem_string f fields then Some (U f) else dict_get f out.
Proof.
  induction fields as [|g fields IH]; intros out f; simpl; [reflexivity|].
  rewrite IH. destruct (mem_string f fields) eqn:E.
  - now rewrite orb_true_r.
  - rewrite orb_false_r. destruct (String.eqb_spec f g) as [->|Hne].
    + apply dict_get_set_eq.
    + apply dict_get_set_ne. congruence.
Qed.

Lemma fold_units_keys (U : string -> json) (fields : list string) :
  forall out f,
    In f (map fst (fold_left (fun o g => dict_set g (U g) o) fields out))
    <-> In f (map fst out) \/ In f fields.
Proof.
  induction fields as [|g fields IH]; intros out f; simpl; [tauto|].
  rewrite IH, dict_set_keys_in. intuition.
Qed.

Lemma fold_units_NoDup (U : string -> json) (fields : list string) :
  forall out, NoDup (map fst out) ->
    NoDup (map fst (fold_left (fun o g => dict_set g (U g) o) fields out)).
Proof.
  induction fields as [|g fields IH]; intros out H; simpl; [exact H|].
  apply IH. now apply dict_set_keys_NoDup.
Qed.

(** [{"api_key": key, **params}] holds every parameter of the caller. *)
Lemma with_key_get (api_key : string) (params : dict) :
  NoDup (map fst params) ->
  (forall k v, In (k, v) params ->
               dict_get k (with_key api_key params) = Some v) /\
  (~ In "api_key" (map fst params) ->
   dict_get "api_key" (with_key api_key params) = Some (JStr api_key)).
Proof.
  unfold with_key.
  induction params as [|[k0 v0] params IH] using rev_ind; intros Hnd.
  - split; [intros k v []|reflexivity].
  - rewrite map_app in Hnd. simpl in Hnd.
    apply NoDup_remove in Hnd as [Hnd Hnotin]. rewrite app_nil_r in Hnd, Hnotin.
    destruct (IH Hnd) as [IHget IHkey].
    rewrite fold_left_app. simpl. split.
    + intros k v Hin. apply in_app_iff in Hin as [Hin|[[= <- <-]|[]]].
      * rewrite dict_get_set_ne; [now apply IHget|].
        intros ->. apply Hnotin. apply in_map_iff. now exists (k, v).
      * apply dict_get_set_eq.
    + intros Hno. rewrite map_app, in_app_iff in Hno. simpl in Hno.
      rewrite dict_get_set_ne by (intros ->; tauto).
      apply IHkey. tauto.
Qed.

(** One call, one request, whatever the answer. *)
Lemma http_get_json_world (srv : server) (url_ : string) (params : dict) (w : world) :
  snd (http_get_json srv url_ params w)
  = w ++ [{| url := url_; query := params |}].
Proof.
  unfold http_get_json.
  destruct (srv _ _) as [e|status [data|]]; simpl; auto;
    destruct (Crash.bad_status status); reflexivity.
Qed.

End EiaHelpers.

(** X20. [infer_units] fetches the metadata once, however many fields
    are asked for.  When the metadata has a data section, it returns one
    entry per distinct field and no other: the units the section gives
    for the field, and the empty string for a field it does not list or
    lists without units. *)
Theorem infer_units_entries :
  forall (srv : Eia.server) (route api_key : string) (fields : list string)
         (w w' : Eia.world) (doc resp data : dict),
    Eia.http_get_json srv (Eia.EIA_BASE ++ "/" ++ route ++ "/")%string
      [("api_key", JStr api_key)] w
    = (Run.Done (JObj doc), w') ->
    dict_get "response" doc = Some (JObj resp) ->
    dict_get "data" resp = Some (JObj data) ->
    (forall f, In f fields ->
               dict_get f data = None \/ exists fd, dict_get f data = Some (JObj fd)) ->
    exists out,
      Eia.infer_units srv route api_key fields w = (Run.Done out, w') /\
      w' = w ++ [{| Eia.url := (Eia.EIA_BASE ++ "/" ++ route ++ "/")%string;
                    Eia.query := [("api_key", JStr api_key)] |}] /\
      (forall f, In f (map fst out) <-> In f fields) /\
      NoDup (map fst out) /\
      (forall f, In f fields -> dict_get f out = Some (Metadata.units_in data f)).
Proof.
  intros srv route api_key fields w w' doc resp data Hget Hresp Hdata Hfields.
  assert (Hmeta : Eia.or_else (JObj resp) (JObj []) = JObj resp).
  { unfold Eia.or_else. destruct resp; [discriminate|reflexivity]. }
  assert (Hunits : forall f, In f fields ->
            Eia.units_of (JObj resp) f = Run.Done (Metadata.units_in data f)).
  { intros f Hf. unfold Eia.units_of, Metadata.units_in. simpl. rewrite Hdata.
    simpl. destruct (Hfields f Hf) as [->|[fd ->]]; [reflexivity|].
    unfold Eia.or_else. destruct fd; reflexivity. }
  exists (fold_left (fun o f => dict_set f (Metadata.units_in data f) o) fields []).
  split; [|split; [|split; [|split]]].
  - unfold Eia.infer_units, Eia.eia_metadata, Eia.bind, Eia.lift.
    rewrite Hget. simpl. rewrite Hresp, Hmeta.
    now rewrite (units_loop_done _ _ _ Hunits).
  - pose proof (http_get_json_world srv
                  (Eia.EIA_BASE ++ "/" ++ route ++ "/")%string
                  [("api_key", JStr api_key)] w) as Hw.
    now rewrite Hget in Hw.
  - intros f. rewrite fold_units_keys. simpl. tauto.
  - apply fold_units_NoDup. constructor.
  - intros f Hf. rewrite fold_units_get.
    now rewrite (proj2 (mem_string_iff f fields) Hf).
Qed.

Lemma infer_units_entries_witness :
  exists out,
    Eia.infer_units Metadata.retail_service "electricity/retail-sales" "KEY"
      ["sales"; "revenue"; "price"; "sales"] []
    = (Run.Done out,
       [{| Eia.url := "https://api.eia.gov/v2/electricity/retail-sales/";
           Eia.query := [("api_key", JStr "KEY")] |}]) /\
    dict_get "sales" out = Some (JStr "million kilowatt hours") /\
    dict_get "revenue" out = Some (JStr "") /\
    dict_get "price" out = Some (JStr "") /\
    List.length out = 3%nat.
Proof.
  destruct (infer_units_entries Metadata.retail_service "electricity/retail-sales"
              "KEY" ["sales"; "revenue"; "price"; "sales"] []
              [{| Eia.url := "https://api.eia.gov/v2/electricity/retail-sales/";
                  Eia.query := [("api_key", JStr "KEY")] |}]
              [("response",
                JObj [("id", JStr "retail-sales");
                      ("data",
                       JObj [("sales", JObj [("units", JStr "million kilowatt hours")]);
                             ("price", JObj [("alias", JStr "Average price")])])])]
              [("id", JStr "retail-sales");
               ("data",
                JObj [("sales", JObj [("units", JStr "million kilowatt hours")]);
                      ("price", JObj [("alias", JStr "Average price")])])]
              [("sales", JObj [("units", JStr "million kilowatt hours")]);
               ("price", JObj [("alias", JStr "Average price")])])
    as (out & Hrun & _ & Hkeys & Hnd & Hval); try reflexivity.
  - intros f [<-|[<-|[<-|[<-|[]]]]]; simpl; eauto.
  - exists out. split; [exact Hrun|].
    rewrite !Hval by (simpl; tauto).
    repeat split.
    injection Hrun as Hout. rewrite <- Hout. reflexivity.
Defined.

(** X21. [infer_units] gives up with an [AttributeError] on a metadata
    document whose data section is null when a field is asked for, and
    returns no entry without looking at it when no field is asked for. *)
Theorem infer_units_null_data :
  forall (srv : Eia.server) (route api_key : string) (w w' : Eia.world)
         (doc resp : dict),
    Eia.http_get_json srv (Eia.EIA_BASE ++ "/" ++ route ++ "/")%string
      [("api_key", JStr api_key)] w = (Run.Done (JObj doc), w') ->
    dict_get "response" doc = Some (JObj resp) ->
    dict_get "data" resp = Some JNull ->
    Eia.infer_units srv route api_key [] w = (Run.Done [], w') /\
    forall f fields,
      Eia.infer_units srv route api_key (f :: fields) w = (Run.Fails Eia.NoGet, w').
Proof.
  intros srv route api_key w w' doc resp Hget Hresp Hdata.
  assert (Hmeta : Eia.or_else (JObj resp) (JObj []) = JObj resp).
  { unfold Eia.or_else. destruct resp; [discriminate|reflexivity]. }
  unfold Eia.infer_units, Eia.eia_metadata, Eia.bind, Eia.lift.
  rewrite Hget. simpl. rewrite Hresp, Hmeta. split; [reflexivity|].
  intros f fields. simpl. unfold Eia.units_of. simpl. now rewrite Hdata.
Qed.

Lemma infer_units_null_data_witness :
  Eia.infer_units
    (fun _ _ => Crash.Response 200
                  (Some (JObj [("response", JObj [("data", JNull)])])))
    "r" "KEY" ["sales"] []
  = (Run.Fails Eia.NoGet,
     [{| Eia.url := "https://api.eia.gov/v2/r/"; Eia.query := [("api_key", JStr "KEY")] |}]).
Proof.
  apply (infer_units_null_data _ "r" "KEY" [] _
           [("response", JObj [("data", JNull)])] [("data", JNull)]);
    reflexivity.
Defined.

(** X22. What [eia_data] makes of the answer: without a response section
    the rows are the empty list; with one, a data section that is
    missing, null or empty gives the empty list and a non-empty one is
    returned as it is; a null response section is an [AttributeError]. *)
Theorem eia_data_rows :
  forall (srv : Eia.server) (route api_key : string) (params : dict)
         (w w' : Eia.world) (doc : dict),
    Eia.http_get_json srv (Eia.EIA_BASE ++ "/" ++ route ++ "/data/")%string
      (Eia.with_key api_key params) w = (Run.Done (JObj doc), w') ->
    (dict_get "response" doc = None ->
     Eia.eia_data srv route api_key params w
     = (Run.Done {| Eia.route := route; Eia.rows := JArr []; Eia.meta := JObj [] |},
        w'))
    /\
    (dict_get "response" doc = Some JNull ->
     Eia.eia_data srv route api_key params w = (Run.Fails Eia.NoGet, w'))
    /\
    (forall resp,
        dict_get "response" doc = Some (JObj resp) ->
        (dict_get "data" resp = None \/ dict_get "data" resp = Some JNull \/
         dict_get "data" resp = Some (JArr []) ->
         Eia.eia_data srv route api_key params w
         = (Run.Done {| Eia.route := route; Eia.rows := JArr [];
                        Eia.meta := JObj resp |}, w'))
        /\
        (forall r rs,
            dict_get "data" resp = Some (JArr (r :: rs)) ->
            Eia.eia_data srv route api_key params w
            = (Run.Done {| Eia.route := route; Eia.rows := JArr (r :: rs);
                           Eia.meta := JObj resp |}, w'))).
Proof.
  intros srv route api_key params w w' doc Hget.
  unfold Eia.eia_data, Eia.bind, Eia.lift, Eia.ret. rewrite Hget. simpl.
  split; [|split].
  - now intros ->.
  - now intros ->.
  - intros resp ->. simpl. split.
    + intros [-> | [-> | ->]]; reflexivity.
    + intros r rs ->. reflexivity.
Qed.

Lemma eia_data_rows_witness :
  Eia.eia_data Metadata.no_response "electricity/retail-sales" "KEY" [] []
  = (Run.Done {| Eia.route := "electricity/retail-sales"; Eia.rows := JArr [];
                 Eia.meta := JObj [] |},
     [{| Eia.url := "https://api.eia.gov/v2/electricity/retail-sales/data/";
         Eia.query := [("api_key", JStr "KEY")] |}])
  /\
  Eia.eia_data Metadata.null_response "electricity/retail-sales" "KEY" [] []
  = (Run.Fails Eia.NoGet,
     [{| Eia.url := "https://api.eia.gov/v2/electricity/retail-sales/data/";
         Eia.query := [("api_key", JStr "KEY")] |}]).
Proof.
  destruct (eia_data_rows Metadata.no_response "electricity/retail-sales" "KEY" [] []
              [{| Eia.url := "https://api.eia.gov/v2/electricity/retail-sales/data/";
                  Eia.query := [("api_key", JStr "KEY")] |}]
              [("request", JNull)] eq_refl) as (Hmissing & _ & _).
  destruct (eia_data_rows Metadata.null_response "electricity/retail-sales" "KEY" [] []
              [{| Eia.url := "https://api.eia.gov/v2/electricity/retail-sales/data/";
                  Eia.query := [("api_key", JStr "KEY")] |}]
              [("response", JNull)] eq_refl) as (_ & Hnull & _).
  split; [now apply Hmissing|now apply Hnull].
Defined.

(** X23. [eia_data] sends exactly one request, to the route's [data/]
    address, whatever the answer.  Its query holds every parameter of the
    caller with the caller's value, and the API key unless the caller
    passed an [api_key] parameter of its own, which then takes its
    place. *)
Theorem eia_data_request :
  forall (srv : Eia.server) (route api_key : string) (params : dict)
         (w : Eia.world),
    NoDup (map fst params) ->
    exists q,
      snd (Eia.eia_data srv route api_key params w)
      = w ++ [{| Eia.url := (Eia.EIA_BASE ++ "/" ++ route ++ "/data/")%string;
                 Eia.query := q |}] /\
      (forall k v, In (k, v) params -> dict_get k q = Some v) /\
      (~ In "api_key" (map fst params) ->
       dict_get "api_key" q = Some (JStr api_key)).
Proof.
  intros srv route api_key params w Hnd.
  exists (Eia.with_key api_key params). split; [|now apply with_key_get].
  unfold Eia.eia_data, Eia.bind, Eia.lift, Eia.ret.
  pose proof (http_get_json_world srv
                (Eia.EIA_BASE ++ "/" ++ route ++ "/data/")%string
                (Eia.with_key api_key params) w) as Hw.
  destruct (Eia.http_get_json _ _ _ w) as [[payload|e] w1]; simpl in *; auto.
  destruct (Eia.dget "response" (JObj []) payload) as [resp|e]; simpl; auto.
  destruct (Eia.dget "data" (JArr []) resp); simpl; auto.
Qed.

Lemma eia_data_request_witness :
  exists q,
    snd (Eia.eia_data Metadata.no_response "electricity/retail-sales" "KEY"
           [("frequency", JStr "monthly"); ("length", JInt 5000)] [])
    = [] ++ [{| Eia.url := "https://api.eia.gov/v2/electricity/retail-sales/data/";
                Eia.query := q |}] /\
    dict_get "length" q = Some (JInt 5000) /\
    dict_get "api_key" q = Some (JStr "KEY").
Proof.
  destruct (eia_data_request Metadata.no_response "electricity/retail-sales" "KEY"
              [("frequency", JStr "monthly"); ("length", JInt 5000)] [])
    as (q & Hw & Hparams & Hkey).
  - repeat constructor; simpl; intuition discriminate.
  - exists q. split; [exact Hw|]. split.
    + apply Hparams. simpl. tauto.
    + apply Hkey. simpl. intuition discriminate.
Defined.

Section FacetFallback.
Import Run Eia.

Lemma falsy_false_nonempty (v : option string) :
  falsy v = false -> exists s, v = Some s /\ s <> "".
Proof.
  destruct v as [s|]; simpl; [|discriminate].
  intros H. exists s. split; [reflexivity|]. now apply String.eqb_neq.
Qed.

Lemma first_id_from (vals : list Electric.facet) (s : string) :
  first_id vals = Some s ->
  exists c, In c vals /\ str_of (Electric.f_id c) = s.
Proof.
  destruct vals as [|c rest]; simpl; [discriminate|].
  intros [= <-]. exists c. auto.
Qed.

(** The identifier settled on for a sector or a fuel: the chosen one, or
    that of the first entry. *)
Lemma settled_id (vals : list Electric.facet) (chosen : option string) (s : string) :
  (forall x, chosen = Some x -> exists c, In c vals /\ Electric.f_id c = Some x) ->
  (if falsy chosen then first_id vals else chosen) = Some s ->
  exists c, In c vals /\ str_of (Electric.f_id c) = s.
Proof.
  intros Hfrom H. destruct (falsy chosen) eqn:E.
  - now apply first_id_from.
  - destruct (Hfrom s H) as (c & Hc & Hid). exists c. split; [exact Hc|].
    now rewrite Hid.
Qed.

End FacetFallback.

(** X24. When the facet resolution of [main] succeeds, none of the three
    identifiers it hands to the data query is empty; the location is the
    [id] of a listed location, and the sector and the fuel are each the
    [id] of a listed entry, written as text. *)
Theorem resolve_facets_sound :
  forall (loc_vals sec_vals fuel_vals : list Electric.facet)
         (location sector fuel : string),
    Eia.resolve_facets loc_vals sec_vals fuel_vals
    = Run.Done (location, sector, fuel) ->
    location <> "" /\ sector <> "" /\ fuel <> "" /\
    (exists c, In c loc_vals /\ Electric.f_id c = Some location) /\
    (exists c, In c sec_vals /\ Eia.str_of (Electric.f_id c) = sector) /\
    (exists c, In c fuel_vals /\ Eia.str_of (Electric.f_id c) = fuel).
Proof.
  intros loc_vals sec_vals fuel_vals location sector fuel.
  unfold Eia.resolve_facets.
  set (cl := Electric.choose_facet_id loc_vals _ _).
  set (cs := Electric.choose_facet_id sec_vals _ _).
  set (cf := Electric.choose_facet_id fuel_vals _ _).
  assert (Hfrom : forall vals p n x,
             Electric.choose_facet_id vals p n = Some x ->
             exists c, In c vals /\ Electric.f_id c = Some x).
  { intros vals p n x H.
    destruct (choose_facet_id_from_candidate vals p n x H) as (c & Hc & Hid & _).
    eauto. }
  destruct (Eia.falsy cl) eqn:El; [discriminate|].
  destruct (Eia.falsy (if Eia.falsy cs then Eia.first_id sec_vals else cs)) eqn:Es;
    [discriminate|].
  destruct (Eia.falsy (if Eia.falsy cf then Eia.first_id fuel_vals else cf)) eqn:Ef;
    [discriminate|].
  simpl. intros [= <- <- <-].
  destruct (falsy_false_nonempty _ El) as (l & Hl & Hlne).
  destruct (falsy_false_nonempty _ Es) as (s & Hs & Hsne).
  destruct (falsy_false_nonempty _ Ef) as (f & Hf & Hfne).
  rewrite Hl, Hs, Hf. simpl.
  repeat split; auto.
  - apply (Hfrom _ _ _ _ Hl).
  - apply (settled_id sec_vals cs s); [apply Hfrom|exact Hs].
  - apply (settled_id fuel_vals cf f); [apply Hfrom|exact Hf].
Qed.

Lemma resolve_facets_sound_witness :
  Eia.resolve_facets Metadata.locations Metadata.sectors Metadata.fuels
  = Run.Done ("AZ", "None", "ALL")
  /\ "None" <> "".
Proof.
  split; [reflexivity|].
  apply (resolve_facets_sound Metadata.locations Metadata.sectors Metadata.fuels
           "AZ" "None" "ALL").
  reflexivity.
Defined.

(** X25. The fallback policy of [main].  An unresolved location stops the
    generation query whatever the sector and fuel listings hold.  With
    the location resolved, a sector for which nothing is preferred falls
    back to the first listed entry: its [id], or the text ["None"] when
    the entry has none; with an empty sector listing the query is
    given up. *)
Theorem resolve_facets_fallback :
  forall (loc_vals sec_vals fuel_vals : list Electric.facet),
    (Eia.falsy (Electric.choose_facet_id loc_vals ["AZ"; "US-AZ"; "ARIZONA"]
                  ["arizona"; "(az)"; " az "]) = true ->
     Eia.resolve_facets loc_vals sec_vals fuel_vals
     = Run.Fails Eia.LocationUnresolved)
    /\
    (forall location fuel,
        Electric.choose_facet_id loc_vals ["AZ"; "US-AZ"; "ARIZONA"]
          ["arizona"; "(az)"; " az "] = Some location ->
        location <> "" ->
        Electric.choose_facet_id fuel_vals ["ALL"; "TOTAL"; "TOT"] ["all"; "total"]
        = Some fuel ->
        fuel <> "" ->
        Electric.choose_facet_id sec_vals ["ALL"; "TOTAL"; "TOT"] ["all"; "total"]
        = None ->
        match sec_vals with
        | [] => Eia.resolve_facets loc_vals sec_vals fuel_vals
                = Run.Fails Eia.FacetsUnresolved
        | c :: _ =>
            Electric.f_id c <> Some "" ->
            Eia.resolve_facets loc_vals sec_vals fuel_vals
            = Run.Done (location, Eia.str_of (Electric.f_id c), fuel)
        end).
Proof.
  intros loc_vals sec_vals fuel_vals. unfold Eia.resolve_facets. split.
  - now intros ->.
  - intros location fuel -> Hl -> Hf ->.
    assert (Hne : forall s, s <> "" -> String.eqb s "" = false)
      by (intros s; apply String.eqb_neq).
    simpl. rewrite (Hne _ Hl), (Hne _ Hf).
    destruct sec_vals as [|c rest]; simpl; [reflexivity|].
    intros Hc. destruct (Electric.f_id c) as [s|]; simpl.
    + rewrite (Hne s) by congruence. simpl. now rewrite (Hne _ Hf).
    + now rewrite (Hne _ Hf).
Qed.

Lemma resolve_facets_fallback_witness :
  Eia.resolve_facets [Examples.only_id "CA"] Metadata.sectors Metadata.fuels
  = Run.Fails Eia.LocationUnresolved
  /\
  Eia.resolve_facets Metadata.locations Metadata.sectors Metadata.fuels
  = Run.Done ("AZ", "None", "ALL")
  /\
  Eia.resolve_facets Metadata.locations [] Metadata.fuels
  = Run.Fails Eia.FacetsUnresolved.
Proof.
  destruct (resolve_facets_fallback [Examples.only_id "CA"] Metadata.sectors
              Metadata.fuels) as [Hloc _].
  destruct (resolve_facets_fallback Metadata.locations Metadata.sectors
              Metadata.fuels) as [_ Hsec].
  destruct (resolve_facets_fallback Metadata.locations [] Metadata.fuels)
    as [_ Hnone].
  split; [|split].
  - apply Hloc. reflexivity.
  - apply (Hsec "AZ" "ALL"); try reflexivity; discriminate.
  - apply (Hnone "AZ" "ALL"); try reflexivity; discriminate.
Defined.

(* ===================================================================== *)
(** * Further properties: wildfire_report.py                              *)
(* ===================================================================== *)

Section Strip.

Lemma lstrip_head (s : string) :
  lstrip s = EmptyString \/
  exists c r, lstrip s = String c r /\ is_space c = false.
Proof.
  induction s as [|c s IH]; simpl; [now left|].
  destruct (is_space c) eqn:E; [exact IH|].
  right. exists c, s. auto.
Qed.

Lemma rstrip_idem (s : string) : rstrip (rstrip s) = rstrip s.
Proof.
  induction s as [|c s IH]; simpl; [reflexivity|].
  destruct (is_space c && String.eqb (rstrip s) "") eqn:E; [reflexivity|].
  simpl. now rewrite IH, E.
Qed.

Lemma lstrip_rstrip (c : ascii) (r : string) :
  is_space c = false -> lstrip (rstrip (String c r)) = rstrip (String c r).
Proof. intros H. simpl. rewrite H. simpl. now rewrite H. Qed.

Lemma strip_idem (s : string) : strip (strip s) = strip s.
Proof.
  unfold strip.
  destruct (lstrip_head s) as [->|(c & r & -> & Hc)]; [reflexivity|].
  now rewrite lstrip_rstrip, rstrip_idem.
Qed.

Lemma stripped_some (o : option string) (k : string) :
  Firms.stripped o = Some k -> k <> "" /\ strip k = k.
Proof.
  destruct o as [s|]; simpl; [|discriminate].
  destruct (String.eqb_spec (strip s) "") as [E|Hne]; [discriminate|].
  intros [= <-]. split; [exact Hne|apply strip_idem].
Qed.

Lemma stripped_none (o : option string) :
  Firms.stripped o = None <-> Keys.blank o.
Proof.
  unfold Keys.blank. destruct o as [s|]; simpl.
  - destruct (String.eqb_spec (strip s) "") as [E|Hne]; split; auto.
    + intros _ s' [= <-]. exact E.
    + discriminate.
    + intros H. now specialize (H s eq_refl).
  - split; [intros _ s; discriminate|reflexivity].
Qed.

End Strip.

Lemma load_map_key_key getenv files cli_key key_file k :
  Firms.load_map_key getenv files cli_key key_file = Run.Done k ->
  k <> "" /\ strip k = k.
Proof.
  unfold Firms.load_map_key.
  destruct (Firms.stripped cli_key) as [k1|] eqn:E1;
    [intros [= <-]; now apply (stripped_some cli_key)|].
  destruct (Firms.stripped (Firms.or_str _ _)) as [k2|] eqn:E2;
    [intros [= <-]; now apply (stripped_some _ _ E2)|].
  destruct (files _) as [|s|e]; try discriminate.
  destruct (Firms.stripped (Some s)) as [k3|] eqn:E3;
    [intros [= <-]; now apply (stripped_some _ _ E3)|].
  discriminate.
Qed.

(** Why the key loader fails: no key anywhere, or a key file that cannot
    be read. *)
Lemma load_map_key_failure getenv files cli_key key_file e :
  Firms.load_map_key getenv files cli_key key_file = Run.Fails e ->
  Keys.blank cli_key /\
  Keys.blank (Firms.or_str (getenv "FIRMS_MAP_KEY") (getenv "MAP_KEY")) /\
  match files (match Wildfire.nonempty key_file with
               | Some f => f
               | None => "MAP_KEY"
               end) with
  | Firms.NoFile => e = Firms.MapKeyNotFound
  | Firms.Text s => strip s = "" /\ e = Firms.MapKeyNotFound
  | Firms.Unreadable x => e = Firms.ReadError x
  end.
Proof.
  unfold Firms.load_map_key.
  destruct (Firms.stripped cli_key) eqn:E1; [discriminate|].
  destruct (Firms.stripped (Firms.or_str _ _)) eqn:E2; [discriminate|].
  apply stripped_none in E1, E2.
  destruct (files _) as [|s|x].
  - intros [= <-]. auto.
  - destruct (Firms.stripped (Some s)) eqn:E3; [discriminate|].
    apply stripped_none in E3. intros [= <-]. split; [exact E1|].
    split; [exact E2|]. split; [now apply E3|reflexivity].
  - intros [= <-]. auto.
Qed.

(** X26. A key that [load_map_key] returns is never empty and has no
    white space around it.  When it raises, the command line and the
    [FIRMS_MAP_KEY] variable hold no key, and the [MAP_KEY] variable holds
    none either unless [FIRMS_MAP_KEY] is set to something non-empty; as
    for the key file, it is missing or blank, and the error is the
    [RuntimeError] of the loader, or it cannot be read, and the error is
    the one [read_text] raised. *)
Theorem load_map_key_result :
  forall (getenv : string -> option string) (files : string -> Firms.file)
         (cli_key key_file : option string),
    match Firms.load_map_key getenv files cli_key key_file with
    | Run.Done k => k <> "" /\ strip k = k
    | Run.Fails e =>
        Keys.blank cli_key /\
        Keys.blank (getenv "FIRMS_MAP_KEY") /\
        (Wildfire.nonempty (getenv "FIRMS_MAP_KEY") = None ->
         Keys.blank (getenv "MAP_KEY")) /\
        match files (match Wildfire.nonempty key_file with
                     | Some f => f
                     | None => "MAP_KEY"
                     end) with
        | Firms.NoFile => e = Firms.MapKeyNotFound
        | Firms.Text s => strip s = "" /\ e = Firms.MapKeyNotFound
        | Firms.Unreadable x => e = Firms.ReadError x
        end
    end.
Proof.
  intros getenv files cli_key key_file.
  destruct (Firms.load_map_key getenv files cli_key key_file) as [k|e] eqn:E.
  - now apply load_map_key_key in E.
  - apply load_map_key_failure in E as (E1 & E2 & E3).
    split; [exact E1|]. unfold Firms.or_str in E2.
    split; [|split; [|exact E3]].
    + intros s Hs. rewrite Hs in E2. unfold Wildfire.nonempty in E2.
      destruct (String.eqb s "") eqn:Es.
      * apply String.eqb_eq in Es. now subst s.
      * now apply E2.
    + intros En. now rewrite En in E2.
Qed.

Lemma load_map_key_result_witness :
  ("fk" <> "" /\ strip "fk" = "fk")
  /\
  (Keys.blank (Some "  ") /\
   Keys.blank (Keys.empty_env "FIRMS_MAP_KEY") /\
   (Wildfire.nonempty (Keys.empty_env "FIRMS_MAP_KEY") = None ->
    Keys.blank (Keys.empty_env "MAP_KEY")) /\
   Firms.ReadError UnicodeDecodeError = Firms.ReadError UnicodeDecodeError).
Proof.
  split.
  - exact (load_map_key_result Keys.masked_env Keys.key_file None None).
  - exact (load_map_key_result Keys.empty_env Keys.utf16_key_file (Some "  ") None).
Defined.

(** X27. The order of the key sources.  A non-blank command-line key is
    returned whatever the environment and the files hold; failing that, a
    non-blank environment key is returned whatever the files hold; and
    once [FIRMS_MAP_KEY] is set to something non-empty, blanks included,
    [MAP_KEY] plays no part in the result. *)
Theorem load_map_key_precedence :
  forall (getenv : string -> option string) (files : string -> Firms.file)
         (cli_key key_file : option string),
    (forall k, Firms.stripped cli_key = Some k ->
               Firms.load_map_key getenv files cli_key key_file = Run.Done k)
    /\
    (forall k, Keys.blank cli_key ->
               Firms.stripped (Firms.or_str (getenv "FIRMS_MAP_KEY")
                                            (getenv "MAP_KEY")) = Some k ->
               Firms.load_map_key getenv files cli_key key_file = Run.Done k)
    /\
    (forall getenv' s,
        getenv "FIRMS_MAP_KEY" = Some s -> s <> "" ->
        getenv' "FIRMS_MAP_KEY" = Some s ->
        Firms.load_map_key getenv' files cli_key key_file
        = Firms.load_map_key getenv files cli_key key_file).
Proof.
  intros getenv files cli_key key_file. unfold Firms.load_map_key.
  split; [|split].
  - now intros k ->.
  - intros k Hblank ->. apply stripped_none in Hblank. now rewrite Hblank.
  - intros getenv' s H Hs H'. unfold Firms.or_str, Wildfire.nonempty.
    rewrite H, H'. apply String.eqb_neq in Hs. now rewrite Hs.
Qed.

Lemma load_map_key_precedence_witness :
  Firms.load_map_key Keys.masked_env Keys.key_file (Some " cli-key ") None
  = Run.Done "cli-key"
  /\
  Firms.load_map_key Keys.masked_env Keys.key_file None None = Run.Done "fk"
  /\
  Firms.load_map_key Keys.masked_env Keys.no_files None None
  = Firms.load_map_key
      (fun name => if String.eqb name "FIRMS_MAP_KEY" then Some "  " else None)
      Keys.no_files None None.
Proof.
  destruct (load_map_key_precedence Keys.masked_env Keys.key_file
              (Some " cli-key ") None) as (Hcli & _ & _).
  destruct (load_map_key_precedence
              (fun name => if String.eqb name "FIRMS_MAP_KEY" then Some "  " else None)
              Keys.no_files None None) as (_ & _ & Hmask).
  split; [|split].
  - apply Hcli. reflexivity.
  - reflexivity.
  - apply (Hmask Keys.masked_env "  "); try reflexivity. discriminate.
Defined.

Section Intensity.
Import Run Firms.

Lemma has_column_iff c (df : schema) : has_column c df = true <-> In c (map fst df).
Proof. apply mem_string_iff. Qed.

Lemma choose_intensity_column_find (df : schema) :
  choose_intensity_column df
  = match find (fun col => has_column col df)
            ["frp"; "brightness"; "bright_ti4"; "bright_ti5"; "confidence"] with
    | Some col => Done col
    | None =>
        match map fst (filter snd df) with
        | [] => Fails NoNumericColumns
        | c :: _ => Done c
        end
    end.
Proof.
  unfold choose_intensity_column. simpl.
  destruct (has_column "frp" df); [reflexivity|].
  destruct (has_column "brightness" df); [reflexivity|].
  destruct (has_column "bright_ti4" df); [reflexivity|].
  destruct (has_column "bright_ti5" df); [reflexivity|].
  destruct (has_column "confidence" df); reflexivity.
Qed.

Lemma filter_snd_in (df : schema) c :
  In c (map fst (filter snd df)) -> In c (map fst df).
Proof.
  intros H. apply in_map_iff in H as ([c' b] & <- & Hin).
  apply filter_In in Hin as [Hin _]. apply in_map_iff. now exists (c', b).
Qed.

Lemma filter_first_such {A} (test : A -> bool) (l : list A) (f : A) :
  first_such (fun x => test x = true) l f ->
  exists rest, filter test l = f :: rest.
Proof.
  intros (pre & post & -> & Hf & Hpre).
  induction pre as [|g pre IH]; simpl.
  - rewrite Hf. eauto.
  - destruct (test g) eqn:E.
    + exfalso. now apply (Hpre g); [left|].
    + apply IH. intros h Hh. apply Hpre. now right.
Qed.

End Intensity.

(** X28. The intensity column.  The first of [frp], [brightness],
    [bright_ti4], [bright_ti5], [confidence] that the frame has is chosen,
    wherever it stands among the columns.  When the frame has none of the
    five, its first numeric column is chosen.  Whatever is chosen is a
    column of the frame.  The choice fails exactly when the frame has none
    of the five and no numeric column. *)
Theorem choose_intensity_column_choice :
  forall (df : Firms.schema),
    (forall c,
        first_such (fun c' => In c' (map fst df))
          ["frp"; "brightness"; "bright_ti4"; "bright_ti5"; "confidence"] c ->
        Firms.choose_intensity_column df = Run.Done c)
    /\
    (forall c,
        (forall c', In c' ["frp"; "brightness"; "bright_ti4"; "bright_ti5"; "confidence"] ->
                    ~ In c' (map fst df)) ->
        first_such (fun col => snd col = true) df (c, true) ->
        Firms.choose_intensity_column df = Run.Done c)
    /\
    (forall c, Firms.choose_intensity_column df = Run.Done c -> In c (map fst df))
    /\
    (Firms.choose_intensity_column df = Run.Fails Firms.NoNumericColumns <->
     (forall c, In c ["frp"; "brightness"; "bright_ti4"; "bright_ti5"; "confidence"] ->
                ~ In c (map fst df)) /\
     (forall c, ~ In (c, true) df)).
Proof.
  intros df. rewrite choose_intensity_column_find. split; [|split; [|split]].
  - intros c Hc.
    now rewrite (find_first_such _ _ _ c (fun g => has_column_iff g df) Hc).
  - intros c Hnone Hc.
    rewrite (find_none_iff _ _ _ (fun g => has_column_iff g df) Hnone).
    destruct (filter_first_such snd df (c, true) Hc) as (rest & ->).
    reflexivity.
  - intros c.
    destruct (find _ _) as [col|] eqn:E.
    + intros [= <-]. apply find_some in E as [_ E]. now apply has_column_iff.
    + destruct (map fst (filter snd df)) as [|c0 rest] eqn:Ef; [discriminate|].
      intros [= <-]. apply filter_snd_in. rewrite Ef. now left.
  - split.
    + destruct (find _ _) as [col|] eqn:E; [discriminate|].
      destruct (map fst (filter snd df)) as [|c0 rest] eqn:Ef; [|discriminate].
      intros _. split.
      * intros c Hc Hin.
        pose proof (find_none _ _ E c Hc) as Hf. cbv beta in Hf.
        apply has_column_iff in Hin. congruence.
      * intros c Hin.
        assert (Hm : In c (map fst (filter snd df))).
        { apply in_map_iff. exists (c, true). split; [reflexivity|].
          apply filter_In. auto. }
        now rewrite Ef in Hm.
    + intros [Hnone Hnum].
      rewrite (find_none_iff _ _ _ (fun g => has_column_iff g df) Hnone).
      destruct (map fst (filter snd df)) as [|c0 rest] eqn:Ef; [reflexivity|].
      exfalso.
      assert (Hm : In c0 (map fst (filter snd df))) by (rewrite Ef; now left).
      apply in_map_iff in Hm as ([c' b] & Hc' & Hin).
      apply filter_In in Hin as [Hin Hb]. simpl in Hb. subst b.
      now apply (Hnum c').
Qed.

Lemma choose_intensity_column_choice_witness :
  Firms.choose_intensity_column Keys.viirs = Run.Done "frp"
  /\
  Firms.choose_intensity_column Keys.positions_only = Run.Done "latitude"
  /\
  Firms.choose_intensity_column Keys.text_only = Run.Fails Firms.NoNumericColumns.
Proof.
  destruct (choose_intensity_column_choice Keys.viirs) as (Hfirst & _ & _ & _).
  destruct (choose_intensity_column_choice Keys.positions_only) as (_ & Hnum & _ & _).
  destruct (choose_intensity_column_choice Keys.text_only) as (_ & _ & _ & Hfail).
  split; [|split].
  - apply Hfirst. exists [], ["brightness"; "bright_ti4"; "bright_ti5"; "confidence"].
    split; [reflexivity|]. split; [simpl; tauto|intros g []].
  - apply Hnum.
    + intros c Hc Hin. simpl in Hc, Hin.
      intuition (subst; discriminate).
    + exists [("acq_date", false)], [("longitude", true)].
      split; [reflexivity|]. split; [reflexivity|].
      intros g [<-|[]]. discriminate.
  - apply Hfail. split.
    + intros c Hc Hin. simpl in Hc, Hin.
      intuition (subst; discriminate).
    + intros c Hin. simpl in Hin. intuition discriminate.
Defined.

Lemma fetch_fires_world (read_csv : string -> option frame) (srv : Wildfire.server)
    (mapkey source : string) (bbox : option string) (days : Z)
    (date : option string) (w : Wildfire.world) :
  snd (Wildfire.fetch_fires read_csv srv mapkey source bbox days date w) = w \/
  (1 <= days <= 10 /\
   snd (Wildfire.fetch_fires read_csv srv mapkey source bbox days date w)
   = w ++ [Wildfire.build_url mapkey source
             (match Wildfire.nonempty bbox with Some b => b | None => "world" end)
             days date]).
Proof.
  unfold Wildfire.fetch_fires.
  destruct ((days <? 1) || (days >? 10)) eqn:E; [now left|].
  right. apply orb_false_elim in E. split; [lia|].
  destruct (srv _) as [e|status text]; [reflexivity|].
  destruct ((400 <=? status) && (status <? 600)); [reflexivity|].
  destruct (_ || _); [reflexivity|].
  destruct (read_csv text) as [df|]; [|reflexivity].
  destruct (empty df); reflexivity.
Qed.

(** X29. A frame that [fetch_fires] returns is never empty: it is what
    pandas read from the one answer requested, an answer with a good
    status that starts neither like HTML nor like JSON, for a day range
    in [1, 10]. *)
Theorem fetch_fires_returns_detections :
  forall (read_csv : string -> option frame) (srv : Wildfire.server)
         (mapkey source : string) (bbox : option string) (days : Z)
         (date : option string) (w w' : Wildfire.world) (df : frame),
    Wildfire.fetch_fires read_csv srv mapkey source bbox days date w = (Ok df, w') ->
    let url := Wildfire.build_url mapkey source
                 (match Wildfire.nonempty bbox with Some b => b | None => "world" end)
                 days date in
    empty df = false /\
    rows df <> [] /\
    1 <= days <= 10 /\
    w' = w ++ [url] /\
    exists status text,
      srv url = Wildfire.Response status text /\
      (status < 400 \/ 600 <= status) /\
      starts_with_char "<" (lstrip text) = false /\
      starts_with_char "{" (strip text) = false /\
      read_csv text = Some df.
Proof.
  intros read_csv srv mapkey source bbox days date w w' df H url.
  unfold Wildfire.fetch_fires in H. fold url in H.
  destruct ((days <? 1) || (days >? 10)) eqn:Ed; [discriminate|].
  apply orb_false_elim in Ed.
  destruct (srv url) as [e|status text] eqn:Es; [discriminate|].
  destruct ((400 <=? status) && (status <? 600)) eqn:Eb; [discriminate|].
  destruct (starts_with_char "<" (lstrip text) || starts_with_char "{" (strip text))
    eqn:Eg; [discriminate|].
  apply orb_false_elim in Eg as [Eg1 Eg2].
  destruct (read_csv text) as [df'|] eqn:Er; [|discriminate].
  destruct (empty df') eqn:Ee; [discriminate|].
  injection H as <- <-.
  split; [exact Ee|]. split.
  { intros Hr. unfold empty in Ee. rewrite Hr in Ee. now destruct (columns df'). }
  split; [lia|]. split; [reflexivity|].
  exists status, text. repeat split; auto.
  apply andb_false_iff in Eb. lia.
Qed.

Lemma fetch_fires_returns_detections_witness :
  exists df,
    Wildfire.fetch_fires Keys.read_one_fire Keys.burning "KEY" "VIIRS_SNPP_NRT"
      (Some "-130,30,-100,50") 2 None []
    = (Ok df,
       ["https://firms.modaps.eosdis.nasa.gov/api/area/csv/KEY/VIIRS_SNPP_NRT/-130,30,-100,50/2"])
    /\ empty df = false /\ rows df <> [].
Proof.
  eexists. split; [reflexivity|].
  destruct (fetch_fires_returns_detections Keys.read_one_fire Keys.burning "KEY"
              "VIIRS_SNPP_NRT" (Some "-130,30,-100,50") 2 None [] _ _ eq_refl)
    as (Hempty & Hrows & _).
  split; [exact Hempty|exact Hrows].
Defined.

(** X30. [main] contacts FIRMS only with a key and a valid day range.
    When the key loader fails, because no key is found or because the key
    file cannot be read, nothing is requested; and whenever a request is
    made it is the only one, for a day range in [1, 10], to the address
    built from the key that was loaded, a key that is not empty and has
    no white space around it. *)
Theorem acquire_requests :
  forall (getenv : string -> option string) (files : string -> Firms.file)
         (read_csv : string -> option frame) (srv : Wildfire.server)
         (mapkey mapkey_file : option string) (source : string)
         (bbox : option string) (days : Z) (date : option string)
         (w : Wildfire.world),
    let run := Firms.acquire getenv files read_csv srv mapkey mapkey_file
                 source bbox days date w in
    (forall e, fst run = Run.Fails e ->
       Firms.load_map_key getenv files mapkey mapkey_file = Run.Fails e /\
       (e = Firms.MapKeyNotFound \/
        exists x, e = Firms.ReadError x /\
                  files (match Wildfire.nonempty mapkey_file with
                         | Some f => f
                         | None => "MAP_KEY"
                         end) = Firms.Unreadable x) /\
       snd run = w)
    /\
    (snd run <> w ->
     exists key,
       Firms.load_map_key getenv files mapkey mapkey_file = Run.Done key /\
       key <> "" /\ strip key = key /\
       1 <= days <= 10 /\
       snd run
       = w ++ [Wildfire.build_url key source
                 (match Wildfire.nonempty bbox with Some b => b | None => "world" end)
                 days date]).
Proof.
  intros getenv files read_csv srv mapkey mapkey_file source bbox days date w run.
  unfold run, Firms.acquire.
  destruct (Firms.load_map_key getenv files mapkey mapkey_file) as [key|e0] eqn:E.
  - pose proof (fetch_fires_world read_csv srv key source bbox days date w) as Hw.
    destruct (Wildfire.fetch_fires read_csv srv key source bbox days date w)
      as [r w'] eqn:Ef.
    simpl in *. split; [intros e; discriminate|].
    intros Hne. destruct Hw as [Hw|[Hd Hw]]; [contradiction|].
    exists key. destruct (load_map_key_key _ _ _ _ _ E). auto.
  - simpl. split; [|intros Hne; now contradiction Hne].
    intros e [= <-]. split; [reflexivity|]. split; [|reflexivity].
    apply load_map_key_failure in E as (_ & _ & E).
    destruct (files _) as [|s|x]; [now left|now left|].
    right. exists x. auto.
Qed.

Lemma acquire_requests_witness :
  snd (Firms.acquire Keys.empty_env Keys.utf16_key_file Keys.read_one_fire
         Keys.burning None None "VIIRS_SNPP_NRT" None 3 None []) = []
  /\
  exists key,
    Firms.load_map_key Keys.masked_env Keys.key_file None None = Run.Done key /\
    key <> "" /\ strip key = key /\ 1 <= 3 <= 10 /\
    snd (Firms.acquire Keys.masked_env Keys.key_file Keys.read_one_fire
           Keys.burning None None "VIIRS_SNPP_NRT" None 3 None [])
    = [] ++ [Wildfire.build_url key "VIIRS_SNPP_NRT" "world" 3 None].
Proof.
  destruct (acquire_requests Keys.empty_env Keys.utf16_key_file Keys.read_one_fire
              Keys.burning None None "VIIRS_SNPP_NRT" None 3 None [])
    as [Hfail _].
  destruct (acquire_requests Keys.masked_env Keys.key_file Keys.read_one_fire
              Keys.burning None None "VIIRS_SNPP_NRT" None 3 None [])
    as [_ Hreq].
  split.
  - apply (Hfail (Firms.ReadError UnicodeDecodeError)). reflexivity.
  - apply Hreq. discriminate.
Defined.
